(** * EchoPrep: interview room lifecycle and session orchestration

    A shallow embedding of the room routes of the Express backend
    ([backend/src/server/routes/interviews.ts] and
    [backend/src/server/routes/interviewResults.ts]), of the join-window
    evaluation of [frontend/src/pages/InterviewRoomPage.tsx] and of the
    session logic of [frontend/src/contexts/InterviewContext.tsx].

    Conventions of the embedding:
    - instants are milliseconds since the epoch, in [Z];
    - JavaScript strings are [string]s, one character per code unit;
    - JavaScript numbers that hold counts, scores and durations are [Z];
      the normalised score of the evaluator service and the value of
      [Math.random] are double-precision numbers, the [spec_float] of the
      Standard Library at precision 53, and so is their product with a
      constant;
    - the MongoDB collections are lists of documents in insertion order;
      a database that is down is not modelled, a query that cannot cast
      the identifier of its parameter throws as in Mongoose; the user
      identifier of a verified token is one that the server issued. *)

From Stdlib Require Import ZArith QArith Qround Qpower Lqa Ascii String.
From Stdlib Require SpecFloat.
From stdpp Require Import base list strings numbers pretty relations.

Local Open Scope Z_scope.

(** ** JavaScript primitives *)

Module JS.

(** Truthiness of a string: the empty string is falsy. *)
Definition truthy (s : string) : bool := negb (bool_decide (s = "")).

(** Truthiness of an optional string ([undefined] is falsy). *)
Definition truthy_opt (o : option string) : bool :=
  match o with
  | Some s => truthy s
  | None => false
  end.

(** White space and line terminators of ECMAScript among the code units
    below 256: TAB, LF, VT, FF, CR, SP and NBSP. *)
Definition is_white_space (c : ascii) : bool :=
  let n := N_of_ascii c in
  ((9 <=? n) && (n <=? 13) || (n =? 32) || (n =? 160))%N.

Fixpoint trimStart (s : string) : string :=
  match s with
  | EmptyString => EmptyString
  | String c s' => if is_white_space c then trimStart s' else s
  end.

(** [trimEnd] drops the white space that ends the string: a character is
    kept when it is not white space or when something is kept after it. *)
Fixpoint trimEnd (s : string) : string :=
  match s with
  | EmptyString => EmptyString
  | String c s' =>
      match trimEnd s' with
      | EmptyString => if is_white_space c then EmptyString else String c EmptyString
      | t => String c t
      end
  end.

Definition trim (s : string) : string := trimEnd (trimStart s).

Definition length (s : string) : Z := Z.of_nat (String.length s).

(** [Math.round]: the closest integer, a tie going up. *)
Definition Math_round (q : Q) : Z := Qfloor (q + (1 # 2)).

(** [Math.floor]. *)
Definition Math_floor (q : Q) : Z := Qfloor q.

(** *** Double-precision numbers

    A JavaScript number that need not be an integer: an IEEE 754 double,
    with its zeros, infinities and NaN. *)
Definition Number := SpecFloat.spec_float.

(** A number of the double-precision format. *)
Definition is_double (x : Number) : bool := SpecFloat.valid_binary 53 1024 x.

(** The value of a number that is neither NaN nor an infinity. *)
Definition value (x : Number) : option Q :=
  match x with
  | SpecFloat.S754_zero _ => Some 0%Q
  | SpecFloat.S754_finite s m e =>
      Some (if s then (- (inject_Z (Z.pos m) * 2 ^ e))%Q
            else (inject_Z (Z.pos m) * 2 ^ e)%Q)
  | _ => None
  end.

(** [x * y]: the exact product, rounded to the nearest double, a tie
    going to the even one. *)
Definition times (x y : Number) : Number := SpecFloat.SFmul 53 1024 x y.

(** An integer literal. *)
Definition literal (z : Z) : Number :=
  SpecFloat.binary_normalize 53 1024 z 0 false.

(** [Math.round] and [Math.floor] of a number; they return NaN and the
    infinities as they are, which is [None] here. *)
Definition Math_round_number (x : Number) : option Z := Math_round <$> value x.

Definition Math_floor_number (x : Number) : option Z := Math_floor <$> value x.

(** What [k] shifts to the right leave of the mantissa [M] in the record
    of [SpecFloat.shr]: the quotient, the bit that was shifted out last
    and whether a bit that was shifted out before is set. *)
Definition shifted (M k : Z) (mrs : SpecFloat.shr_record) : Prop :=
  SpecFloat.shr_m mrs = Z.shiftr M k
  ∧ SpecFloat.shr_r mrs = (if k =? 0 then false else Z.testbit M (k - 1))
  ∧ (SpecFloat.shr_s mrs = true ↔ 0 < k ∧ M mod 2 ^ (k - 1) ≠ 0).

(** [Math.max] on integers. *)
Definition Math_max (a b : Z) : Z := Z.max a b.

(** [[...new Set(l)]]: a [Set] keeps its elements in insertion order and
    adding an element that is already there changes nothing. *)
Definition Set_add (acc : list string) (x : string) : list string :=
  if bool_decide (x ∈ acc) then acc else acc ++ [x].

Definition Set_from (l : list string) : list string :=
  foldl Set_add [] l.

(** [l.slice(0, n)]. *)
Definition slice0 {A} (n : nat) (l : list A) : list A := take n l.

End JS.

(** ** The room collection and its routes *)

Module Rooms.

Definition ObjectId := string.

Inductive Status := scheduled | completed | cancelled.

#[global] Instance Status_eq_dec : EqDecision Status.
Proof. solve_decision. Defined.

(** The value of the status as a string, as it is put into a message. *)
Definition status_string (s : Status) : string :=
  match s with
  | scheduled => "scheduled"
  | completed => "completed"
  | cancelled => "cancelled"
  end.

(** [IInterviewRoom]. *)
Record InterviewRoom := {
  _id : ObjectId;
  title : string;
  hr : ObjectId;
  candidate : ObjectId;
  scheduledFor : Z;
  duration : Z;
  jobRole : string;
  experienceLevel : string;
  roomLink : string;
  status : Status;
  notes : option string
}.

Definition set_status (st : Status) (r : InterviewRoom) : InterviewRoom :=
  {| _id := _id r; title := title r; hr := hr r; candidate := candidate r;
     scheduledFor := scheduledFor r; duration := duration r;
     jobRole := jobRole r; experienceLevel := experienceLevel r;
     roomLink := roomLink r; status := st; notes := notes r |}.

Definition set_notes (n : string) (r : InterviewRoom) : InterviewRoom :=
  {| _id := _id r; title := title r; hr := hr r; candidate := candidate r;
     scheduledFor := scheduledFor r; duration := duration r;
     jobRole := jobRole r; experienceLevel := experienceLevel r;
     roomLink := roomLink r; status := status r; notes := Some n |}.

(** *** Identifiers *)

Definition is_hex (c : ascii) : bool :=
  let n := N_of_ascii c in
  ((48 <=? n) && (n <=? 57) || (65 <=? n) && (n <=? 70)
   || (97 <=? n) && (n <=? 102))%N.

Definition to_lower (c : ascii) : ascii :=
  let n := N_of_ascii c in
  if ((65 <=? n) && (n <=? 90))%N then ascii_of_N (n + 32) else c.

Definition hex_digit (n : N) : ascii :=
  if (n <? 10)%N then ascii_of_N (48 + n) else ascii_of_N (87 + n).

Fixpoint lower (s : string) : string :=
  match s with
  | EmptyString => EmptyString
  | String c s' => String (to_lower c) (lower s')
  end.

Fixpoint hex_encode (s : string) : string :=
  match s with
  | EmptyString => EmptyString
  | String c s' =>
      let n := N_of_ascii c in
      String (hex_digit (n / 16)) (String (hex_digit (n mod 16)) (hex_encode s'))
  end.

Fixpoint all_hex (s : string) : bool :=
  match s with
  | EmptyString => true
  | String c s' => is_hex c && all_hex s'
  end.

(** The cast of a string to an [ObjectId]: 24 hexadecimal digits, or the
    12 bytes themselves. A stored identifier is in lower-case
    hexadecimal. *)
Definition castObjectId (s : string) : option ObjectId :=
  if (String.length s =? 24)%nat && all_hex s then Some (lower s)
  else if (String.length s =? 12)%nat then Some (hex_encode s)
  else None.

(** [mongoose.Types.ObjectId.isValid]. *)
Definition ObjectId_isValid (s : string) : bool :=
  bool_decide (is_Some (castObjectId s)).

(** *** Queries *)

(** The first document, in insertion order, that a filter selects. *)
Fixpoint find_first (p : InterviewRoom → bool) (db : list InterviewRoom)
  : option InterviewRoom :=
  match db with
  | [] => None
  | r :: db' => if p r then Some r else find_first p db'
  end.

(** The outcome of a query whose identifier is cast: [None] is a thrown
    [CastError]. *)
Definition findById (id : string) (db : list InterviewRoom)
  : option (option InterviewRoom) :=
  oid ← castObjectId id;
  Some (find_first (λ r, bool_decide (_id r = oid)) db).

(** [InterviewRoom.findOne({ roomLink })]. *)
Definition findOne_roomLink (link : string) (db : list InterviewRoom)
  : option InterviewRoom :=
  find_first (λ r, bool_decide (roomLink r = link)) db.

(** [InterviewRoom.findOne({ _id, hr })]. *)
Definition findOne_id_hr (id : string) (user : ObjectId) (db : list InterviewRoom)
  : option (option InterviewRoom) :=
  oid ← castObjectId id;
  Some (find_first
          (λ r, bool_decide (_id r = oid) && bool_decide (hr r = user)) db).

(** [InterviewRoom.findOne({ _id, $or: [{ hr }, { candidate }] })]. *)
Definition findOne_id_party (id : string) (user : ObjectId) (db : list InterviewRoom)
  : option (option InterviewRoom) :=
  oid ← castObjectId id;
  Some (find_first
          (λ r, bool_decide (_id r = oid)
                && (bool_decide (hr r = user)
                    || bool_decide (candidate r = user))) db).

(** [doc.save()] of a document that was read from the collection: the
    stored document with its [_id] is replaced. *)
Definition save (doc : InterviewRoom) (db : list InterviewRoom) : list InterviewRoom :=
  (λ r, if bool_decide (_id r = _id doc) then doc else r) <$> db.

Definition room_link_of (roomId : string) : string :=
  "/interview-room/" +:+ roomId.

(** *** Requests and responses *)

(** The JSON body of a response. *)
Inductive Body :=
| Message (message : string)
| Document (interview : InterviewRoom)
| MessageDocument (message : string) (interview : InterviewRoom).

Record Response := { code : Z; body : Body }.

Definition Handler := list InterviewRoom → Response * list InterviewRoom.

(** [res.status(c).json({ message })], the collection left as it is. *)
Definition reply (c : Z) (message : string) : Handler :=
  λ db, ({| code := c; body := Message message |}, db).

(** The payload of a verified token. *)
Record AuthUser := { userId : ObjectId; role : string }.

(** The [authorization] header as [authenticateToken] sees it. *)
Inductive Authorization :=
| NoToken
| InvalidToken
| Token (user : AuthUser).

Definition authenticateToken (a : Authorization) (next : AuthUser → Handler)
  : Handler :=
  match a with
  | NoToken => reply 401 "Authentication required"
  | InvalidToken => reply 403 "Invalid token"
  | Token user => next user
  end.

Definition requireHR (user : AuthUser) (next : Handler) : Handler :=
  if bool_decide (role user = "hr") then next
  else reply 403 "HR access required".

(** *** PUT /:id/cancel *)
Definition cancel (a : Authorization) (id : string) : Handler :=
  authenticateToken a (λ user, requireHR user (λ db,
    match findOne_id_hr id (userId user) db with
    | None => reply 500 "Error cancelling interview" db
    | Some None => reply 404 "Interview not found" db
    | Some (Some interview) =>
        if bool_decide (status interview ≠ scheduled)
        then reply 400 "Interview cannot be cancelled" db
        else
          let interview := set_status cancelled interview in
          ({| code := 200; body := Document interview |}, save interview db)
    end)).

(** *** PUT /:id/complete *)
Definition complete (a : Authorization) (id : string) : Handler :=
  authenticateToken a (λ user db,
    match findOne_id_party id (userId user) db with
    | None => reply 500 "Error completing interview" db
    | Some None => reply 404 "Interview not found" db
    | Some (Some interview) =>
        if bool_decide (status interview ≠ scheduled)
        then reply 400 "Interview cannot be completed" db
        else
          let interview := set_status completed interview in
          ({| code := 200; body := Document interview |}, save interview db)
    end).

(** *** PUT /:id/auto-complete, the older route, which looks at the clock *)
Definition autoCompleteTimed (now : Z) (id : string) : Handler :=
  λ db,
    match findById id db with
    | None => reply 500 "Error auto-completing interview" db
    | Some None => reply 404 "Interview not found" db
    | Some (Some interview) =>
        if bool_decide (status interview ≠ scheduled)
        then reply 400 "Interview is already completed or cancelled" db
        else
          let scheduledTime := scheduledFor interview in
          let endTime := scheduledTime + duration interview * 60000 in
          if bool_decide (now > endTime)
          then
            let interview := set_status completed interview in
            ({| code := 200;
                body := MessageDocument "Interview automatically completed"
                                        interview |},
             save interview db)
          else reply 400 "Interview time has not ended yet" db
    end.

(** The lookup of PUT /auto-complete/:id: by identifier when the
    parameter has the format of one, then by room link. *)
Definition resolve (idParam : string) (db : list InterviewRoom)
  : option (option InterviewRoom) :=
  byId ← (if ObjectId_isValid idParam then findById idParam db
          else Some None);
  Some (match byId with
        | Some interview => Some interview
        | None => findOne_roomLink (room_link_of idParam) db
        end).

(** *** PUT /auto-complete/:id *)
Definition autoComplete (idParam : string) : Handler :=
  λ db,
    match resolve idParam db with
    | None => reply 500 "Error auto-completing interview" db
    | Some None => reply 404 "Interview not found" db
    | Some (Some interview) =>
        if bool_decide (status interview ≠ scheduled)
        then reply 400 ("Interview is already "
                        +:+ status_string (status interview)) db
        else
          let interview := set_status completed interview in
          ({| code := 200;
              body := MessageDocument "Interview automatically completed"
                                      interview |},
           save interview db)
    end.

(** *** PUT /room/:roomId/complete *)
Definition completeByRoom (roomId : string) : Handler :=
  λ db,
    match findOne_roomLink (room_link_of roomId) db with
    | None =>
        match findById roomId db with
        | None => reply 404 "Interview not found by room ID or direct ID" db
        | Some None => reply 404 "Interview not found" db
        | Some (Some interviewById) =>
            if bool_decide (status interviewById ≠ scheduled)
            then reply 400 "Interview is already completed or cancelled" db
            else
              let interviewById := set_status completed interviewById in
              ({| code := 200;
                  body := MessageDocument
                            "Interview marked as completed via direct ID"
                            interviewById |},
               save interviewById db)
        end
    | Some interview =>
        if bool_decide (status interview ≠ scheduled)
        then reply 400 "Interview is already completed or cancelled" db
        else
          let interview := set_status completed interview in
          ({| code := 200;
              body := MessageDocument "Interview marked as completed"
                                      interview |},
           save interview db)
    end.

End Rooms.

(** ** The result collection and its creation route *)

Module Results.

(** An entry of [answers] in [IInterviewResult]. *)
Record AnswerEntry := {
  questionId : string;
  questionText : string;
  answerText : string;
  score : Z;
  feedback : string;
  strengths : list string;
  weaknesses : list string
}.

(** The body of POST /api/interview-results; a field that is required by
    the schema may be missing from the request. *)
Record Payload := {
  p_interviewId : option string;
  p_jobRole : option string;
  p_experienceLevel : option string;
  p_totalScore : option Z;
  p_feedback : option string;
  p_strengths : list string;
  p_improvements : list string;
  p_answers : list AnswerEntry
}.

(** [IInterviewResult]. *)
Record InterviewResult := {
  _id : Rooms.ObjectId;
  candidateId : Rooms.ObjectId;
  interviewId : option Rooms.ObjectId;
  jobRole : string;
  experienceLevel : string;
  totalScore : Z;
  result_feedback : string;
  result_strengths : list string;
  improvements : list string;
  date : Z;
  answers : list AnswerEntry
}.

Record Db := {
  rooms : list Rooms.InterviewRoom;
  results : list InterviewResult
}.

Inductive Body :=
| Message (message : string)
| Created (result : InterviewResult).

Record Response := { code : Z; body : Body }.

(** [new InterviewResult({...})] followed by the validation of [save]:
    a required string is present and not empty, the required number is
    present. *)
Definition validate (rid : Rooms.ObjectId) (now : Z)
    (user : Rooms.AuthUser) (oid : option Rooms.ObjectId) (p : Payload)
  : option InterviewResult :=
  role ← p_jobRole p;
  level ← p_experienceLevel p;
  total ← p_totalScore p;
  fb ← p_feedback p;
  if JS.truthy role && JS.truthy level && JS.truthy fb
  then Some {| _id := rid; candidateId := Rooms.userId user;
               interviewId := oid; jobRole := role;
               experienceLevel := level; totalScore := total;
               result_feedback := fb; result_strengths := p_strengths p;
               improvements := p_improvements p; date := now;
               answers := p_answers p |}
  else None.

(** The note that links a room to a stored result. The score is printed
    as the request gave it; a request without one cannot reach the
    note. *)
Definition newNote (rid : Rooms.ObjectId) (total : Z) : string :=
  "Result ID: " +:+ rid +:+ " - Score: " +:+ pretty total +:+ "/100".

Definition add_note (n : string) (r : Rooms.InterviewRoom)
  : Rooms.InterviewRoom :=
  match Rooms.notes r with
  | Some old =>
      if (0 <? JS.length old)
      then Rooms.set_notes (old +:+ String "010"%char n) r
      else Rooms.set_notes n r
  | None => Rooms.set_notes n r
  end.

(** The tail of the route, once the room (if any) has been resolved and
    marked: create the result, then write the note on the room. *)
Definition store_result (rid : Rooms.ObjectId) (now : Z)
    (user : Rooms.AuthUser) (p : Payload)
    (interviewDocument : option Rooms.InterviewRoom) (db : Db)
  : Response * Db :=
  match validate rid now user (Rooms._id <$> interviewDocument) p with
  | None =>
      ({| code := 500; body := Message "Error creating interview result" |},
       db)
  | Some result =>
      let db := {| rooms := rooms db; results := results db ++ [result] |} in
      let db :=
        match interviewDocument with
        | Some doc =>
            {| rooms := Rooms.save
                          (add_note (newNote rid (totalScore result)) doc)
                          (rooms db);
               results := results db |}
        | None => db
        end in
      ({| code := 201; body := Created result |}, db)
  end.

(** *** POST /api/interview-results. [rid] is the identifier that the
    new result receives. *)
Definition create (rid : Rooms.ObjectId) (now : Z)
    (a : Rooms.Authorization) (p : Payload) (db : Db) : Response * Db :=
  match a with
  | Rooms.NoToken =>
      ({| code := 401; body := Message "Authentication required" |}, db)
  | Rooms.InvalidToken =>
      ({| code := 403; body := Message "Invalid token" |}, db)
  | Rooms.Token user =>
      if JS.truthy_opt (p_interviewId p)
      then
        let uuid := default "" (p_interviewId p) in
        match Rooms.findOne_roomLink (Rooms.room_link_of uuid) (rooms db) with
        | None =>
            ({| code := 404;
                body := Message ("InterviewRoom associated with ID " +:+ uuid
                                 +:+ " not found via roomLink.") |}, db)
        | Some interviewDocument =>
            if bool_decide (Rooms.status interviewDocument = Rooms.scheduled)
            then
              let interviewDocument :=
                Rooms.set_status Rooms.completed interviewDocument in
              store_result rid now user p (Some interviewDocument)
                {| rooms := Rooms.save interviewDocument (rooms db);
                   results := results db |}
            else store_result rid now user p (Some interviewDocument) db
        end
      else store_result rid now user p None db
  end.

End Results.

(** ** All the operations that write a room *)

Module Api.

Inductive Request :=
| Cancel (a : Rooms.Authorization) (id : string)
| Complete (a : Rooms.Authorization) (id : string)
| AutoCompleteTimed (id : string)
| AutoComplete (idParam : string)
| CompleteByRoom (roomId : string)
| SubmitResult (rid : Rooms.ObjectId) (a : Rooms.Authorization)
               (p : Results.Payload).

(** The rooms after a request was served at the instant [now]. *)
Definition rooms_after (now : Z) (req : Request) (db : Results.Db)
  : list Rooms.InterviewRoom :=
  match req with
  | Cancel a id => snd (Rooms.cancel a id (Results.rooms db))
  | Complete a id => snd (Rooms.complete a id (Results.rooms db))
  | AutoCompleteTimed id =>
      snd (Rooms.autoCompleteTimed now id (Results.rooms db))
  | AutoComplete idParam => snd (Rooms.autoComplete idParam (Results.rooms db))
  | CompleteByRoom roomId => snd (Rooms.completeByRoom roomId (Results.rooms db))
  | SubmitResult rid a p => Results.rooms (snd (Results.create rid now a p db))
  end.

(** [stays_terminal db db']: a room that is completed or cancelled in
    [db] is at the same place in [db'], with the same identifier, and is
    not scheduled. *)
Definition stays_terminal (db db' : list Rooms.InterviewRoom) : Prop :=
  ∀ i r, db !! i = Some r → Rooms.status r ≠ Rooms.scheduled →
         ∃ r', db' !! i = Some r' ∧ Rooms._id r' = Rooms._id r
               ∧ Rooms.status r' ≠ Rooms.scheduled.

End Api.

(** ** The evaluator gateway of the backend *)

Module Gemini.

(** The body of POST /gemini/analyze. *)
Record AnalyzeRequest := {
  question : string;
  answer : string;
  jobRole : option string;
  experienceLevel : option string
}.

(** What the call of the evaluator service comes to: a payload (a field
    is [None] when it is missing or has another type than expected), an
    error status, or no response at all. *)
Inductive Oracle :=
| OracleData (score : option JS.Number) (feedback : option string)
| OracleError (status : Z) (detail : option string)
| OracleDown.

(** The score of an analysis is [None] for the [null] that JSON has in
    the place of NaN and of the infinities. *)
Inductive Body :=
| Analysis (score : option Z) (feedback : string)
| Message (message : string).

Record Response := { code : Z; body : Body }.

(** *** POST /gemini/analyze *)
Definition analyze (req : AnalyzeRequest) (oracle : Oracle) : Response :=
  if negb (JS.truthy (question req)) || negb (JS.truthy (answer req))
  then {| code := 400; body := Message "Question and answer are required" |}
  else
    match oracle with
    | OracleData (Some score) (Some feedback) =>
        {| code := 200;
           body := Analysis
                     (JS.Math_round_number (JS.times score (JS.literal 100)))
                     feedback |}
    | OracleData _ _ =>
        {| code := 500;
           body := Message "Error analyzing answer: Unexpected response from evaluator service" |}
    | OracleError status detail =>
        {| code := if status =? 0 then 500 else status;
           body := Message
                     (match detail with
                      | Some d => if JS.truthy d then d
                                  else "Error analyzing answer from evaluator service"
                      | None => "Error analyzing answer from evaluator service"
                      end) |}
    | OracleDown =>
        {| code := 500;
           body := Message "Error analyzing answer from evaluator service" |}
    end.

End Gemini.

(** ** The room page: the join window *)

Module RoomPage.

(** The fields of the fetched room that the page reads. *)
Record Interview := {
  _id : string;
  scheduledFor : Z;
  duration : Z;
  status : Rooms.Status
}.

Record PageState := {
  error : option string;
  canStart : bool;
  roomExpired : bool;
  remainingTime : option Z;
  timerStarted : bool;
  autoCompleteRequested : option string
}.

(** date-fns [addMinutes]. *)
Definition addMinutes (date amount : Z) : Z := date + amount * 60000.

(** date-fns [differenceInSeconds]: whole seconds, rounded towards
    zero. *)
Definition differenceInSeconds (dateLeft dateRight : Z) : Z :=
  (dateLeft - dateRight) ÷ 1000.

(** [data.duration || 60]. *)
Definition effectiveDuration (data : Interview) : Z :=
  if duration data =? 0 then 60 else duration data.

(** The page after [fetchInterview] has received the room [data] at the
    instant [now]. The page starts with no error, [canStart] and
    [roomExpired] false and no remaining time. *)
Definition fetchInterview (now : Z) (data : Interview) : PageState :=
  match status data with
  | Rooms.cancelled =>
      {| error := Some "This interview has been cancelled";
         canStart := false; roomExpired := false; remainingTime := None;
         timerStarted := false; autoCompleteRequested := None |}
  | Rooms.completed =>
      {| error := Some "This interview has already been completed";
         canStart := false; roomExpired := true; remainingTime := None;
         timerStarted := false; autoCompleteRequested := None |}
  | Rooms.scheduled =>
      let interviewTime := scheduledFor data in
      let timeDiff := interviewTime - now in
      let endTime := addMinutes interviewTime (effectiveDuration data) in
      if now >? endTime then
        {| error := Some "This interview has already ended";
           canStart := false; roomExpired := true; remainingTime := None;
           timerStarted := false;
           autoCompleteRequested := Some (_id data) |}
      else if timeDiff >? 300000 then
        {| error := Some "This interview has not started yet";
           canStart := false; roomExpired := false; remainingTime := None;
           timerStarted := false; autoCompleteRequested := None |}
      else
        let remainingSecs := differenceInSeconds endTime now in
        {| error := None;
           canStart := true; roomExpired := false;
           remainingTime := Some (if remainingSecs >? 0 then remainingSecs
                                  else 0);
           timerStarted := remainingSecs >? 0;
           autoCompleteRequested := None |}
  end.

(** The phase of the join window that the page shows. *)
Inductive Phase :=
| notYetOpen
| joinable (remainingSeconds : Z)
| ended.

Definition phase (p : PageState) : option Phase :=
  if canStart p then joinable <$> remainingTime p
  else if roomExpired p then Some ended
  else if bool_decide (error p = Some "This interview has not started yet")
       then Some notYetOpen
  else None.

(** The join window of a scheduled room. *)
Definition evaluateWindow (now scheduledFor durationMinutes : Z)
  : option Phase :=
  phase (fetchInterview now
           {| _id := ""; scheduledFor := scheduledFor;
              duration := durationMinutes; status := Rooms.scheduled |}).

End RoomPage.

(** ** The interview session of the candidate *)

Module Session.

Definition QUESTION_TIME_LIMIT_SECONDS : Z := 180.
Definition DEFAULT_PRACTICE_QUESTION_COUNT : Z := 10.
Definition DEFAULT_SCHEDULED_QUESTION_COUNT : Z := 5.

Inductive JobRole :=
| web_developer | app_developer | ml_ai | ux_designer | data_scientist.

Inductive ExperienceLevel := fresher | junior | mid_level | senior.

Definition JobRole_string (r : JobRole) : string :=
  match r with
  | web_developer => "web-developer"
  | app_developer => "app-developer"
  | ml_ai => "ml-ai"
  | ux_designer => "ux-designer"
  | data_scientist => "data-scientist"
  end.

Definition ExperienceLevel_string (l : ExperienceLevel) : string :=
  match l with
  | fresher => "fresher"
  | junior => "junior"
  | mid_level => "mid-level"
  | senior => "senior"
  end.

Record InterviewConfig := {
  jobRole : JobRole;
  experienceLevel : ExperienceLevel
}.

(** A capture handle. *)
Definition MediaStream := nat.

Record InterviewStartOptions := {
  o_mediaStream : option MediaStream;
  o_jobRole : option JobRole;
  o_experienceLevel : option ExperienceLevel;
  interviewId : option string;
  durationInSeconds : option Z;
  isHrScheduled : option bool
}.

Record InterviewQuestion := { id : string; q_text : string }.

Record InterviewAnswer := {
  questionId : string;
  text : string;
  audioUrl : option string;
  score : option Z;
  feedback : option string;
  strengths : option (list string);
  weaknesses : option (list string);
  questionText : option string
}.

Record InterviewResult := {
  totalScore : Z;
  r_answers : list InterviewAnswer;
  r_feedback : string;
  cheatingDetected : bool;
  r_strengths : list string;
  improvements : list string;
  date : Z;
  r_isHrScheduled : bool
}.

(** Every combination of the two union types has its four questions, so
    the guards [?.] and [|| []] of the lookup never apply. *)
Definition MOCK_QUESTIONS (r : JobRole) (l : ExperienceLevel) : list string :=
  match r, l with
  | web_developer, fresher =>
      [ "Tell me about yourself and your interest in web development.";
        "What HTML and CSS concepts are you familiar with?";
        "Have you worked with JavaScript before? What basic concepts do you understand?";
        "Describe a simple web project you've worked on." ]
  | web_developer, junior =>
      [ "Tell me about your experience with responsive design.";
        "How do you approach debugging in JavaScript?";
        "Explain the difference between let, const, and var in JavaScript.";
        "What frontend frameworks or libraries have you worked with?" ]
  | web_developer, mid_level =>
      [ "Explain the concept of closures in JavaScript.";
        "How do you handle state management in a React application?";
        "Describe your experience with RESTful APIs.";
        "How do you optimize website performance?" ]
  | web_developer, senior =>
      [ "Describe a complex architecture you've designed for a web application.";
        "How do you approach testing in a large-scale web application?";
        "Explain your experience with microservices in web development.";
        "How do you mentor junior developers in your team?" ]
  | app_developer, fresher =>
      [ "Why are you interested in mobile app development?";
        "What programming languages have you learned?";
        "Describe a simple app idea you would like to build.";
        "What do you know about the app development lifecycle?" ]
  | app_developer, junior =>
      [ "Tell me about an app you've worked on.";
        "How familiar are you with native vs cross-platform development?";
        "Describe your experience with state management in mobile apps.";
        "How do you handle user input validation?" ]
  | app_developer, mid_level =>
      [ "Explain your approach to app architecture.";
        "How do you handle offline capabilities in mobile apps?";
        "Describe your experience with consuming APIs in mobile applications.";
        "How do you approach testing for mobile applications?" ]
  | app_developer, senior =>
      [ "Describe a complex mobile architecture you've designed.";
        "How do you approach performance optimization in mobile apps?";
        "Explain your experience with CI/CD for mobile applications.";
        "How do you manage dependencies in large-scale mobile applications?" ]
  | ml_ai, fresher =>
      [ "Why are you interested in AI and machine learning?";
        "What ML/AI concepts have you studied?";
        "Have you completed any ML projects or courses?";
        "What programming languages do you know for data analysis?" ]
  | ml_ai, junior =>
      [ "Explain the difference between supervised and unsupervised learning.";
        "Describe a simple ML project you've worked on.";
        "How familiar are you with Python libraries for ML?";
        "What do you know about data preprocessing?" ]
  | ml_ai, mid_level =>
      [ "Explain how you would approach a classification problem.";
        "Describe your experience with neural networks.";
        "How do you evaluate ML model performance?";
        "What experience do you have with NLP or computer vision?" ]
  | ml_ai, senior =>
      [ "Describe a complex ML system you've designed and deployed.";
        "How do you approach ML model optimization and maintenance?";
        "Explain your experience with distributed computing for ML.";
        "How do you stay current with the rapidly evolving field of AI?" ]
  | ux_designer, fresher =>
      [ "Why are you interested in UX design?";
        "What design tools have you learned to use?";
        "Describe your understanding of user-centered design.";
        "Have you created any design projects yet?" ]
  | ux_designer, junior =>
      [ "Tell me about your design process.";
        "How do you conduct user research?";
        "Describe a design project you've worked on.";
        "How do you handle feedback on your designs?" ]
  | ux_designer, mid_level =>
      [ "How do you translate user needs into design solutions?";
        "Describe your experience with usability testing.";
        "How do you collaborate with developers?";
        "Tell me about a challenging design problem you solved." ]
  | ux_designer, senior =>
      [ "How do you approach UX strategy for large products?";
        "Describe how you've built or managed a design system.";
        "How do you measure the success of your UX designs?";
        "Tell me about how you mentor junior designers." ]
  | data_scientist, fresher =>
      [ "Why are you interested in data science?";
        "What statistical concepts are you familiar with?";
        "What programming languages do you know for data analysis?";
        "Have you worked on any data projects?" ]
  | data_scientist, junior =>
      [ "Describe a data analysis project you've worked on.";
        "How do you approach data cleaning and preparation?";
        "What visualization tools have you worked with?";
        "How do you determine which statistical test to use?" ]
  | data_scientist, mid_level =>
      [ "How do you approach feature engineering?";
        "Describe your experience with big data technologies.";
        "How do you communicate technical findings to non-technical stakeholders?";
        "Tell me about a challenging data problem you solved." ]
  | data_scientist, senior =>
      [ "How do you build data science teams and processes?";
        "Describe a complex data pipeline you've designed.";
        "How do you approach model deployment and monitoring?";
        "How do you ensure ethical use of data in your projects?" ]
  end.

(** The state of [InterviewProvider]. *)
Record State := {
  config : option InterviewConfig;
  questions : list InterviewQuestion;
  currentQuestionIndex : nat;
  answers : list InterviewAnswer;
  result : option InterviewResult;
  isInterviewInProgress : bool;
  isInterviewComplete : bool;
  mediaStream : option MediaStream;
  isLoadingQuestions : bool;
  mediaStreamError : option string;
  isInitializingMedia : bool;
  isHrScheduledInterview : bool
}.

Definition initial : State :=
  {| config := None; questions := []; currentQuestionIndex := 0%nat;
     answers := []; result := None; isInterviewInProgress := false;
     isInterviewComplete := false; mediaStream := None;
     isLoadingQuestions := false; mediaStreamError := None;
     isInitializingMedia := false; isHrScheduledInterview := false |}.

Definition setConfig (c : InterviewConfig) (s : State) : State :=
  {| config := Some c; questions := questions s;
     currentQuestionIndex := currentQuestionIndex s; answers := answers s;
     result := result s; isInterviewInProgress := isInterviewInProgress s;
     isInterviewComplete := isInterviewComplete s;
     mediaStream := mediaStream s;
     isLoadingQuestions := isLoadingQuestions s;
     mediaStreamError := mediaStreamError s;
     isInitializingMedia := isInitializingMedia s;
     isHrScheduledInterview := isHrScheduledInterview s |}.

(** *** finishInterview: the aggregation *)

Definition answersWithScores (answers : list InterviewAnswer)
  : list InterviewAnswer :=
  filter (λ answer, is_Some (score answer)) answers.

(** The [reduce] that sums [answer.score || 0]. *)
Definition sumScores (l : list InterviewAnswer) : Z :=
  foldl (λ sum answer, sum + default 0 (score answer)) 0 l.

Definition computeTotalScore (answers : list InterviewAnswer) : Z :=
  let scored := answersWithScores answers in
  if (0 <? Z.of_nat (length scored))
  then JS.Math_round (inject_Z (sumScores scored)
                      / inject_Z (Z.of_nat (length scored)))
  else 0.

Definition allStrengths (answers : list InterviewAnswer) : list string :=
  filter (λ strength, JS.truthy strength = true)
         (answers ≫= λ answer, default [] (strengths answer)).

Definition allWeaknesses (answers : list InterviewAnswer) : list string :=
  filter (λ weakness, JS.truthy weakness = true)
         (answers ≫= λ answer, default [] (weaknesses answer)).

Definition uniqueStrengths (answers : list InterviewAnswer) : list string :=
  JS.slice0 5 (JS.Set_from (allStrengths answers)).

Definition uniqueImprovements (answers : list InterviewAnswer)
  : list string :=
  JS.slice0 5 (JS.Set_from (allWeaknesses answers)).

Definition feedbackFor (totalScore : Z) : string :=
  if totalScore >=? 80
  then "Excellent job! You demonstrated strong communication skills and provided comprehensive answers."
  else if totalScore >=? 70
  then "Good job! Your answers were solid with some room for improvement in specific areas."
  else if totalScore >=? 60
  then "Satisfactory performance. With some preparation, you can improve your interview skills."
  else "You need more practice with interview questions. Focus on being more specific and structured in your answers.".

Definition skippedAnswer (question : InterviewQuestion) : InterviewAnswer :=
  {| questionId := id question;
     questionText := Some (q_text question);
     text := "Skipped";
     score := Some 0;
     feedback := Some "This question was skipped.";
     strengths := Some [];
     weaknesses := Some [];
     audioUrl := None |}.

Definition withQuestionText (t : string) (a : InterviewAnswer)
  : InterviewAnswer :=
  {| questionId := questionId a; text := text a; audioUrl := audioUrl a;
     score := score a; feedback := feedback a; strengths := strengths a;
     weaknesses := weaknesses a; questionText := Some t |}.

(** [answers.find(a => a.questionId === question.id)]. *)
Definition findAnswer (qid : string) (answers : list InterviewAnswer)
  : option InterviewAnswer :=
  snd <$> list_find (λ a, questionId a = qid) answers.

Definition finalAnswers (questions : list InterviewQuestion)
    (answers : list InterviewAnswer) : list InterviewAnswer :=
  (λ question,
     match findAnswer (id question) answers with
     | Some existingAnswer => withQuestionText (q_text question) existingAnswer
     | None => skippedAnswer question
     end) <$> questions.

Definition resultToSave (now : Z) (s : State) : InterviewResult :=
  let totalScore := computeTotalScore (answers s) in
  {| totalScore := totalScore;
     r_answers := finalAnswers (questions s) (answers s);
     r_feedback := feedbackFor totalScore;
     cheatingDetected := false;
     r_strengths := uniqueStrengths (answers s);
     improvements := uniqueImprovements (answers s);
     date := now;
     r_isHrScheduled := isHrScheduledInterview s |}.

(** The state after [finishInterview] at the instant [now]. The requests
    that it sends afterwards (completion of the room, storage of the
    result) do not come back into the state. *)
Definition finishInterview (now : Z) (s : State) : State :=
  {| config := config s;
     questions := questions s;
     currentQuestionIndex := 0%nat;
     answers := answers s;
     result :=
       if (0 <? Z.of_nat (length (answers s))) && bool_decide (is_Some (config s))
       then Some (resultToSave now s)
       else None;
     isInterviewInProgress := false;
     isInterviewComplete := true;
     mediaStream := None;
     isLoadingQuestions := isLoadingQuestions s;
     mediaStreamError := mediaStreamError s;
     isInitializingMedia := isInitializingMedia s;
     isHrScheduledInterview := isHrScheduledInterview s |}.

(** *** startInterview *)

(** The body of the request for questions. *)
Record QuestionsRequest := {
  rq_jobRole : JobRole;
  rq_experienceLevel : ExperienceLevel;
  count : Z
}.

(** What [fetch] of the questions comes to: it throws, or a response
    arrives whose [questions] are [None] when they are missing or not an
    array. *)
Inductive QuestionsOutcome :=
| QuestionsThrown
| QuestionsResponse (status : Z) (questions : option (list string)).

Inductive MediaOutcome :=
| MediaGranted (stream : MediaStream)
| MediaDenied (message : string).

(** What surrounds a call of [startInterview]: the devices, the gateway
    and the successive values of [getRandomId]. *)
Record Environment := {
  getUserMedia : MediaOutcome;
  fetchQuestions : QuestionsRequest → QuestionsOutcome;
  getRandomId : nat → string
}.

(** [response.ok]. *)
Definition ok (status : Z) : bool := (200 <=? status) && (status <=? 299).

Definition hrScheduledCheck (options : option InterviewStartOptions) : bool :=
  match options ≫= isHrScheduled with
  | Some flag => flag
  | None => JS.truthy_opt (options ≫= interviewId)
  end.

Definition questionCount (options : option InterviewStartOptions) : Z :=
  if hrScheduledCheck options then
    match options ≫= durationInSeconds with
    | Some d =>
        if negb (d =? 0) && (d >? 0)
        then JS.Math_max 1
               (JS.Math_floor (inject_Z d
                               / inject_Z QUESTION_TIME_LIMIT_SECONDS))
        else DEFAULT_SCHEDULED_QUESTION_COUNT
    | None => DEFAULT_SCHEDULED_QUESTION_COUNT
    end
  else DEFAULT_PRACTICE_QUESTION_COUNT.

Definition sessionConfig (options : option InterviewStartOptions)
    (s : State) : option InterviewConfig :=
  match options ≫= o_jobRole, options ≫= o_experienceLevel with
  | Some r, Some l => Some {| jobRole := r; experienceLevel := l |}
  | _, _ => config s
  end.

(** The questions made from texts, each with a fresh identifier. *)
Definition formatQuestions (ids : nat → string) (texts : list string)
  : list InterviewQuestion :=
  imap (λ i t, {| id := ids i; q_text := t |}) texts.

Definition mockQuestions (ids : nat → string) (c : InterviewConfig)
  : list InterviewQuestion :=
  let mock := MOCK_QUESTIONS (jobRole c) (experienceLevel c) in
  let mockQuestions := formatQuestions ids mock in
  if (0 <? Z.of_nat (length mockQuestions)) then mockQuestions
  else [ {| id := ids (length mock);
            q_text := "Mock questions for " +:+ JobRole_string (jobRole c)
                      +:+ "/" +:+ ExperienceLevel_string (experienceLevel c)
                      +:+ " not defined. Tell me about a project you are proud of." |} ].

(** The questions of the session: those of the gateway, or the fallback
    when the call throws, the response is not [ok] or has no array. *)
Definition loadQuestions (env : Environment) (c : InterviewConfig)
    (questionCount : Z) : list InterviewQuestion :=
  let apiRequestBody :=
    {| rq_jobRole := jobRole c; rq_experienceLevel := experienceLevel c;
       count := questionCount |} in
  match fetchQuestions env apiRequestBody with
  | QuestionsThrown => mockQuestions (getRandomId env) c
  | QuestionsResponse status data =>
      if negb (ok status) then mockQuestions (getRandomId env) c
      else
        match data with
        | Some texts => formatQuestions (getRandomId env) texts
        | None => mockQuestions (getRandomId env) c
        end
  end.

(** The outcomes of the request after which the fallback is used. *)
Definition questionsFailed (o : QuestionsOutcome) : bool :=
  match o with
  | QuestionsThrown => true
  | QuestionsResponse status data =>
      negb (ok status) || bool_decide (data = None)
  end.

Definition startInterview (env : Environment)
    (options : option InterviewStartOptions) (s : State) : State :=
  let hrScheduledCheck := hrScheduledCheck options in
  let questionCount := questionCount options in
  match sessionConfig options s with
  | None =>
      {| config := config s;
         questions :=
           [ {| id := getRandomId env 0%nat;
                q_text := "No role/level selected. Tell me about yourself." |} ];
         currentQuestionIndex := currentQuestionIndex s;
         answers := [];
         result := None;
         isInterviewInProgress := true;
         isInterviewComplete := false;
         mediaStream := mediaStream s;
         isLoadingQuestions := false;
         mediaStreamError := mediaStreamError s;
         isInitializingMedia := false;
         isHrScheduledInterview := hrScheduledCheck |}
  | Some c =>
      let '(stream, streamError) :=
        match options ≫= o_mediaStream with
        | Some given => (Some given, mediaStreamError s)
        | None =>
            match getUserMedia env with
            | MediaGranted userStream => (Some userStream, None)
            | MediaDenied message => (mediaStream s, Some message)
            end
        end in
      {| config := Some c;
         questions := loadQuestions env c questionCount;
         currentQuestionIndex := 0%nat;
         answers := [];
         result := None;
         isInterviewInProgress := true;
         isInterviewComplete := false;
         mediaStream := stream;
         isLoadingQuestions := false;
         mediaStreamError := streamError;
         isInitializingMedia := false;
         isHrScheduledInterview := hrScheduledCheck |}
  end.

(** *** nextQuestion, previousQuestion *)

Definition set_currentQuestionIndex (i : nat) (s : State) : State :=
  {| config := config s; questions := questions s;
     currentQuestionIndex := i; answers := answers s;
     result := result s; isInterviewInProgress := isInterviewInProgress s;
     isInterviewComplete := isInterviewComplete s;
     mediaStream := mediaStream s;
     isLoadingQuestions := isLoadingQuestions s;
     mediaStreamError := mediaStreamError s;
     isInitializingMedia := isInitializingMedia s;
     isHrScheduledInterview := isHrScheduledInterview s |}.

Definition nextQuestion (s : State) : State :=
  if Z.of_nat (currentQuestionIndex s) <? Z.of_nat (length (questions s)) - 1
  then set_currentQuestionIndex (currentQuestionIndex s + 1)%nat s
  else s.

Definition previousQuestion (s : State) : State :=
  if Z.of_nat (currentQuestionIndex s) >? 0
  then set_currentQuestionIndex (currentQuestionIndex s - 1)%nat s
  else s.

(** *** analyzeAnswer *)

(** The JSON of an analysis as the session reads it. *)
Record AnalysisJson := {
  a_score : option Z;
  a_feedback : option string;
  a_strengths : option (list string);
  a_weaknesses : option (list string)
}.

Inductive AnalyzeOutcome :=
| AnalyzeThrown
| AnalyzeResponse (status : Z) (json : AnalysisJson).

(** The analysis that stands in when the gateway fails; [random] is the
    value of [Math.random()], a number that is at least 0 and less than
    1, for which the floor is an integer. *)
Definition mockAnalysis (random : JS.Number) : AnalysisJson :=
  {| a_score :=
       Some (default 0 (JS.Math_floor_number
                          (JS.times random (JS.literal 21))) + 50);
     a_feedback := Some "Error analyzing your answer with the AI service. This is fallback feedback.";
     a_strengths := Some [];
     a_weaknesses := Some ["AI analysis unavailable"] |}.

(** The analysis, and the requests that were sent to the gateway. *)
Definition analyzeAnswer
    (gateway : Gemini.AnalyzeRequest → AnalyzeOutcome) (random : JS.Number)
    (question answer : string) (c : InterviewConfig)
  : AnalysisJson * list Gemini.AnalyzeRequest :=
  let requestBody :=
    {| Gemini.question := question; Gemini.answer := answer;
       Gemini.jobRole := Some (JobRole_string (jobRole c));
       Gemini.experienceLevel :=
         Some (ExperienceLevel_string (experienceLevel c)) |} in
  (match gateway requestBody with
   | AnalyzeThrown => mockAnalysis random
   | AnalyzeResponse status analysisResult =>
       if negb (ok status) then mockAnalysis random else analysisResult
   end, [requestBody]).

(** *** saveAnswer *)

(** The argument of [saveAnswer]: an answer without its analysis. *)
Record AnswerData := {
  ad_questionId : string;
  ad_text : string;
  ad_audioUrl : option string;
  ad_questionText : option string
}.

Definition analyzedAnswer (answerData : AnswerData) (analysis : AnalysisJson)
  : InterviewAnswer :=
  {| questionId := ad_questionId answerData;
     text := ad_text answerData;
     audioUrl := ad_audioUrl answerData;
     questionText := ad_questionText answerData;
     score := a_score analysis;
     feedback := a_feedback analysis;
     strengths := Some (default [] (a_strengths analysis));
     weaknesses := Some (default [] (a_weaknesses analysis)) |}.

Definition unanalyzedAnswer (answerData : AnswerData) : InterviewAnswer :=
  {| questionId := ad_questionId answerData;
     text := ad_text answerData;
     audioUrl := ad_audioUrl answerData;
     questionText := ad_questionText answerData;
     score := Some 0;
     feedback := Some "Answer was too short for analysis.";
     strengths := Some [];
     weaknesses := Some [] |}.

(** [{ ...old, ...new }]: a field that the new answer does not have
    stays as it was. *)
Definition spread (old new : InterviewAnswer) : InterviewAnswer :=
  {| questionId := questionId new;
     text := text new;
     audioUrl := match audioUrl new with
                 | Some u => Some u
                 | None => audioUrl old
                 end;
     questionText := match questionText new with
                     | Some t => Some t
                     | None => questionText old
                     end;
     score := score new;
     feedback := feedback new;
     strengths := strengths new;
     weaknesses := weaknesses new |}.

(** The update of [setAnswers]. *)
Definition upsert (finalAnswerData : InterviewAnswer)
    (prevAnswers : list InterviewAnswer) : list InterviewAnswer :=
  match list_find (λ a, questionId a = questionId finalAnswerData)
                  prevAnswers with
  | Some (existingIndex, existing) =>
      <[existingIndex := spread existing finalAnswerData]> prevAnswers
  | None => prevAnswers ++ [finalAnswerData]
  end.

Definition set_answers (l : list InterviewAnswer) (s : State) : State :=
  {| config := config s; questions := questions s;
     currentQuestionIndex := currentQuestionIndex s; answers := l;
     result := result s; isInterviewInProgress := isInterviewInProgress s;
     isInterviewComplete := isInterviewComplete s;
     mediaStream := mediaStream s;
     isLoadingQuestions := isLoadingQuestions s;
     mediaStreamError := mediaStreamError s;
     isInitializingMedia := isInitializingMedia s;
     isHrScheduledInterview := isHrScheduledInterview s |}.

(** The state after [saveAnswer], and the requests that were sent to the
    gateway. [analyzeAnswer] catches every failure of the gateway, so
    the [catch] of [saveAnswer] has nothing to catch. *)
Definition saveAnswer
    (gateway : Gemini.AnalyzeRequest → AnalyzeOutcome) (random : JS.Number)
    (answerData : AnswerData) (s : State)
  : State * list Gemini.AnalyzeRequest :=
  match config s, questions s !! currentQuestionIndex s with
  | Some c, Some current =>
      let '(finalAnswerData, calls) :=
        if JS.truthy (ad_text answerData)
           && (JS.length (JS.trim (ad_text answerData)) >? 10)
        then
          let questionText := q_text current in
          let '(analysis, calls) :=
            analyzeAnswer gateway random questionText (ad_text answerData) c in
          (analyzedAnswer answerData analysis, calls)
        else (unanalyzedAnswer answerData, []) in
      (set_answers (upsert finalAnswerData (answers s)) s, calls)
  | _, _ => (s, [])
  end.

(** *** The sessions that the operations can produce *)

Inductive step : State → State → Prop :=
| step_setConfig c s : step s (setConfig c s)
| step_startInterview env options s : step s (startInterview env options s)
| step_nextQuestion s : step s (nextQuestion s)
| step_previousQuestion s : step s (previousQuestion s)
| step_saveAnswer gateway random answerData s :
    step s (fst (saveAnswer gateway random answerData s))
| step_finishInterview now s : step s (finishInterview now s).

Definition reachable (s : State) : Prop := rtc step initial s.

(** The gateway of a session whose backend asks the evaluator service.
    A score that is [null] is held as 0: it is not [undefined], and the
    session reads the score of an answer through [answer.score !==
    undefined] and [answer.score || 0] only. *)
Definition viaBackend (oracle : Gemini.AnalyzeRequest → Gemini.Oracle)
  : Gemini.AnalyzeRequest → AnalyzeOutcome :=
  λ req,
    let response := Gemini.analyze req (oracle req) in
    AnalyzeResponse (Gemini.code response)
      (match Gemini.body response with
       | Gemini.Analysis score feedback =>
           {| a_score := Some (default 0 score); a_feedback := Some feedback;
              a_strengths := None; a_weaknesses := None |}
       | Gemini.Message _ =>
           {| a_score := None; a_feedback := None;
              a_strengths := None; a_weaknesses := None |}
       end).

End Session.

(** ** The wording of the specification where the code departs from it,
    its reference definitions, and the data of the examples *)

Module Spec.

(** Auto-complete as a success without effect on a room that is already
    completed or cancelled. *)
Definition autoComplete_noop : Prop :=
  ∀ (idParam : string) (db : list Rooms.InterviewRoom) (r : Rooms.InterviewRoom),
    Rooms.resolve idParam db = Some (Some r) →
    Rooms.status r ≠ Rooms.scheduled →
    Rooms.code (fst (Rooms.autoComplete idParam db)) = 200
    ∧ snd (Rooms.autoComplete idParam db) = db.

(** Two calls of auto-complete in a row on a scheduled room: success
    both times. *)
Definition autoComplete_twice : Prop :=
  ∀ (idParam : string) (db : list Rooms.InterviewRoom) (r : Rooms.InterviewRoom),
    Rooms.resolve idParam db = Some (Some r) →
    Rooms.status r = Rooms.scheduled →
    Rooms.code (fst (Rooms.autoComplete idParam db)) = 200
    ∧ Rooms.code (fst (Rooms.autoComplete idParam
                         (snd (Rooms.autoComplete idParam db)))) = 200.

(** [evaluateWindow] with [endTime = scheduledFor + durationMinutes]. *)
Definition evaluateWindow (now scheduledFor durationMinutes : Z)
  : RoomPage.Phase :=
  let endTime := scheduledFor + durationMinutes * 60000 in
  if now >? endTime then RoomPage.ended
  else if scheduledFor - now >? 300000 then RoomPage.notYetOpen
  else RoomPage.joinable (Z.max 0 ((endTime - now) ÷ 1000)).

(** Every answer of trimmed length at most 10 is recorded with score 0
    and the fixed feedback, the gateway not being called. *)
Definition short_answer_recorded : Prop :=
  ∀ gateway random (answerData : Session.AnswerData) (s : Session.State),
    Session.reachable s →
    JS.length (JS.trim (Session.ad_text answerData)) ≤ 10 →
    snd (Session.saveAnswer gateway random answerData s) = []
    ∧ ∃ a, a ∈ Session.answers
                 (fst (Session.saveAnswer gateway random answerData s))
           ∧ Session.questionId a = Session.ad_questionId answerData
           ∧ Session.score a = Some 0
           ∧ Session.feedback a = Some "Answer was too short for analysis.".

(** Deduplication that keeps the first occurrence of each element: an
    element is kept when it was not seen before. *)
Fixpoint dedup_seen (seen l : list string) : list string :=
  match l with
  | [] => []
  | x :: l' =>
      if bool_decide (x ∈ seen) then dedup_seen seen l'
      else x :: dedup_seen (x :: seen) l'
  end.

Definition dedup (l : list string) : list string := dedup_seen [] l.

(** The sum of a list of scores. *)
Definition sum (l : list Z) : Z := foldr Z.add 0 l.

End Spec.

Module Examples.

Definition hrUser : Rooms.AuthUser :=
  {| Rooms.userId := "64b7f0c2a1d3e4f5a6b7c8d9"; Rooms.role := "hr" |}.

Definition room (st : Rooms.Status) : Rooms.InterviewRoom :=
  {| Rooms._id := "64b7f0c2a1d3e4f5a6b7c8e1";
     Rooms.title := "Frontend interview";
     Rooms.hr := "64b7f0c2a1d3e4f5a6b7c8d9";
     Rooms.candidate := "64b7f0c2a1d3e4f5a6b7c8da";
     Rooms.scheduledFor := 1700000000000;
     Rooms.duration := 60;
     Rooms.jobRole := "web-developer";
     Rooms.experienceLevel := "mid-level";
     Rooms.roomLink := "/interview-room/3f2b8c1e-7a4d-4e2b-9c1f-5d6e7f8a9b0c";
     Rooms.status := st;
     Rooms.notes := None |}.

Definition roomId : string := "64b7f0c2a1d3e4f5a6b7c8e1".
Definition roomToken : string := "3f2b8c1e-7a4d-4e2b-9c1f-5d6e7f8a9b0c".

Definition db (st : Rooms.Status) : Results.Db :=
  {| Results.rooms := [room st]; Results.results := [] |}.

(** Identifiers Q1, Q2, ... in the order in which they are drawn. *)
Definition ids (n : nat) : string := "Q" +:+ pretty (S n).

(** A session whose gateway cannot be reached. *)
Definition offline : Session.Environment :=
  {| Session.getUserMedia := Session.MediaGranted 1%nat;
     Session.fetchQuestions := λ _, Session.QuestionsThrown;
     Session.getRandomId := ids |}.

(** A session whose gateway returns three questions. *)
Definition online : Session.Environment :=
  {| Session.getUserMedia := Session.MediaGranted 1%nat;
     Session.fetchQuestions :=
       λ _, Session.QuestionsResponse 200
              (Some [ "What is a closure?";
                      "What is a promise?";
                      "What is hoisting?" ]);
     Session.getRandomId := ids |}.

(** The options of the room page, with a duration of half an hour. *)
Definition scheduledOptions : Session.InterviewStartOptions :=
  {| Session.o_mediaStream := Some 1%nat;
     Session.o_jobRole := Some Session.web_developer;
     Session.o_experienceLevel := Some Session.mid_level;
     Session.interviewId := Some "64b7f0c2a1d3e4f5a6b7c8e1";
     Session.durationInSeconds := Some 1800;
     Session.isHrScheduled := None |}.

Definition webMid : Session.InterviewConfig :=
  {| Session.jobRole := Session.web_developer;
     Session.experienceLevel := Session.mid_level |}.

(** The doubles that are nearest to 0.9, 0.7, 0.285 and 0.015, the
    double 0.5, and the double 4289142502257615 / 2 ^ 52, a little above
    20 / 21. *)
Definition d0_9 : JS.Number :=
  SpecFloat.S754_finite false 8106479329266893 (-53).
Definition d0_7 : JS.Number :=
  SpecFloat.S754_finite false 6305039478318694 (-53).
Definition d0_285 : JS.Number :=
  SpecFloat.S754_finite false 5134103575202365 (-54).
Definition d0_015 : JS.Number :=
  SpecFloat.S754_finite false 8646911284551352 (-59).
Definition half : JS.Number :=
  SpecFloat.S754_finite false 4503599627370496 (-53).
Definition nearOne : JS.Number :=
  SpecFloat.S754_finite false 8578285004515230 (-53).

(** An evaluator service that gives 0.9 to the answer on closures and
    0.7 to any other. *)
Definition oracle (req : Gemini.AnalyzeRequest) : Gemini.Oracle :=
  if bool_decide (Gemini.question req = "What is a closure?")
  then Gemini.OracleData (Some d0_9) (Some "Clear and complete.")
  else Gemini.OracleData (Some d0_7) (Some "Correct, a little short.").

(** An evaluator service that gives the same score to every answer. *)
Definition constant (score : JS.Number) (req : Gemini.AnalyzeRequest)
  : Gemini.Oracle :=
  Gemini.OracleData (Some score) (Some "Noted.").

Definition answerTo (qid text : string) : Session.AnswerData :=
  {| Session.ad_questionId := qid; Session.ad_text := text;
     Session.ad_audioUrl := None; Session.ad_questionText := None |}.

(** A session of three questions in which the first and the third are
    answered. *)
Definition started : Session.State :=
  Session.startInterview online (Some scheduledOptions) Session.initial.

Definition answered1 : Session.State :=
  fst (Session.saveAnswer (Session.viaBackend oracle) half
         (answerTo "Q1" "A function together with its scope.") started).

Definition atThird : Session.State :=
  Session.nextQuestion (Session.nextQuestion answered1).

Definition answered13 : Session.State :=
  fst (Session.saveAnswer (Session.viaBackend oracle) half
         (answerTo "Q3" "Declarations are moved to the top.") atThird).

(** A finished answer with its tags. *)
Definition tagged (qid : string) (total : Z) (good bad : list string)
  : Session.InterviewAnswer :=
  {| Session.questionId := qid;
     Session.text := "An answer of some length.";
     Session.audioUrl := None;
     Session.score := Some total;
     Session.feedback := Some "Reviewed.";
     Session.strengths := Some good;
     Session.weaknesses := Some bad;
     Session.questionText := None |}.

(** A session whose answers carry tags, some of them twice and one of
    them empty. *)
Definition withTags : Session.State :=
  Session.set_answers
    [ tagged "Q1" 72 ["clear"; ""; "concise"] ["pace"];
      tagged "Q2" 64 ["clear"; "examples"; "depth"; "structure"; "tone"]
             ["pace"; "filler words"] ]
    started.

(** A session that was started without a role and a level. *)
Definition unconfigured : Session.State :=
  Session.startInterview offline None Session.initial.

End Examples.

(** ** Creating and reading a room *)

Module Interviews.

(** The fields of a user that the routes read. *)
Record User := { u_id : Rooms.ObjectId; email : string; role : string }.

(** The body of POST /api/interviews; a field may be missing. *)
Record CreateBody := {
  title : option string;
  candidateEmail : option string;
  scheduledFor : option Z;
  duration : option Z;
  jobRole : option string;
  experienceLevel : option string
}.

(** The [enum] of [jobRole] and of [experienceLevel] in the schema. *)
Definition jobRoles : list string :=
  ["web-developer"; "app-developer"; "ml-ai"; "ux-designer"; "data-scientist"].

Definition experienceLevels : list string :=
  ["fresher"; "junior"; "mid-level"; "senior"].

(** [User.findOne({ email: candidateEmail, role: 'candidate' })]. *)
Definition findCandidate (candidateEmail : option string) (users : list User)
  : option User :=
  e ← candidateEmail;
  snd <$> list_find (λ u, email u = e ∧ role u = "candidate") users.

(** [new InterviewRoom({...})] with the defaults of the route, followed by
    the validation of [save]: the title is present and not empty, the
    date is present, the role and the level are in their [enum]. *)
Definition validate (oid : Rooms.ObjectId) (uuid : string)
    (user : Rooms.AuthUser) (candidate : User) (b : CreateBody)
  : option Rooms.InterviewRoom :=
  t ← title b;
  at_ ← scheduledFor b;
  let d := default 60 (duration b) in
  let r := default "web-developer" (jobRole b) in
  let l := default "mid-level" (experienceLevel b) in
  if JS.truthy t && bool_decide (r ∈ jobRoles)
     && bool_decide (l ∈ experienceLevels)
  then Some {| Rooms._id := oid; Rooms.title := t;
               Rooms.hr := Rooms.userId user;
               Rooms.candidate := u_id candidate;
               Rooms.scheduledFor := at_; Rooms.duration := d;
               Rooms.jobRole := r; Rooms.experienceLevel := l;
               Rooms.roomLink := Rooms.room_link_of uuid;
               Rooms.status := Rooms.scheduled; Rooms.notes := None |}
  else None.

(** *** POST /api/interviews. [oid] is the identifier that the new room
    receives and [uuid] the value of [uuidv4()]. *)
Definition create (oid : Rooms.ObjectId) (uuid : string)
    (users : list User) (a : Rooms.Authorization) (b : CreateBody)
  : Rooms.Handler :=
  Rooms.authenticateToken a (λ user, Rooms.requireHR user (λ db,
    match findCandidate (candidateEmail b) users with
    | None => Rooms.reply 404 "Candidate not found" db
    | Some candidate =>
        match validate oid uuid user candidate b with
        | None => Rooms.reply 500 "Error creating interview" db
        | Some interview =>
            ({| Rooms.code := 201; Rooms.body := Rooms.Document interview |},
             db ++ [interview])
        end
    end)).

(** *** GET /api/interviews/room/:roomId *)

(** The user documents that [populate] puts in the place of the two
    references of the room are left out of the response. *)
Definition getByRoom (roomId : string) (db : list Rooms.InterviewRoom)
  : Rooms.Response :=
  match Rooms.findOne_roomLink (Rooms.room_link_of roomId) db with
  | None => {| Rooms.code := 404;
               Rooms.body := Rooms.Message "Interview not found" |}
  | Some interview =>
      {| Rooms.code := 200; Rooms.body := Rooms.Document interview |}
  end.

(** What a lifecycle transition leaves alone in a room: everything but
    the status and the notes. *)
Definition same_room (r r' : Rooms.InterviewRoom) : Prop :=
  Rooms._id r' = Rooms._id r
  ∧ Rooms.title r' = Rooms.title r
  ∧ Rooms.hr r' = Rooms.hr r
  ∧ Rooms.candidate r' = Rooms.candidate r
  ∧ Rooms.scheduledFor r' = Rooms.scheduledFor r
  ∧ Rooms.duration r' = Rooms.duration r
  ∧ Rooms.jobRole r' = Rooms.jobRole r
  ∧ Rooms.experienceLevel r' = Rooms.experienceLevel r
  ∧ Rooms.roomLink r' = Rooms.roomLink r.

End Interviews.

(** ** The question gateway of the backend *)

Module Questions.

(** The body of POST /gemini/questions. *)
Record Body := {
  jobRole : option string;
  experienceLevel : option string;
  count : option Z
}.

(** The request to the evaluator service. *)
Record OracleRequest := { role : string; num_questions : Z }.

Record OracleQuestion := { oq_id : Z; oq_text : string }.

(** What the call of the evaluator service comes to; the payload is
    [None] when it is missing or not an array. *)
Inductive Oracle :=
| OracleData (data : option (list OracleQuestion))
| OracleError (status : Z) (detail : option string)
| OracleDown.

Inductive Reply :=
| Questions (questions : list string)
| Message (message : string).

Record Response := { code : Z; body : Reply }.

(** *** POST /gemini/questions *)
Definition questions (b : Body) (oracle : OracleRequest → Oracle) : Response :=
  if negb (JS.truthy_opt (jobRole b))
  then {| code := 400; body := Message "Job role is required" |}
  else
    match oracle {| role := default "" (jobRole b);
                    num_questions := default 4 (count b) |} with
    | OracleData (Some data) =>
        {| code := 200; body := Questions (oq_text <$> data) |}
    | OracleData None =>
        {| code := 500;
           body := Message "Error fetching questions: Unexpected response from evaluator service" |}
    | OracleError status detail =>
        {| code := if status =? 0 then 500 else status;
           body := Message
                     (match detail with
                      | Some d => if JS.truthy d then d
                                  else "Error fetching questions from evaluator service"
                      | None => "Error fetching questions from evaluator service"
                      end) |}
    | OracleDown =>
        {| code := 500;
           body := Message "Error fetching questions from evaluator service" |}
    end.

(** The gateway of a session whose backend asks the evaluator service. *)
Definition viaBackend (oracle : OracleRequest → Oracle)
  : Session.QuestionsRequest → Session.QuestionsOutcome :=
  λ req,
    let response :=
      questions
        {| jobRole := Some (Session.JobRole_string (Session.rq_jobRole req));
           experienceLevel :=
             Some (Session.ExperienceLevel_string
                     (Session.rq_experienceLevel req));
           count := Some (Session.count req) |} oracle in
    Session.QuestionsResponse (code response)
      (match body response with
       | Questions texts => Some texts
       | Message _ => None
       end).

End Questions.

(** ** The room page: the countdown and the start of the session *)

Module Page.

(** The page once the countdown is over. *)
Definition expire (p : RoomPage.PageState) : RoomPage.PageState :=
  {| RoomPage.error := Some "Interview time has expired";
     RoomPage.canStart := false;
     RoomPage.roomExpired := true;
     RoomPage.remainingTime := Some 0;
     RoomPage.timerStarted := false;
     RoomPage.autoCompleteRequested := RoomPage.autoCompleteRequested p |}.

(** One firing of the interval: nothing fires once the interval is
    cleared. The request that the callback sends when the page holds a
    stream does not come back into the state. *)
Definition tick (p : RoomPage.PageState) : RoomPage.PageState :=
  if RoomPage.timerStarted p then
    match RoomPage.remainingTime p with
    | None => expire p
    | Some prev =>
        if prev <=? 1 then expire p
        else
          {| RoomPage.error := RoomPage.error p;
             RoomPage.canStart := RoomPage.canStart p;
             RoomPage.roomExpired := RoomPage.roomExpired p;
             RoomPage.remainingTime := Some (prev - 1);
             RoomPage.timerStarted := true;
             RoomPage.autoCompleteRequested :=
               RoomPage.autoCompleteRequested p |}
    end
  else p.

(** [n.toString().padStart(2, '0')]. *)
Definition padStart2 (s : string) : string :=
  match String.length s with
  | 0%nat => "00" +:+ s
  | 1%nat => "0" +:+ s
  | _ => s
  end.

(** [formatRemainingTime]; [%] is the remainder of JavaScript. *)
Definition formatRemainingTime (seconds : Z) : string :=
  let hours := JS.Math_floor (inject_Z seconds / 3600) in
  let minutes := JS.Math_floor (inject_Z (Z.rem seconds 3600) / 60) in
  let secs := Z.rem seconds 60 in
  padStart2 (pretty hours) +:+ ":" +:+ padStart2 (pretty minutes)
  +:+ ":" +:+ padStart2 (pretty secs).

(** [toLowerCase] on the code units below 256. *)
Definition toLowerChar (c : ascii) : ascii :=
  let n := N_of_ascii c in
  if ((65 <=? n) && (n <=? 90)
      || (192 <=? n) && (n <=? 222) && negb (n =? 215))%N
  then ascii_of_N (n + 32) else c.

Fixpoint toLowerCase (s : string) : string :=
  match s with
  | EmptyString => EmptyString
  | String c s' => String (toLowerChar c) (toLowerCase s')
  end.

(** The room as the page holds it. *)
Record Room := {
  data : RoomPage.Interview;
  candidateEmail : string;
  jobRole : string;
  experienceLevel : string
}.

(** The role and the level of a room are those of the schema; another
    string has no counterpart in the union types of the session. *)
Definition parseJobRole (s : string) : option Session.JobRole :=
  if bool_decide (s = "web-developer") then Some Session.web_developer
  else if bool_decide (s = "app-developer") then Some Session.app_developer
  else if bool_decide (s = "ml-ai") then Some Session.ml_ai
  else if bool_decide (s = "ux-designer") then Some Session.ux_designer
  else if bool_decide (s = "data-scientist") then Some Session.data_scientist
  else None.

Definition parseExperienceLevel (s : string) : option Session.ExperienceLevel :=
  if bool_decide (s = "fresher") then Some Session.fresher
  else if bool_decide (s = "junior") then Some Session.junior
  else if bool_decide (s = "mid-level") then Some Session.mid_level
  else if bool_decide (s = "senior") then Some Session.senior
  else None.

(** The [disabled] attribute of the start button. *)
Definition startDisabled (p : RoomPage.PageState)
    (stream : option Session.MediaStream) : bool :=
  negb (RoomPage.canStart p) || negb (bool_decide (is_Some stream))
  || RoomPage.roomExpired p.

Inductive StartOutcome :=
| Ignored
| Refused (error : string)
| Started (options : Session.InterviewStartOptions).

(** [handleStart]: what the click on the start button comes to. *)
Definition handleStart (interview : option Room) (p : RoomPage.PageState)
    (name email : string) (stream : option Session.MediaStream)
  : StartOutcome :=
  match interview with
  | None => Ignored
  | Some interview =>
      if negb (RoomPage.canStart p) || RoomPage.roomExpired p then Ignored
      else if negb (JS.truthy (JS.trim name))
              || negb (JS.truthy (JS.trim email))
      then Refused "Please fill in all fields"
      else if negb (bool_decide (toLowerCase email
                                 = toLowerCase (candidateEmail interview)))
      then Refused "Email does not match the scheduled interview"
      else
        match stream with
        | Some stream =>
            Started
              {| Session.o_mediaStream := Some stream;
                 Session.o_jobRole := parseJobRole (jobRole interview);
                 Session.o_experienceLevel :=
                   parseExperienceLevel (experienceLevel interview);
                 Session.interviewId := Some (RoomPage._id (data interview));
                 Session.durationInSeconds := None;
                 Session.isHrScheduled := None |}
        | None =>
            Refused "Camera and microphone are required for the interview"
        end
  end.

End Page.

(** ** What a finished session sends to the backend *)

Module Upload.

(** What the browser holds when the session is finished. *)
Record Browser := {
  pathname : string;
  storedRoomId : option string;
  sessionInterviewId : option string
}.

(** [urlPath.split('/interview-room/')[1]], for a path that includes the
    separator. *)
Definition afterRoomPrefix (urlPath : string) : option string :=
  let sep := "/interview-room/" in
  i ← String.index 0 sep urlPath;
  let rest := String.substring (i + String.length sep)
                (String.length urlPath) urlPath in
  Some (match String.index 0 sep rest with
        | Some j => String.substring 0 j rest
        | None => rest
        end).

(** The room identifier of the session: from the path, else from
    [localStorage], else from [sessionStorage]. *)
Definition interviewRoomId (b : Browser) : option string :=
  match afterRoomPrefix (pathname b) with
  | Some fromUrl => Some fromUrl
  | None =>
      if JS.truthy_opt (storedRoomId b) then storedRoomId b
      else if JS.truthy_opt (sessionInterviewId b) then sessionInterviewId b
      else None
  end.

(** An entry of [backendPayload.answers]. *)
Definition payloadAnswer (answer : Session.InterviewAnswer)
  : Results.AnswerEntry :=
  {| Results.questionId := Session.questionId answer;
     Results.questionText := default "" (Session.questionText answer);
     Results.answerText := Session.text answer;
     Results.score := default 0 (Session.score answer);
     Results.feedback := default "" (Session.feedback answer);
     Results.strengths := default [] (Session.strengths answer);
     Results.weaknesses := default [] (Session.weaknesses answer) |}.

(** [backendPayload]. *)
Definition backendPayload (interviewRoomId : option string)
    (c : Session.InterviewConfig) (r : Session.InterviewResult)
  : Results.Payload :=
  {| Results.p_interviewId :=
       if JS.truthy_opt interviewRoomId then interviewRoomId else None;
     Results.p_jobRole := Some (Session.JobRole_string (Session.jobRole c));
     Results.p_experienceLevel :=
       Some (Session.ExperienceLevel_string (Session.experienceLevel c));
     Results.p_totalScore := Some (Session.totalScore r);
     Results.p_feedback := Some (Session.r_feedback r);
     Results.p_strengths := Session.r_strengths r;
     Results.p_improvements := Session.improvements r;
     Results.p_answers := payloadAnswer <$> Session.r_answers r |}.

(** The rooms after the two requests by which [finishInterview] marks the
    room as completed: PUT /room/:id/complete and, when its response is
    not [ok], PUT /auto-complete/:id. *)
Definition markCompleted (interviewRoomId : string)
    (db : list Rooms.InterviewRoom) : list Rooms.InterviewRoom :=
  let completeResponse := Rooms.completeByRoom interviewRoomId db in
  if Session.ok (Rooms.code (fst completeResponse))
  then snd completeResponse
  else snd (Rooms.autoComplete interviewRoomId (snd completeResponse)).

End Upload.

(** ** More data for the examples *)

Module Cases.

Definition candidate : Interviews.User :=
  {| Interviews.u_id := "64b7f0c2a1d3e4f5a6b7c8da";
     Interviews.email := "ada@example.org";
     Interviews.role := "candidate" |}.

Definition body : Interviews.CreateBody :=
  {| Interviews.title := Some "Backend interview";
     Interviews.candidateEmail := Some "ada@example.org";
     Interviews.scheduledFor := Some 1700100000000;
     Interviews.duration := None;
     Interviews.jobRole := None;
     Interviews.experienceLevel := Some "senior" |}.

Definition newId : Rooms.ObjectId := "64b7f0c2a1d3e4f5a6b7c8e2".
Definition newToken : string := "9a1b2c3d-0000-4000-8000-123456789abc".

(** The room page of the example room, five minutes after its start. *)
Definition pageRoom : Page.Room :=
  {| Page.data :=
       {| RoomPage._id := "64b7f0c2a1d3e4f5a6b7c8e1";
          RoomPage.scheduledFor := 1700000000000;
          RoomPage.duration := 60;
          RoomPage.status := Rooms.scheduled |};
     Page.candidateEmail := "ada@example.org";
     Page.jobRole := "web-developer";
     Page.experienceLevel := "mid-level" |}.

Definition page : RoomPage.PageState :=
  RoomPage.fetchInterview 1700000300000 (Page.data pageRoom).

(** An evaluator service that returns two questions, whatever the number
    it is asked for. *)
Definition twoQuestions (req : Questions.OracleRequest) : Questions.Oracle :=
  Questions.OracleData
    (Some [ {| Questions.oq_id := 1; Questions.oq_text := "What is a closure?" |};
            {| Questions.oq_id := 2; Questions.oq_text := "What is a promise?" |} ]).

Definition viaBackendEnv (oracle : Questions.OracleRequest → Questions.Oracle)
  : Session.Environment :=
  {| Session.getUserMedia := Session.MediaGranted 1%nat;
     Session.fetchQuestions := Questions.viaBackend oracle;
     Session.getRandomId := Examples.ids |}.

(** A result payload without feedback. *)
Definition noFeedback : Results.Payload :=
  {| Results.p_interviewId := Some Examples.roomToken;
     Results.p_jobRole := Some "web-developer";
     Results.p_experienceLevel := Some "mid-level";
     Results.p_totalScore := Some 80;
     Results.p_feedback := None;
     Results.p_strengths := [];
     Results.p_improvements := [];
     Results.p_answers := [] |}.

Definition candidateUser : Rooms.AuthUser :=
  {| Rooms.userId := "64b7f0c2a1d3e4f5a6b7c8da"; Rooms.role := "candidate" |}.

(** A session whose gateway answers with an empty array. *)
Definition silent : Session.Environment :=
  {| Session.getUserMedia := Session.MediaGranted 1%nat;
     Session.fetchQuestions := λ _, Session.QuestionsResponse 200 (Some []);
     Session.getRandomId := Examples.ids |}.

End Cases.

(** * Properties *)

(** ** Queries and [save] *)

Lemma find_first_Some p db r :
  Rooms.find_first p db = Some r → r ∈ db ∧ p r = true.
Proof.
  induction db as [|x db IH]; simpl; [done|].
  destruct (p x) eqn:Hx.
  - intros [= ->]. split; [left | done].
  - intros H. destruct (IH H) as [Hin Hp]. split; [by right | done].
Qed.

Lemma find_first_None p db :
  Rooms.find_first p db = None → ∀ r, r ∈ db → p r = false.
Proof.
  induction db as [|x db IH]; simpl.
  - intros _ r Hr. inversion Hr.
  - destruct (p x) eqn:Hx; [done|].
    intros H r Hr. inversion Hr; subst; [done | by apply IH].
Qed.

Lemma save_lookup doc db i :
  Rooms.save doc db !! i
  = (λ r, if bool_decide (Rooms._id r = Rooms._id doc) then doc else r)
      <$> db !! i.
Proof. unfold Rooms.save. by rewrite list_lookup_fmap. Qed.

(** A document that a filter selected is found again after it was saved,
    as long as the filter still selects it. *)
Lemma find_first_save p db r doc :
  Rooms.find_first p db = Some r →
  Rooms._id doc = Rooms._id r →
  p doc = true →
  Rooms.find_first p (Rooms.save doc db) = Some doc.
Proof.
  intros Hfind Hid Hp. induction db as [|x db IH]; simpl in *; [done|].
  destruct (p x) eqn:Hx.
  - injection Hfind as ->. rewrite Hid, bool_decide_eq_true_2 by done.
    by rewrite Hp.
  - case_bool_decide.
    + by rewrite Hp.
    + rewrite Hx. by apply IH.
Qed.

(** A filter on the identifier alone finds nothing after [save] when it
    found nothing before. *)
Lemma find_first_save_None oid db doc :
  Rooms.find_first (λ r, bool_decide (Rooms._id r = oid)) db = None →
  (∃ r, r ∈ db ∧ Rooms._id r = Rooms._id doc) →
  Rooms.find_first (λ r, bool_decide (Rooms._id r = oid)) (Rooms.save doc db)
  = None.
Proof.
  intros Hnone [r [Hr Hid]].
  assert (Rooms._id doc ≠ oid) as Hne.
  { intros Heq. pose proof (find_first_None _ _ Hnone r Hr) as Hf.
    simpl in Hf. rewrite bool_decide_eq_false in Hf. congruence. }
  clear r Hr Hid. induction db as [|x db IH]; simpl in *; [done|].
  destruct (bool_decide (Rooms._id x = oid)) eqn:Hx; [done|].
  destruct (bool_decide (Rooms._id x = Rooms._id doc)).
  - rewrite bool_decide_eq_false_2 by done. by apply IH.
  - rewrite Hx. by apply IH.
Qed.

(** How PUT /auto-complete/:id resolves its parameter: by identifier, or
    else by room link. *)
Lemma resolve_cases idParam db r :
  Rooms.resolve idParam db = Some (Some r) →
  (∃ oid, Rooms.castObjectId idParam = Some oid
          ∧ Rooms.find_first (λ x, bool_decide (Rooms._id x = oid)) db = Some r)
  ∨ ((Rooms.castObjectId idParam = None
      ∨ ∃ oid, Rooms.castObjectId idParam = Some oid
               ∧ Rooms.find_first (λ x, bool_decide (Rooms._id x = oid)) db
                 = None)
     ∧ Rooms.findOne_roomLink (Rooms.room_link_of idParam) db = Some r).
Proof.
  unfold Rooms.resolve, Rooms.ObjectId_isValid, Rooms.findById.
  destruct (Rooms.castObjectId idParam) as [oid|] eqn:Hcast; simpl.
  - simpl.
    destruct (Rooms.find_first _ db) as [x|] eqn:Hid.
    + intros [= ->]. left. eauto.
    + intros [= Hlink]. right. split; [right; eauto | done].
  - simpl.
    intros [= Hlink]. right. split; [by left | done].
Qed.

(** A room that its identifier finds, or that its token finds when the
    parameter finds none as an identifier, is the room that is resolved. *)
Lemma resolve_by_id_or_token idParam db r :
  Rooms.findById idParam db = Some (Some r)
  ∨ ((Rooms.findById idParam db = None ∨ Rooms.findById idParam db = Some None)
     ∧ Rooms.findOne_roomLink (Rooms.room_link_of idParam) db = Some r) →
  Rooms.resolve idParam db = Some (Some r).
Proof.
  unfold Rooms.resolve, Rooms.ObjectId_isValid, Rooms.findById.
  destruct (Rooms.castObjectId idParam) as [oid|]; simpl.
  - intros [[= ->] | [[[=] | [= ->]] ->]]; done.
  - intros [[=] | [_ ->]]. done.
Qed.

Lemma resolve_elem_of idParam db r :
  Rooms.resolve idParam db = Some (Some r) → r ∈ db.
Proof.
  intros H. destruct (resolve_cases _ _ _ H) as [(oid & _ & Hf) | [_ Hf]];
    by apply find_first_Some in Hf as [? _].
Qed.

(** The parameter that resolved to a room resolves to the saved room once
    its status has been written. *)
Lemma resolve_save idParam db r st :
  Rooms.resolve idParam db = Some (Some r) →
  Rooms.resolve idParam (Rooms.save (Rooms.set_status st r) db)
  = Some (Some (Rooms.set_status st r)).
Proof.
  intros H. pose proof (resolve_elem_of _ _ _ H) as Hin.
  destruct (resolve_cases _ _ _ H) as [(oid & Hcast & Hf) | [Hid Hf]];
    unfold Rooms.resolve, Rooms.ObjectId_isValid, Rooms.findById.
  - rewrite Hcast. simpl. simpl.
    rewrite (find_first_save _ _ r); [done | done | done |].
    apply find_first_Some in Hf as [_ Hf]. done.
  - assert (Rooms.findOne_roomLink (Rooms.room_link_of idParam)
              (Rooms.save (Rooms.set_status st r) db)
            = Some (Rooms.set_status st r)) as Hlink.
    { unfold Rooms.findOne_roomLink in *.
      apply (find_first_save _ _ r); [done | done |].
      apply find_first_Some in Hf as [_ Hf]. done. }
    destruct Hid as [Hcast | (oid & Hcast & Hnone)]; rewrite Hcast; simpl.
    + simpl.
      by rewrite Hlink.
    + simpl.
      rewrite find_first_save_None; [by rewrite Hlink | done |].
      exists r. split; done.
Qed.

(** ** Terminal rooms *)

Lemma stays_terminal_refl db : Api.stays_terminal db db.
Proof. intros i r Hi Ht. eauto. Qed.

Lemma stays_terminal_trans db1 db2 db3 :
  Api.stays_terminal db1 db2 → Api.stays_terminal db2 db3 → Api.stays_terminal db1 db3.
Proof.
  intros H12 H23 i r Hi Ht.
  destruct (H12 i r Hi Ht) as (r2 & Hi2 & Hid2 & Ht2).
  destruct (H23 i r2 Hi2 Ht2) as (r3 & Hi3 & Hid3 & Ht3).
  exists r3. split; [done|]. split; [congruence | done].
Qed.

Lemma stays_terminal_save doc db :
  Rooms.status doc ≠ Rooms.scheduled → Api.stays_terminal db (Rooms.save doc db).
Proof.
  intros Hdoc i r Hi Ht. rewrite save_lookup, Hi. simpl.
  case_bool_decide; eauto.
Qed.

Create HintDb rooms.

#[local] Hint Resolve stays_terminal_refl stays_terminal_save : rooms.

Lemma stays_terminal_cancel a id db :
  Api.stays_terminal db (snd (Rooms.cancel a id db)).
Proof.
  unfold Rooms.cancel, Rooms.authenticateToken, Rooms.requireHR, Rooms.reply.
  destruct a as [| |user]; simpl; auto with rooms.
  case_bool_decide; simpl; auto with rooms.
  destruct (Rooms.findOne_id_hr _ _ _) as [[r|]|]; simpl; auto with rooms.
  case_bool_decide; simpl; auto with rooms.
Qed.

Lemma stays_terminal_complete a id db :
  Api.stays_terminal db (snd (Rooms.complete a id db)).
Proof.
  unfold Rooms.complete, Rooms.authenticateToken, Rooms.reply.
  destruct a as [| |user]; simpl; auto with rooms.
  destruct (Rooms.findOne_id_party _ _ _) as [[r|]|]; simpl; auto with rooms.
  case_bool_decide; simpl; auto with rooms.
Qed.

Lemma stays_terminal_autoCompleteTimed now id db :
  Api.stays_terminal db (snd (Rooms.autoCompleteTimed now id db)).
Proof.
  unfold Rooms.autoCompleteTimed, Rooms.reply.
  destruct (Rooms.findById _ _) as [[r|]|]; simpl; auto with rooms.
  repeat (case_bool_decide; simpl; auto with rooms).
Qed.

Lemma stays_terminal_autoComplete idParam db :
  Api.stays_terminal db (snd (Rooms.autoComplete idParam db)).
Proof.
  unfold Rooms.autoComplete, Rooms.reply.
  destruct (Rooms.resolve _ _) as [[r|]|]; simpl; auto with rooms.
  case_bool_decide; simpl; auto with rooms.
Qed.

Lemma stays_terminal_completeByRoom roomId db :
  Api.stays_terminal db (snd (Rooms.completeByRoom roomId db)).
Proof.
  unfold Rooms.completeByRoom, Rooms.reply.
  destruct (Rooms.findOne_roomLink _ _) as [r|]; simpl.
  - case_bool_decide; simpl; auto with rooms.
  - destruct (Rooms.findById _ _) as [[r|]|]; simpl; auto with rooms.
    case_bool_decide; simpl; auto with rooms.
Qed.

Lemma add_note_status n r :
  Rooms.status (Results.add_note n r) = Rooms.status r.
Proof.
  unfold Results.add_note. destruct (Rooms.notes r); [|done].
  by destruct (0 <? _).
Qed.

Lemma stays_terminal_store_result rid now user p doc db :
  (∀ d, doc = Some d → Rooms.status d ≠ Rooms.scheduled) →
  Api.stays_terminal (Results.rooms db)
    (Results.rooms (snd (Results.store_result rid now user p doc db))).
Proof.
  intros Hdoc. unfold Results.store_result.
  destruct (Results.validate _ _ _ _ _); simpl; auto with rooms.
  destruct doc as [d|]; simpl; auto with rooms.
  apply stays_terminal_save. rewrite add_note_status. by apply Hdoc.
Qed.

Lemma stays_terminal_create rid now a p db :
  Api.stays_terminal (Results.rooms db)
    (Results.rooms (snd (Results.create rid now a p db))).
Proof.
  unfold Results.create.
  destruct a as [| |user]; simpl; auto with rooms.
  destruct (JS.truthy_opt _).
  - destruct (Rooms.findOne_roomLink _ _) as [d|]; simpl; auto with rooms.
    case_bool_decide.
    + eapply stays_terminal_trans;
        [| apply stays_terminal_store_result; by intros ? [= <-]].
      simpl. by apply stays_terminal_save.
    + apply stays_terminal_store_result. by intros ? [= <-].
  - apply stays_terminal_store_result. done.
Qed.

Lemma stays_terminal_request now req db :
  Api.stays_terminal (Results.rooms db) (Api.rooms_after now req db).
Proof.
  destruct req; simpl.
  - apply stays_terminal_cancel.
  - apply stays_terminal_complete.
  - apply stays_terminal_autoCompleteTimed.
  - apply stays_terminal_autoComplete.
  - apply stays_terminal_completeByRoom.
  - apply stays_terminal_create.
Qed.

(** ** The room state machine *)

(** C1, as amended. PUT /auto-complete/:id on a room that is already
    completed or cancelled is refused with status 400 and the message
    "Interview is already <status>", the collection being left as it is;
    on a scheduled room the first call succeeds and a second call in a row
    is refused in that way. *)
Theorem autoComplete_rejects_terminal
    (idParam : string) (db : list Rooms.InterviewRoom) (r : Rooms.InterviewRoom)
    (Hres : Rooms.resolve idParam db = Some (Some r)) :
  (Rooms.status r ≠ Rooms.scheduled →
   Rooms.autoComplete idParam db
   = ({| Rooms.code := 400;
         Rooms.body := Rooms.Message
                         ("Interview is already "
                          +:+ Rooms.status_string (Rooms.status r)) |}, db))
  ∧ (Rooms.status r = Rooms.scheduled →
     let first := Rooms.autoComplete idParam db in
     Rooms.code (fst first) = 200
     ∧ Rooms.autoComplete idParam (snd first)
       = ({| Rooms.code := 400;
             Rooms.body := Rooms.Message "Interview is already completed" |},
          snd first)).
Proof.
  split.
  - intros Ht. unfold Rooms.autoComplete. rewrite Hres.
    by rewrite bool_decide_eq_true_2.
  - intros Hs first.
    assert (first
            = ({| Rooms.code := 200;
                  Rooms.body := Rooms.MessageDocument
                                  "Interview automatically completed"
                                  (Rooms.set_status Rooms.completed r) |},
               Rooms.save (Rooms.set_status Rooms.completed r) db)) as ->.
    { unfold first, Rooms.autoComplete. rewrite Hres.
      by rewrite bool_decide_eq_false_2 by (intros Hne; by apply Hne). }
    simpl. split; [done|].
    unfold Rooms.autoComplete.
    by rewrite (resolve_save _ _ _ Rooms.completed Hres).
Qed.

Lemma autoComplete_rejects_terminal_witness :
  Rooms.resolve Examples.roomToken [Examples.room Rooms.cancelled]
  = Some (Some (Examples.room Rooms.cancelled))
  ∧ Rooms.autoComplete Examples.roomToken [Examples.room Rooms.cancelled]
    = ({| Rooms.code := 400;
          Rooms.body := Rooms.Message "Interview is already cancelled" |},
       [Examples.room Rooms.cancelled]).
Proof.
  split; [reflexivity|].
  apply (autoComplete_rejects_terminal Examples.roomToken
           [Examples.room Rooms.cancelled] (Examples.room Rooms.cancelled));
    [reflexivity | discriminate].
Defined.

(** C1, as the specification words it, fails: on a completed room that
    its token resolves, auto-complete answers 400, and the second of two
    calls in a row on a scheduled room answers 400 as well. *)
Lemma autoComplete_noop_counterexample :
  Rooms.resolve Examples.roomToken [Examples.room Rooms.completed]
  = Some (Some (Examples.room Rooms.completed))
  ∧ Rooms.code (fst (Rooms.autoComplete Examples.roomToken
                       [Examples.room Rooms.completed])) = 400
  ∧ Rooms.code (fst (Rooms.autoComplete Examples.roomToken
                       (snd (Rooms.autoComplete Examples.roomToken
                               [Examples.room Rooms.scheduled])))) = 400
  ∧ ¬ Spec.autoComplete_noop
  ∧ ¬ Spec.autoComplete_twice.
Proof.
  split; [reflexivity|]. split; [reflexivity|]. split; [reflexivity|]. split.
  - intros H.
    destruct (H Examples.roomToken [Examples.room Rooms.completed]
                (Examples.room Rooms.completed)) as [Hcode _];
      [reflexivity | discriminate | discriminate Hcode].
  - intros H.
    destruct (H Examples.roomToken [Examples.room Rooms.scheduled]
                (Examples.room Rooms.scheduled)) as [_ Hcode];
      [reflexivity | reflexivity | discriminate Hcode].
Qed.

(** C2. A room that is completed or cancelled: cancel and complete, when
    they find it, answer 400 and leave the collection as it is; whoever
    calls them, they leave the collection as it is when every room with
    the requested identifier is completed or cancelled; and after any
    request of the room routes (cancel, complete, the two auto-complete
    routes, complete by room, submission of a result) the room is still at
    its place and is not scheduled. *)
Theorem terminal_rooms_stay_terminal
    (db : Results.Db) (i : nat) (r : Rooms.InterviewRoom)
    (Hr : Results.rooms db !! i = Some r)
    (Ht : Rooms.status r ≠ Rooms.scheduled) :
  (∀ user id,
     Rooms.role user = "hr" →
     Rooms.findOne_id_hr id (Rooms.userId user) (Results.rooms db)
     = Some (Some r) →
     Rooms.cancel (Rooms.Token user) id (Results.rooms db)
     = ({| Rooms.code := 400;
           Rooms.body := Rooms.Message "Interview cannot be cancelled" |},
        Results.rooms db))
  ∧ (∀ user id,
       Rooms.findOne_id_party id (Rooms.userId user) (Results.rooms db)
       = Some (Some r) →
       Rooms.complete (Rooms.Token user) id (Results.rooms db)
       = ({| Rooms.code := 400;
             Rooms.body := Rooms.Message "Interview cannot be completed" |},
          Results.rooms db))
  ∧ (∀ a id,
       (∀ x, x ∈ Results.rooms db →
             Rooms.castObjectId id = Some (Rooms._id x) →
             Rooms.status x ≠ Rooms.scheduled) →
       (Rooms.code (fst (Rooms.cancel a id (Results.rooms db))) ≠ 200
        ∧ snd (Rooms.cancel a id (Results.rooms db)) = Results.rooms db)
       ∧ (Rooms.code (fst (Rooms.complete a id (Results.rooms db))) ≠ 200
          ∧ snd (Rooms.complete a id (Results.rooms db)) = Results.rooms db))
  ∧ (∀ now req,
       ∃ r', Api.rooms_after now req db !! i = Some r'
             ∧ Rooms._id r' = Rooms._id r
             ∧ Rooms.status r' ≠ Rooms.scheduled).
Proof.
  split; [|split; [|split]].
  - intros user id Hrole Hfind.
    unfold Rooms.cancel, Rooms.authenticateToken, Rooms.requireHR.
    rewrite bool_decide_eq_true_2 by done. rewrite Hfind.
    by rewrite bool_decide_eq_true_2.
  - intros user id Hfind.
    unfold Rooms.complete, Rooms.authenticateToken. rewrite Hfind.
    by rewrite bool_decide_eq_true_2.
  - intros a id Hall. split.
    + unfold Rooms.cancel, Rooms.authenticateToken, Rooms.requireHR,
        Rooms.reply, Rooms.findOne_id_hr.
      destruct a as [| |user]; simpl; [done | done |].
      case_bool_decide; simpl; [|done].
      destruct (Rooms.castObjectId id) as [oid|] eqn:Hcast; simpl; [|done].
      destruct (Rooms.find_first _ _) as [x|] eqn:Hfind; simpl; [|done].
      apply find_first_Some in Hfind as [Hin Hp].
      apply andb_true_iff in Hp as [Hp _].
      apply bool_decide_eq_true in Hp.
      rewrite bool_decide_eq_true_2; [done|].
      apply Hall; [done | congruence].
    + unfold Rooms.complete, Rooms.authenticateToken, Rooms.reply,
        Rooms.findOne_id_party.
      destruct a as [| |user]; simpl; [done | done |].
      destruct (Rooms.castObjectId id) as [oid|] eqn:Hcast; simpl; [|done].
      destruct (Rooms.find_first _ _) as [x|] eqn:Hfind; simpl; [|done].
      apply find_first_Some in Hfind as [Hin Hp].
      apply andb_true_iff in Hp as [Hp _].
      apply bool_decide_eq_true in Hp.
      rewrite bool_decide_eq_true_2; [done|].
      apply Hall; [done | congruence].
  - intros now req. by apply (stays_terminal_request now req db i r).
Qed.

Lemma terminal_rooms_stay_terminal_witness :
  Rooms.cancel (Rooms.Token Examples.hrUser) Examples.roomId
    [Examples.room Rooms.completed]
  = ({| Rooms.code := 400;
        Rooms.body := Rooms.Message "Interview cannot be cancelled" |},
     [Examples.room Rooms.completed])
  ∧ ∃ r', Api.rooms_after 1700003700000
            (Api.CompleteByRoom Examples.roomToken)
            (Examples.db Rooms.completed) !! 0%nat = Some r'
          ∧ Rooms.status r' ≠ Rooms.scheduled.
Proof.
  destruct (terminal_rooms_stay_terminal (Examples.db Rooms.completed) 0%nat
              (Examples.room Rooms.completed))
    as (Hcancel & _ & _ & Hafter); [reflexivity | discriminate |].
  split.
  - apply (Hcancel Examples.hrUser Examples.roomId); reflexivity.
  - destruct (Hafter 1700003700000 (Api.CompleteByRoom Examples.roomToken))
      as (r' & Hr' & _ & Hs').
    exists r'. split; assumption.
Defined.

Lemma save_elem_of doc db x :
  x ∈ Rooms.save doc db → Rooms._id x = Rooms._id doc → x = doc.
Proof.
  unfold Rooms.save. intros Hin Hid.
  apply list_elem_of_fmap in Hin as (y & -> & Hy).
  case_bool_decide as Hd; [done | contradiction].
Qed.

(** C9. PUT /auto-complete/:id on a scheduled room that its parameter
    resolves, by identifier or by room link, answers 200 and stores the
    room as completed, at whatever instant [now] it is served: the clock
    is not read. The older route PUT /:id/auto-complete on the same room
    answers 400 "Interview time has not ended yet" and changes nothing
    as long as [now] is not past the end of the room, and completes the
    room after it. *)
Theorem autoComplete_ignores_the_clock
    (now : Z) (idParam : string) (db : list Rooms.InterviewRoom)
    (r : Rooms.InterviewRoom)
    (Hres : Rooms.resolve idParam db = Some (Some r))
    (Hs : Rooms.status r = Rooms.scheduled) :
  let closed := Rooms.set_status Rooms.completed r in
  let endTime := Rooms.scheduledFor r + Rooms.duration r * 60000 in
  Rooms.autoComplete idParam db
  = ({| Rooms.code := 200;
        Rooms.body := Rooms.MessageDocument
                        "Interview automatically completed" closed |},
     Rooms.save closed db)
  ∧ (∃ i, db !! i = Some r ∧ Rooms.save closed db !! i = Some closed)
  ∧ (∀ x, x ∈ Rooms.save closed db → Rooms._id x = Rooms._id r →
          Rooms.status x = Rooms.completed)
  ∧ (Rooms.findById idParam db = Some (Some r) →
     (now ≤ endTime →
      Rooms.autoCompleteTimed now idParam db
      = ({| Rooms.code := 400;
            Rooms.body := Rooms.Message "Interview time has not ended yet" |},
         db))
     ∧ (now > endTime →
        Rooms.autoCompleteTimed now idParam db
        = ({| Rooms.code := 200;
              Rooms.body := Rooms.MessageDocument
                              "Interview automatically completed" closed |},
           Rooms.save closed db))).
Proof.
  intros closed endTime. split; [|split; [|split]].
  - unfold Rooms.autoComplete. rewrite Hres.
    by rewrite bool_decide_eq_false_2 by (intros Hne; by apply Hne).
  - apply resolve_elem_of in Hres.
    apply list_elem_of_lookup in Hres as [i Hi].
    exists i. split; [done|]. rewrite save_lookup, Hi. simpl.
    by rewrite bool_decide_eq_true_2.
  - intros x Hx Hid. by rewrite (save_elem_of closed db x Hx Hid).
  - intros Hfind. unfold Rooms.autoCompleteTimed. rewrite Hfind.
    rewrite bool_decide_eq_false_2 by (intros Hne; by apply Hne).
    fold endTime. split; intros Hnow.
    + rewrite bool_decide_eq_false_2 by lia. done.
    + rewrite bool_decide_eq_true_2 by lia. done.
Qed.

(** A scheduled room whose hour has not come yet, at the instant it is
    scheduled for: the older route refuses, PUT /auto-complete/:id
    completes it. *)
Lemma autoComplete_ignores_the_clock_witness :
  Rooms.autoCompleteTimed 1700000000000 Examples.roomId
    [Examples.room Rooms.scheduled]
  = ({| Rooms.code := 400;
        Rooms.body := Rooms.Message "Interview time has not ended yet" |},
     [Examples.room Rooms.scheduled])
  ∧ Rooms.autoComplete Examples.roomId [Examples.room Rooms.scheduled]
    = ({| Rooms.code := 200;
          Rooms.body := Rooms.MessageDocument
                          "Interview automatically completed"
                          (Examples.room Rooms.completed) |},
       [Examples.room Rooms.completed])
  ∧ Rooms.autoComplete Examples.roomToken [Examples.room Rooms.scheduled]
    = ({| Rooms.code := 200;
          Rooms.body := Rooms.MessageDocument
                          "Interview automatically completed"
                          (Examples.room Rooms.completed) |},
       [Examples.room Rooms.completed]).
Proof.
  destruct (autoComplete_ignores_the_clock 1700000000000 Examples.roomId
              [Examples.room Rooms.scheduled] (Examples.room Rooms.scheduled))
    as (Hnew & _ & _ & Hold); [reflexivity | reflexivity |].
  destruct (autoComplete_ignores_the_clock 1700000000000 Examples.roomToken
              [Examples.room Rooms.scheduled] (Examples.room Rooms.scheduled))
    as (Htoken & _); [reflexivity | reflexivity |].
  split; [|split].
  - apply Hold; [reflexivity | vm_compute; discriminate].
  - exact Hnew.
  - exact Htoken.
Defined.

(** ** The join window *)

(** C3, as amended. The join window of a scheduled room ends at
    [scheduledFor] plus the duration in minutes, a duration of 0 counting
    as 60 minutes. The evaluation yields one phase: ended when [now] is
    past that end; otherwise not yet open when the start is more than five
    minutes away; otherwise joinable, the remaining time being the whole
    seconds from [now] to the end, at least 0 (the clamp changes
    nothing, since [now] is not past the end). *)
Theorem join_window_phases (now scheduledFor durationMinutes : Z) :
  let effective := if durationMinutes =? 0 then 60 else durationMinutes in
  let endTime := scheduledFor + effective * 60000 in
  RoomPage.evaluateWindow now scheduledFor durationMinutes
  = Some (if now >? endTime then RoomPage.ended
          else if scheduledFor - now >? 300000 then RoomPage.notYetOpen
          else RoomPage.joinable (Z.max 0 ((endTime - now) ÷ 1000)))
  ∧ (∀ remainingSeconds,
       RoomPage.evaluateWindow now scheduledFor durationMinutes
       = Some (RoomPage.joinable remainingSeconds) →
       0 ≤ remainingSeconds
       ∧ remainingSeconds = (endTime - now) ÷ 1000
       ∧ now ≤ endTime ∧ scheduledFor - now ≤ 300000).
Proof.
  intros effective endTime.
  assert (RoomPage.evaluateWindow now scheduledFor durationMinutes
          = Some (if now >? endTime then RoomPage.ended
                  else if scheduledFor - now >? 300000 then RoomPage.notYetOpen
                  else RoomPage.joinable (Z.max 0 ((endTime - now) ÷ 1000))))
    as Heval.
  { unfold RoomPage.evaluateWindow, RoomPage.fetchInterview,
      RoomPage.effectiveDuration, RoomPage.addMinutes,
      RoomPage.differenceInSeconds, RoomPage.phase.
    simpl. fold effective. fold endTime.
    destruct (now >? endTime) eqn:Hend; simpl; [done|].
    destruct (scheduledFor - now >? 300000) eqn:Hopen; simpl; [done|].
    destruct ((endTime - now) ÷ 1000 >? 0) eqn:Hrem; do 2 f_equal; lia. }
  split; [done|].
  intros remainingSeconds. rewrite Heval.
  destruct (now >? endTime) eqn:Hend; [done|].
  destruct (scheduledFor - now >? 300000) eqn:Hopen; [done|].
  intros [= <-].
  assert (0 ≤ (endTime - now) ÷ 1000) by (apply Z.quot_pos; lia).
  lia.
Qed.

(** C3, as the specification words it, fails for a room of duration 0:
    one minute after its start the specification has the window ended,
    the page has it joinable for another 59 minutes. *)
Lemma join_window_duration_0_counterexample :
  Spec.evaluateWindow 60000 0 0 = RoomPage.ended
  ∧ RoomPage.evaluateWindow 60000 0 0 = Some (RoomPage.joinable 3540)
  ∧ RoomPage.canStart
      (RoomPage.fetchInterview 60000
         {| RoomPage._id := "64b7f0c2a1d3e4f5a6b7c8e1";
            RoomPage.scheduledFor := 0; RoomPage.duration := 0;
            RoomPage.status := Rooms.scheduled |}) = true
  ∧ RoomPage.evaluateWindow 60000 0 0 ≠ Some (Spec.evaluateWindow 60000 0 0).
Proof. repeat split; [reflexivity .. | discriminate]. Qed.

Lemma join_window_phases_witness :
  RoomPage.evaluateWindow (1700000000000 - 180000) 1700000000000 60
  = Some (RoomPage.joinable 3780)
  ∧ RoomPage.evaluateWindow (1700000000000 - 600000) 1700000000000 60
    = Some RoomPage.notYetOpen
  ∧ RoomPage.evaluateWindow (1700000000000 + 3660000) 1700000000000 60
    = Some RoomPage.ended
  ∧ 0 ≤ 3780.
Proof.
  destruct (join_window_phases (1700000000000 - 180000) 1700000000000 60)
    as [H1 Hrem].
  destruct (join_window_phases (1700000000000 - 600000) 1700000000000 60)
    as [H2 _].
  destruct (join_window_phases (1700000000000 + 3660000) 1700000000000 60)
    as [H3 _].
  split; [exact H1|]. split; [exact H2|]. split; [exact H3|].
  apply (Hrem 3780). reflexivity.
Defined.

(** ** The number of questions *)

Lemma Math_floor_ratio (a n : Z) :
  0 < n → JS.Math_floor (inject_Z a / inject_Z n) = a / n.
Proof.
  intros Hn. destruct n as [|p|p]; [lia | | lia].
  unfold JS.Math_floor, Qdiv, Qinv, Qmult, inject_Z. simpl.
  by rewrite Z.mul_1_r.
Qed.

(** C6. The scheduled flag is the one that was given; when none is given
    it is true exactly when an interview identifier (a string that is not
    empty) is supplied. A scheduled session with a positive duration [d]
    in seconds asks for [max 1 (d / 180)] questions, a scheduled session
    without one for 5, a practice session for 10. *)
Theorem questionCount_derivation (options : option Session.InterviewStartOptions) :
  (∀ flag, options ≫= Session.isHrScheduled = Some flag →
           Session.hrScheduledCheck options = flag)
  ∧ (options ≫= Session.isHrScheduled = None →
     (Session.hrScheduledCheck options = true
      ↔ ∃ interviewId, options ≫= Session.interviewId = Some interviewId
                       ∧ interviewId ≠ ""))
  ∧ (Session.hrScheduledCheck options = true →
     (∀ d, options ≫= Session.durationInSeconds = Some d → 0 < d →
           Session.questionCount options = Z.max 1 (d / 180))
     ∧ ((options ≫= Session.durationInSeconds = None
         ∨ ∃ d, options ≫= Session.durationInSeconds = Some d ∧ d ≤ 0) →
        Session.questionCount options
        = Session.DEFAULT_SCHEDULED_QUESTION_COUNT))
  ∧ (Session.hrScheduledCheck options = false →
     Session.questionCount options = Session.DEFAULT_PRACTICE_QUESTION_COUNT)
  ∧ Session.DEFAULT_SCHEDULED_QUESTION_COUNT = 5
  ∧ Session.DEFAULT_PRACTICE_QUESTION_COUNT = 10.
Proof.
  split; [|split; [|split; [|split; [|done]]]].
  - intros flag Hflag. unfold Session.hrScheduledCheck. by rewrite Hflag.
  - intros Hflag. unfold Session.hrScheduledCheck. rewrite Hflag.
    unfold JS.truthy_opt, JS.truthy.
    destruct (options ≫= Session.interviewId) as [i|]; split.
    + intros Hi. exists i. split; [done|].
      apply negb_true_iff, bool_decide_eq_false in Hi. done.
    + intros (i' & [= <-] & Hne).
      by apply negb_true_iff, bool_decide_eq_false.
    + done.
    + by intros (i' & Hi & _).
  - intros Hhr. unfold Session.questionCount. rewrite Hhr. split.
    + intros d -> Hd.
      cbv beta iota.
      replace (d =? 0) with false by lia. replace (d >? 0) with true by lia.
      cbv beta iota delta [negb andb].
      unfold JS.Math_max, Session.QUESTION_TIME_LIMIT_SECONDS.
      by rewrite Math_floor_ratio.
    + intros [-> | (d & -> & Hd)]; [done|].
      destruct (d =? 0) eqn:H0; [done|]. simpl.
      by replace (d >? 0) with false by lia.
  - intros Hhr. unfold Session.questionCount. by rewrite Hhr.
Qed.

(** A scheduled session of 900 seconds asks for 5 questions; the flag of
    a session that is started with a room identifier alone is inferred. *)
Lemma questionCount_derivation_witness :
  let options :=
    Some {| Session.o_mediaStream := None; Session.o_jobRole := None;
            Session.o_experienceLevel := None;
            Session.interviewId := Some "64b7f0c2a1d3e4f5a6b7c8e1";
            Session.durationInSeconds := Some 900;
            Session.isHrScheduled := None |} in
  Session.hrScheduledCheck options = true
  ∧ Session.questionCount options = 5.
Proof.
  intros options.
  destruct (questionCount_derivation options) as (_ & Hinfer & Hcount & _).
  assert (Session.hrScheduledCheck options = true) as Hhr.
  { apply Hinfer; [reflexivity|].
    exists "64b7f0c2a1d3e4f5a6b7c8e1". split; [reflexivity | discriminate]. }
  split; [exact Hhr|].
  destruct (Hcount Hhr) as [Hd _].
  rewrite (Hd 900); [reflexivity | reflexivity | reflexivity].
Defined.

(** ** The fallback questions *)

Lemma length_formatQuestions ids texts :
  length (Session.formatQuestions ids texts) = length texts.
Proof. unfold Session.formatQuestions. apply length_imap. Qed.

Lemma q_text_formatQuestions ids texts :
  Session.q_text <$> Session.formatQuestions ids texts = texts.
Proof.
  unfold Session.formatQuestions. revert ids.
  induction texts as [|t texts IH]; intros ids; [done|].
  simpl. f_equal. apply IH.
Qed.

Lemma length_MOCK_QUESTIONS r l : length (Session.MOCK_QUESTIONS r l) = 4%nat.
Proof. by destruct r, l. Qed.

(** C10. When the request for questions fails (it throws, the response is
    not [ok], or it has no array of questions), the session gets the
    questions of the table for its role and level, in the order of the
    table: four of them for every role and level, whatever the options
    and so whatever the number of questions that was derived from them;
    that number is the [count] of the request to the gateway. *)
Theorem fallback_questions_ignore_count
    (env : Session.Environment)
    (options : option Session.InterviewStartOptions)
    (s : Session.State) (c : Session.InterviewConfig)
    (Hc : Session.sessionConfig options s = Some c)
    (Hfail : Session.questionsFailed
               (Session.fetchQuestions env
                  {| Session.rq_jobRole := Session.jobRole c;
                     Session.rq_experienceLevel := Session.experienceLevel c;
                     Session.count := Session.questionCount options |})
             = true) :
  let table := Session.MOCK_QUESTIONS (Session.jobRole c)
                                      (Session.experienceLevel c) in
  let asked := Session.questions (Session.startInterview env options s) in
  asked = Session.formatQuestions (Session.getRandomId env) table
  ∧ Session.q_text <$> asked = table
  ∧ length asked = length table
  ∧ length table = 4%nat.
Proof.
  intros table asked.
  assert (asked = Session.formatQuestions (Session.getRandomId env) table)
    as Hasked.
  { unfold asked, Session.startInterview. rewrite Hc.
    destruct (match options ≫= Session.o_mediaStream with
              | Some _ => _ | None => _ end) as [stream streamError].
    simpl. unfold Session.loadQuestions.
    assert (Session.mockQuestions (Session.getRandomId env) c
            = Session.formatQuestions (Session.getRandomId env) table)
      as Hmock.
    { unfold Session.mockQuestions. fold table.
      rewrite length_formatQuestions. unfold table.
      by rewrite length_MOCK_QUESTIONS. }
    unfold Session.questionsFailed in Hfail.
    destruct (Session.fetchQuestions env _) as [|status data]; [done|].
    destruct (Session.ok status); simpl in *; [|done].
    apply bool_decide_eq_true in Hfail. by subst data. }
  rewrite Hasked.
  split; [done|]. split; [apply q_text_formatQuestions|].
  split; [apply length_formatQuestions | apply length_MOCK_QUESTIONS].
Qed.

Lemma fallback_questions_ignore_count_witness :
  Session.questionCount (Some Examples.scheduledOptions) = 10
  ∧ length (Session.questions
              (Session.startInterview Examples.offline
                 (Some Examples.scheduledOptions) Session.initial)) = 4%nat.
Proof.
  split; [reflexivity|].
  destruct (fallback_questions_ignore_count Examples.offline
              (Some Examples.scheduledOptions) Session.initial Examples.webMid)
    as (_ & _ & Hlen & Hfour); [reflexivity | reflexivity |].
  rewrite Hlen. exact Hfour.
Defined.

(** ** The sessions that can be reached *)

(** Answers are recorded only in a session that has a configuration. *)
Lemma step_answers_config s s' :
  Session.step s s' →
  (Session.answers s = [] ∨ is_Some (Session.config s)) →
  Session.answers s' = [] ∨ is_Some (Session.config s').
Proof.
  intros Hstep Hinv. destruct Hstep as [c s|env options s|s|s|g rnd ad s|now s].
  - right. simpl. eauto.
  - left. unfold Session.startInterview.
    destruct (Session.sessionConfig options s); [|done].
    by destruct (match options ≫= Session.o_mediaStream with
                 | Some _ => _ | None => _ end).
  - unfold Session.nextQuestion. by destruct (_ <? _).
  - unfold Session.previousQuestion. by destruct (_ >? _).
  - unfold Session.saveAnswer.
    destruct (Session.config s) as [c|] eqn:Hc; [|simpl; by rewrite ?Hc].
    destruct (Session.questions s !! Session.currentQuestionIndex s);
      [|simpl; rewrite Hc; eauto].
    destruct (JS.truthy _ && _).
    + destruct (Session.analyzeAnswer _ _ _ _ _). simpl. rewrite Hc. eauto.
    + simpl. rewrite Hc. eauto.
  - done.
Qed.

Lemma reachable_answers_config s :
  Session.reachable s → Session.answers s ≠ [] → is_Some (Session.config s).
Proof.
  intros Hreach Hne.
  assert (Session.answers s = [] ∨ is_Some (Session.config s)) as [?|?];
    [|done|done].
  clear Hne. unfold Session.reachable in Hreach.
  apply (rtc_ind_r (R := Session.step)
           (λ s, Session.answers s = [] ∨ is_Some (Session.config s))
           Session.initial); [by left | | done].
  intros y z _ Hstep IH. by apply (step_answers_config y z).
Qed.

(** ** The aggregation *)

Lemma Math_round_ratio (a n : Z) :
  0 < n → JS.Math_round (inject_Z a / inject_Z n) = (2 * a + n) / (2 * n).
Proof.
  intros Hn. destruct n as [|p|p]; [lia | | lia].
  unfold JS.Math_round, Qdiv, Qinv, Qmult, Qplus, inject_Z. simpl.
  rewrite Pos2Z.inj_mul. f_equal; lia.
Qed.

(** The integer [t] that [Math.round] gives to [a / n] is the one with
    [t - 1/2 ≤ a / n < t + 1/2]. *)
Lemma Math_round_ratio_bounds (a n : Z) :
  0 < n →
  let t := JS.Math_round (inject_Z a / inject_Z n) in
  n * (2 * t - 1) ≤ 2 * a < n * (2 * t + 1).
Proof.
  intros Hn t. unfold t. rewrite Math_round_ratio by done.
  pose proof (Z.div_mod (2 * a + n) (2 * n)).
  pose proof (Z.mod_pos_bound (2 * a + n) (2 * n)).
  nia.
Qed.

Lemma sumScores_defined acc (l : list Session.InterviewAnswer) :
  foldl (λ sum answer, sum + default 0 (Session.score answer)) acc
        (Session.answersWithScores l)
  = acc + Spec.sum (omap Session.score l).
Proof.
  unfold Session.answersWithScores, Spec.sum. revert acc.
  induction l as [|a l IH]; intros acc; simpl; [lia|].
  rewrite filter_cons. destruct (Session.score a) as [z|] eqn:Hz.
  - rewrite decide_True by eauto. simpl. rewrite Hz. simpl. rewrite IH.
    by rewrite <- Z.add_assoc.
  - rewrite decide_False by (by intros [? ?]). apply IH.
Qed.

Lemma length_answersWithScores (l : list Session.InterviewAnswer) :
  length (Session.answersWithScores l) = length (omap Session.score l).
Proof.
  unfold Session.answersWithScores.
  induction l as [|a l IH]; simpl; [done|].
  rewrite filter_cons. destruct (Session.score a) as [z|] eqn:Hz.
  - rewrite decide_True by eauto. simpl. by rewrite IH.
  - rewrite decide_False by (by intros [? ?]). apply IH.
Qed.

Lemma findAnswer_Some qid answers a :
  Session.findAnswer qid answers = Some a →
  a ∈ answers ∧ Session.questionId a = qid.
Proof.
  unfold Session.findAnswer.
  destruct (list_find _ answers) as [[i x]|] eqn:Hfind; [|done].
  intros [= <-]. apply list_find_Some in Hfind as (Hi & Hq & _).
  split; [|done]. apply list_elem_of_lookup. eauto.
Qed.

Lemma findAnswer_None qid answers :
  Session.findAnswer qid answers = None →
  ∀ a, a ∈ answers → Session.questionId a ≠ qid.
Proof.
  unfold Session.findAnswer.
  destruct (list_find _ answers) as [[i x]|] eqn:Hfind; [done|].
  intros _ a Ha. apply list_find_None in Hfind.
  by apply (proj1 (Forall_forall _ _) Hfind).
Qed.



(** ** Strengths, improvements and feedback *)

Lemma dedup_seen_ext (s1 s2 l : list string) :
  (∀ y, y ∈ s1 ↔ y ∈ s2) → Spec.dedup_seen s1 l = Spec.dedup_seen s2 l.
Proof.
  revert s1 s2. induction l as [|x l IH]; intros s1 s2 Hext; simpl; [done|].
  rewrite (bool_decide_ext (x ∈ s1) (x ∈ s2)) by apply Hext.
  destruct (bool_decide (x ∈ s2)); [by apply IH|].
  f_equal. apply IH. intros y. rewrite !elem_of_cons, Hext. done.
Qed.

(** The insertions into a [Set] keep what the recursive deduplication
    keeps. *)
Lemma Set_add_foldl (acc l : list string) :
  foldl JS.Set_add acc l = acc ++ Spec.dedup_seen acc l.
Proof.
  revert acc. induction l as [|x l IH]; intros acc; simpl.
  - by rewrite app_nil_r.
  - rewrite IH. unfold JS.Set_add.
    destruct (bool_decide (x ∈ acc)) eqn:Hx; [done|].
    rewrite <- app_assoc. simpl. do 2 f_equal.
    apply dedup_seen_ext. intros y.
    rewrite elem_of_app, !elem_of_cons, elem_of_nil. tauto.
Qed.

Lemma Set_from_dedup (l : list string) : JS.Set_from l = Spec.dedup l.
Proof. unfold JS.Set_from, Spec.dedup. by rewrite Set_add_foldl. Qed.

Lemma elem_of_dedup_seen (seen l : list string) x :
  x ∈ Spec.dedup_seen seen l ↔ x ∈ l ∧ x ∉ seen.
Proof.
  revert seen. induction l as [|y l IH]; intros seen; simpl.
  - rewrite elem_of_nil. tauto.
  - case_bool_decide as Hy.
    + rewrite IH, elem_of_cons. split; [tauto|].
      intros [[->|Hx] Hn]; [done | tauto].
    + rewrite !elem_of_cons, IH, elem_of_cons.
      destruct (decide (x = y)) as [->|Hne]; [tauto|]. tauto.
Qed.

Lemma NoDup_dedup_seen (seen l : list string) : NoDup (Spec.dedup_seen seen l).
Proof.
  revert seen. induction l as [|y l IH]; intros seen; simpl.
  - constructor.
  - case_bool_decide; [apply IH|].
    constructor; [|apply IH].
    rewrite elem_of_dedup_seen, elem_of_cons. tauto.
Qed.

Lemma bind_concat {A B} (f : A → list B) (l : list A) :
  l ≫= f = concat (f <$> l).
Proof. induction l as [|x l IH]; simpl; [done | f_equal; exact IH]. Qed.

Lemma truthy_nonempty (t : string) : JS.truthy t = true ↔ t ≠ "".
Proof.
  unfold JS.truthy. rewrite negb_true_iff, bool_decide_eq_false. done.
Qed.

(** C7. In the result of a finished session the strengths are the tags
    of strength of all the answers, in the order of the answers, without
    the empty ones, each kept where it is first seen, and cut after five;
    the improvements are made in the same way from the tags of weakness;
    the feedback is the text of the band of the total score: at least 80,
    else at least 70, else at least 60, else the lowest. *)
Theorem result_tags_and_feedback
    (now : Z) (s : Session.State) (r : Session.InterviewResult)
    (Hr : Session.result (Session.finishInterview now s) = Some r) :
  let tags (f : Session.InterviewAnswer → option (list string)) :=
    filter (λ t, t ≠ "")
           (concat ((λ a, default [] (f a)) <$> Session.answers s)) in
  Session.r_strengths r = take 5 (Spec.dedup (tags Session.strengths))
  ∧ Session.improvements r = take 5 (Spec.dedup (tags Session.weaknesses))
  ∧ (length (Session.r_strengths r) ≤ 5)%nat
  ∧ (length (Session.improvements r) ≤ 5)%nat
  ∧ NoDup (Session.r_strengths r)
  ∧ NoDup (Session.improvements r)
  ∧ (∀ t, t ∈ Spec.dedup (tags Session.strengths) ↔ t ∈ tags Session.strengths)
  ∧ (∀ t, t ∈ Spec.dedup (tags Session.weaknesses) ↔ t ∈ tags Session.weaknesses)
  ∧ (80 ≤ Session.totalScore r →
     Session.r_feedback r
     = "Excellent job! You demonstrated strong communication skills and provided comprehensive answers.")
  ∧ (70 ≤ Session.totalScore r < 80 →
     Session.r_feedback r
     = "Good job! Your answers were solid with some room for improvement in specific areas.")
  ∧ (60 ≤ Session.totalScore r < 70 →
     Session.r_feedback r
     = "Satisfactory performance. With some preparation, you can improve your interview skills.")
  ∧ (Session.totalScore r < 60 →
     Session.r_feedback r
     = "You need more practice with interview questions. Focus on being more specific and structured in your answers.").
Proof.
  intros tags.
  assert (r = Session.resultToSave now s) as ->.
  { simpl in Hr. destruct (_ && _); [by injection Hr | done]. }
  assert (Session.allStrengths (Session.answers s) = tags Session.strengths)
    as Hs.
  { unfold Session.allStrengths, tags. rewrite bind_concat.
    apply list_filter_iff, truthy_nonempty. }
  assert (Session.allWeaknesses (Session.answers s) = tags Session.weaknesses)
    as Hw.
  { unfold Session.allWeaknesses, tags. rewrite bind_concat.
    apply list_filter_iff, truthy_nonempty. }
  assert (Session.r_strengths (Session.resultToSave now s)
          = take 5 (Spec.dedup (tags Session.strengths))) as Hrs.
  { simpl. unfold Session.uniqueStrengths, JS.slice0.
    by rewrite Set_from_dedup, Hs. }
  assert (Session.improvements (Session.resultToSave now s)
          = take 5 (Spec.dedup (tags Session.weaknesses))) as Hri.
  { simpl. unfold Session.uniqueImprovements, JS.slice0.
    by rewrite Set_from_dedup, Hw. }
  rewrite Hrs, Hri.
  split; [done|]. split; [done|].
  split; [apply firstn_le_length|]. split; [apply firstn_le_length|].
  split; [eapply sublist_NoDup; [apply NoDup_dedup_seen | apply sublist_take]|].
  split; [eapply sublist_NoDup; [apply NoDup_dedup_seen | apply sublist_take]|].
  split.
  { intros t. unfold Spec.dedup. rewrite elem_of_dedup_seen, elem_of_nil. tauto. }
  split.
  { intros t. unfold Spec.dedup. rewrite elem_of_dedup_seen, elem_of_nil. tauto. }
  simpl. unfold Session.feedbackFor.
  repeat split; intros Hband.
  - by replace (_ >=? 80) with true by lia.
  - replace (_ >=? 80) with false by lia. by replace (_ >=? 70) with true by lia.
  - replace (_ >=? 80) with false by lia. replace (_ >=? 70) with false by lia.
    by replace (_ >=? 60) with true by lia.
  - replace (_ >=? 80) with false by lia. replace (_ >=? 70) with false by lia.
    by replace (_ >=? 60) with false by lia.
Qed.

(** Six different tags of strength, one of them twice, and an empty one:
    the first five stay, in the order in which they are first seen. *)
Lemma result_tags_and_feedback_witness :
  ∃ r,
    Session.result (Session.finishInterview 0 Examples.withTags) = Some r
    ∧ Session.r_strengths r
      = ["clear"; "concise"; "examples"; "depth"; "structure"]
    ∧ Session.improvements r = ["pace"; "filler words"]
    ∧ Session.totalScore r = 68
    ∧ Session.r_feedback r
      = "Satisfactory performance. With some preparation, you can improve your interview skills.".
Proof.
  eexists. split; [reflexivity|].
  destruct (result_tags_and_feedback 0 Examples.withTags _ eq_refl)
    as (Hs & Hi & _ & _ & _ & _ & _ & _ & _ & _ & Hband & _).
  split; [exact Hs|]. split; [exact Hi|]. split; [reflexivity|].
  apply Hband. split; [vm_compute; discriminate | reflexivity].
Defined.

(** ** Recording an answer *)

Lemma upsert_find (final : Session.InterviewAnswer)
    (prev : list Session.InterviewAnswer) :
  ∃ e, Session.findAnswer (Session.questionId final)
         (Session.upsert final prev) = Some e
       ∧ Session.questionId e = Session.questionId final
       ∧ Session.text e = Session.text final
       ∧ Session.score e = Session.score final
       ∧ Session.feedback e = Session.feedback final
       ∧ Session.strengths e = Session.strengths final
       ∧ Session.weaknesses e = Session.weaknesses final.
Proof.
  unfold Session.upsert, Session.findAnswer.
  destruct (list_find _ prev) as [[i old]|] eqn:Hfind.
  - exists (Session.spread old final).
    apply list_find_Some in Hfind as (Hi & _ & Hbefore).
    split; [|done].
    assert (list_find (λ a, Session.questionId a = Session.questionId final)
              (<[i:=Session.spread old final]> prev)
            = Some (i, Session.spread old final)) as ->; [|done].
    apply list_find_Some. split; [|split; [done|]].
    + apply list_lookup_insert_eq. by eapply lookup_lt_Some.
    + intros j y Hj Hlt. rewrite list_lookup_insert_ne in Hj by lia.
      by eapply Hbefore.
  - exists final. split; [|done].
    apply list_find_None in Hfind.
    assert (list_find (λ a, Session.questionId a = Session.questionId final)
              (prev ++ [final]) = Some (length prev, final)) as ->; [|done].
    apply list_find_Some. split; [|split; [done|]].
    + by rewrite lookup_app_r, Nat.sub_diag.
    + intros j y Hj Hlt. rewrite lookup_app_l in Hj by done.
      apply (proj1 (Forall_forall _ _) Hfind). apply list_elem_of_lookup. eauto.
Qed.

(** What [upsert] does to the list: the entry of the question is replaced
    where it is, or the answer is appended; the other entries stay. *)
Lemma upsert_shape (final : Session.InterviewAnswer)
    (prev : list Session.InterviewAnswer) :
  (∃ i old, prev !! i = Some old
            ∧ Session.questionId old = Session.questionId final
            ∧ Session.upsert final prev
              = <[i:=Session.spread old final]> prev
            ∧ length (Session.upsert final prev) = length prev)
  ∨ ((∀ a, a ∈ prev → Session.questionId a ≠ Session.questionId final)
     ∧ Session.upsert final prev = prev ++ [final]).
Proof.
  unfold Session.upsert.
  destruct (list_find _ prev) as [[i old]|] eqn:Hfind.
  - left. exists i, old. apply list_find_Some in Hfind as (Hi & Hq & _).
    split; [done|]. split; [done|]. split; [done | apply length_insert].
  - right. split; [|done]. apply list_find_None in Hfind.
    intros a Ha. by apply (proj1 (Forall_forall _ _) Hfind).
Qed.

Lemma trim_falsy (t : string) :
  JS.truthy t = false → JS.length (JS.trim t) = 0.
Proof.
  unfold JS.truthy. rewrite negb_false_iff, bool_decide_eq_true.
  by intros ->.
Qed.

(** Without a configuration or without a current question, [saveAnswer]
    records nothing and sends nothing. *)
Lemma saveAnswer_guard gateway random answerData s :
  Session.config s = None
  ∨ Session.questions s !! Session.currentQuestionIndex s = None →
  Session.saveAnswer gateway random answerData s = (s, []).
Proof.
  unfold Session.saveAnswer. intros [-> | ->]; [done|].
  by destruct (Session.config s).
Qed.

(** C5, as amended. In a session that has a configuration and a current
    question, an answer whose trimmed text has at most 10 characters is
    recorded with score 0 and the feedback "Answer was too short for
    analysis." and no request is sent to the gateway; a request is sent
    exactly when the trimmed text has more than 10 characters. The answer
    is recorded under its question identifier: it takes the place of the
    answer that was recorded for the question, or is appended when there
    was none. *)
Theorem short_answer_gate
    (gateway : Gemini.AnalyzeRequest → Session.AnalyzeOutcome)
    (random : JS.Number)
    (answerData : Session.AnswerData) (s : Session.State)
    (c : Session.InterviewConfig) (current : Session.InterviewQuestion)
    (Hc : Session.config s = Some c)
    (Hq : Session.questions s !! Session.currentQuestionIndex s = Some current) :
  let after := Session.saveAnswer gateway random answerData s in
  let trimmed := JS.length (JS.trim (Session.ad_text answerData)) in
  (trimmed ≤ 10 →
   snd after = []
   ∧ Session.answers (fst after)
     = Session.upsert (Session.unanalyzedAnswer answerData) (Session.answers s)
   ∧ ∃ e, Session.findAnswer (Session.ad_questionId answerData)
            (Session.answers (fst after)) = Some e
          ∧ Session.text e = Session.ad_text answerData
          ∧ Session.score e = Some 0
          ∧ Session.feedback e = Some "Answer was too short for analysis.")
  ∧ (10 < trimmed →
     snd after
     = [ {| Gemini.question := Session.q_text current;
            Gemini.answer := Session.ad_text answerData;
            Gemini.jobRole := Some (Session.JobRole_string (Session.jobRole c));
            Gemini.experienceLevel :=
              Some (Session.ExperienceLevel_string
                      (Session.experienceLevel c)) |} ])
  ∧ (snd after ≠ [] ↔ 10 < trimmed)
  ∧ (∃ final,
       Session.questionId final = Session.ad_questionId answerData
       ∧ Session.text final = Session.ad_text answerData
       ∧ Session.answers (fst after) = Session.upsert final (Session.answers s)
       ∧ ((∃ i old, Session.answers s !! i = Some old
                    ∧ Session.questionId old = Session.ad_questionId answerData
                    ∧ Session.answers (fst after)
                      = <[i:=Session.spread old final]> (Session.answers s)
                    ∧ length (Session.answers (fst after))
                      = length (Session.answers s))
          ∨ ((∀ a, a ∈ Session.answers s →
                   Session.questionId a ≠ Session.ad_questionId answerData)
             ∧ Session.answers (fst after) = Session.answers s ++ [final]))).
Proof.
  intros after trimmed.
  assert (JS.truthy (Session.ad_text answerData) && (trimmed >? 10)
          = (trimmed >? 10)) as Hgate.
  { destruct (JS.truthy _) eqn:Ht; [done|].
    unfold trimmed. rewrite (trim_falsy _ Ht). done. }
  destruct (trimmed >? 10) eqn:Hlen.
  - (* more than 10 characters: the gateway is asked *)
    assert (∃ analysis,
              after
              = (Session.set_answers
                   (Session.upsert (Session.analyzedAnswer answerData analysis)
                      (Session.answers s)) s,
                 [ {| Gemini.question := Session.q_text current;
                      Gemini.answer := Session.ad_text answerData;
                      Gemini.jobRole :=
                        Some (Session.JobRole_string (Session.jobRole c));
                      Gemini.experienceLevel :=
                        Some (Session.ExperienceLevel_string
                                (Session.experienceLevel c)) |} ]))
      as [analysis ->].
    { unfold after, Session.saveAnswer. rewrite Hc, Hq. fold trimmed.
      rewrite Hlen, Hgate. unfold Session.analyzeAnswer. eexists. reflexivity. }
    simpl. split; [lia|]. split; [done|]. split; [split; [lia | done]|].
    exists (Session.analyzedAnswer answerData analysis).
    split; [done|]. split; [done|]. split; [done|].
    apply (upsert_shape (Session.analyzedAnswer answerData analysis)).
  - (* at most 10 characters: nothing is asked *)
    assert (after
            = (Session.set_answers
                 (Session.upsert (Session.unanalyzedAnswer answerData)
                    (Session.answers s)) s, [])) as ->.
    { unfold after, Session.saveAnswer. rewrite Hc, Hq. fold trimmed.
      by rewrite Hlen, Hgate. }
    simpl. split; [|split; [lia|split; [split; [done | lia]|]]].
    + intros _. split; [done|]. split; [done|].
      destruct (upsert_find (Session.unanalyzedAnswer answerData)
                  (Session.answers s)) as (e & He & _ & Ht & Hs & Hf & _).
      exists e. done.
    + exists (Session.unanalyzedAnswer answerData).
      split; [done|]. split; [done|]. split; [done|].
      apply (upsert_shape (Session.unanalyzedAnswer answerData)).
Qed.

(** Two short answers to the first question of a session: the second
    takes the place of the first, and the gateway is not asked. *)
Lemma short_answer_gate_witness :
  let first :=
    fst (Session.saveAnswer (Session.viaBackend Examples.oracle) Examples.half
           (Examples.answerTo "Q1" "  Yes.  ") Examples.started) in
  let after :=
    Session.saveAnswer (Session.viaBackend Examples.oracle) Examples.half
      (Examples.answerTo "Q1" "No idea.") first in
  snd after = []
  ∧ ∃ e, Session.findAnswer "Q1" (Session.answers (fst after)) = Some e
         ∧ Session.text e = "No idea."
         ∧ Session.score e = Some 0
         ∧ Session.feedback e = Some "Answer was too short for analysis.".
Proof.
  intros first after.
  destruct (short_answer_gate (Session.viaBackend Examples.oracle) Examples.half
              (Examples.answerTo "Q1" "No idea.") first Examples.webMid
              {| Session.id := "Q1"; Session.q_text := "What is a closure?" |})
    as [Hshort _]; [reflexivity | reflexivity |].
  destruct Hshort as (Hcalls & _ & Hrecorded); [vm_compute; discriminate|].
  split; [exact Hcalls | exact Hrecorded].
Defined.

(** C5, as the specification words it, fails in a session that was
    started without a role and a level: it has a question but no
    configuration, and a short answer is not recorded. *)
Lemma short_answer_unconfigured_counterexample :
  Session.reachable Examples.unconfigured
  ∧ Session.questions Examples.unconfigured
    = [ {| Session.id := "Q1";
           Session.q_text := "No role/level selected. Tell me about yourself." |} ]
  ∧ Session.saveAnswer (Session.viaBackend Examples.oracle) Examples.half
      (Examples.answerTo "Q1" "Yes.") Examples.unconfigured
    = (Examples.unconfigured, [])
  ∧ Session.answers Examples.unconfigured = []
  ∧ ¬ Spec.short_answer_recorded.
Proof.
  assert (Session.reachable Examples.unconfigured) as Hreach.
  { unfold Session.reachable. eapply rtc_l; [|apply rtc_refl].
    apply (Session.step_startInterview Examples.offline None). }
  split; [exact Hreach|]. split; [reflexivity|]. split; [reflexivity|].
  split; [reflexivity|].
  intros Hclaim.
  destruct (Hclaim (Session.viaBackend Examples.oracle) Examples.half
              (Examples.answerTo "Q1" "Yes.") Examples.unconfigured Hreach)
    as (_ & a & Ha & _); [vm_compute; discriminate|].
  change (a ∈ @nil Session.InterviewAnswer) in Ha. by apply elem_of_nil in Ha.
Qed.

(** ** Scoring *)

Lemma Math_round_bounds (q : Q) :
  let t := JS.Math_round q in
  (inject_Z t - (1 # 2) <= q)%Q ∧ (q < inject_Z t + (1 # 2))%Q.
Proof.
  intros t. unfold t, JS.Math_round.
  pose proof (Qfloor_le (q + (1 # 2))) as Hle.
  pose proof (Qlt_floor (q + (1 # 2))) as Hlt.
  rewrite inject_Z_plus in Hlt. change (inject_Z 1) with 1%Q in Hlt.
  split; lra.
Qed.

(** *** The product of two doubles

    [SpecFloat.SFmul] rounds the exact product by shifting its mantissa
    to the right and looking at the bits that were shifted out. *)

Lemma shr_1_spec (m : Z) (r s : bool) :
  0 ≤ m →
  SpecFloat.shr_1 {| SpecFloat.shr_m := m; SpecFloat.shr_r := r; SpecFloat.shr_s := s |}
  = {| SpecFloat.shr_m := Z.div2 m; SpecFloat.shr_r := Z.odd m;
       SpecFloat.shr_s := r || s |}.
Proof. intros Hm. destruct m as [|[p|p|]|p]; try done; lia. Qed.

Lemma mod_pow2_succ (M k : Z) :
  0 ≤ k →
  M mod 2 ^ (k + 1) = M mod 2 ^ k + 2 ^ k * Z.b2z (Z.testbit M k).
Proof.
  intros Hk. rewrite Z.pow_add_r, Z.pow_1_r by lia.
  rewrite Z.rem_mul_r by lia. by rewrite Z.testbit_spec' by lia.
Qed.

Lemma shifted_shr_1 (M k : Z) (mrs : SpecFloat.shr_record) :
  0 ≤ M → 0 ≤ k →
  JS.shifted M k mrs → JS.shifted M (k + 1) (SpecFloat.shr_1 mrs).
Proof.
  intros HM Hk (Hm & Hr & Hs). destruct mrs as [m r s]. simpl in Hm, Hr, Hs.
  rewrite shr_1_spec by (subst m; by apply Z.shiftr_nonneg).
  unfold JS.shifted. simpl. subst m.
  replace (k + 1 =? 0) with false by lia.
  replace (k + 1 - 1) with k by lia.
  split; [|split].
  - rewrite Z.div2_spec, Z.shiftr_shiftr by lia. done.
  - symmetry. apply Z.testbit_odd.
  - destruct (Z.eqb_spec k 0) as [->|Hk0].
    + subst r. simpl. rewrite Hs. rewrite Z.mod_1_r. split; [lia|]. lia.
    + replace k with (k - 1 + 1) at 2 by lia.
      rewrite mod_pow2_succ by lia. rewrite <- Hr.
      assert (0 < 2 ^ (k - 1)) as Hpos by (apply Z.pow_pos_nonneg; lia).
      pose proof (Z.mod_pos_bound M (2 ^ (k - 1)) Hpos) as Hrem.
      rewrite orb_true_iff, Hs.
      destruct r; simpl; rewrite ?Z.mul_1_r, ?Z.mul_0_r, ?Z.add_0_r.
      * split; [intros _; lia | by left].
      * split; [intros [|[? ?]]; [done | lia] | intros [? ?]; right; lia].
Qed.

Lemma shifted_iter_pos (M : Z) (p : positive) :
  0 ≤ M →
  ∀ k mrs, 0 ≤ k → JS.shifted M k mrs →
           JS.shifted M (k + Z.pos p) (SpecFloat.iter_pos SpecFloat.shr_1 p mrs).
Proof.
  intros HM. induction p as [p IH|p IH|]; intros k mrs Hk Hinv; simpl.
  - replace (k + Z.pos p~1) with (k + 1 + Z.pos p + Z.pos p) by lia.
    apply IH; [lia|]. apply IH; [lia|]. by apply shifted_shr_1.
  - replace (k + Z.pos p~0) with (k + Z.pos p + Z.pos p) by lia.
    apply IH; [lia|]. by apply IH.
  - by apply shifted_shr_1.
Qed.

Lemma shifted_0 (M : Z) :
  JS.shifted M 0 {| SpecFloat.shr_m := M; SpecFloat.shr_r := false;
                    SpecFloat.shr_s := false |}.
Proof. unfold JS.shifted. simpl. split; [done|]. split; [done|]. split; [done | lia]. Qed.

Lemma round_shifted (M p : Z) (mrs : SpecFloat.shr_record) :
  0 ≤ M → 0 < p → JS.shifted M p mrs →
  let m' := SpecFloat.round_nearest_even (SpecFloat.shr_m mrs)
              (SpecFloat.loc_of_shr_record mrs) in
  M / 2 ^ p ≤ m' ≤ M / 2 ^ p + 1
  ∧ 2 * M - 2 ^ p ≤ 2 * (m' * 2 ^ p) ≤ 2 * M + 2 ^ p.
Proof.
  intros HM Hp (Hm & Hr & Hs) m'. unfold m'. clear m'.
  destruct mrs as [m r s]. simpl in Hm, Hr, Hs.
  replace (p =? 0) with false in Hr by lia.
  rewrite Z.shiftr_div_pow2 in Hm by lia.
  assert (0 < 2 ^ (p - 1)) as Hpos by (apply Z.pow_pos_nonneg; lia).
  assert (2 ^ p = 2 * 2 ^ (p - 1)) as Hpow.
  { replace p with (p - 1 + 1) at 1 by lia.
    rewrite Z.pow_add_r, Z.pow_1_r by lia. lia. }
  pose proof (Z.div_mod M (2 ^ p) ltac:(lia)) as Hdiv.
  pose proof (mod_pow2_succ M (p - 1) ltac:(lia)) as Hmod.
  replace (p - 1 + 1) with p in Hmod by lia.
  pose proof (Z.mod_pos_bound M (2 ^ (p - 1)) Hpos) as Hrem.
  rewrite <- Hr in Hmod. rewrite <- Hm in Hdiv |- *.
  set (H := 2 ^ (p - 1)) in *. set (R := M mod 2 ^ p) in *.
  set (r0 := M mod H) in *. rewrite Hpow in *. clear Hpow Hm Hr.
  assert (s = true ↔ r0 ≠ 0) as Hs' by (rewrite Hs; split; [tauto | lia]).
  clear Hs. simpl.
  destruct r, s; simpl in *; rewrite ?Z.mul_1_r, ?Z.mul_0_r, ?Z.add_0_r in Hmod.
  - assert (r0 ≠ 0) by tauto. lia.
  - assert (r0 = 0) by (destruct (decide (r0 = 0)); [done|]; by destruct Hs' as [_ Hs']; discriminate Hs').
    destruct (Z.even m); lia.
  - assert (r0 ≠ 0) by tauto. lia.
  - assert (r0 = 0) by (destruct (decide (r0 = 0)); [done|]; by destruct Hs' as [_ Hs']; discriminate Hs').
    lia.
Qed.

Lemma digits2_pos_bounds (p : positive) :
  2 ^ (Z.pos (SpecFloat.digits2_pos p) - 1) ≤ Z.pos p
  < 2 ^ Z.pos (SpecFloat.digits2_pos p).
Proof.
  induction p as [p IH|p IH|]; simpl SpecFloat.digits2_pos.
  - rewrite Pos2Z.inj_succ.
    replace (Z.succ (Z.pos (SpecFloat.digits2_pos p)) - 1)
      with (Z.succ (Z.pos (SpecFloat.digits2_pos p) - 1)) by lia.
    rewrite !Z.pow_succ_r by lia. lia.
  - rewrite Pos2Z.inj_succ.
    replace (Z.succ (Z.pos (SpecFloat.digits2_pos p)) - 1)
      with (Z.succ (Z.pos (SpecFloat.digits2_pos p) - 1)) by lia.
    rewrite !Z.pow_succ_r by lia. lia.
  - done.
Qed.

Lemma Qpower_2_pos (e : Z) : (0 < 2 ^ e)%Q.
Proof. by apply Qpower_0_lt. Qed.

Lemma Qpower_2_plus (a b : Z) : (2 ^ (a + b) == 2 ^ a * 2 ^ b)%Q.
Proof. by apply Qpower_plus. Qed.

Lemma inject_Z_pow2 (p : Z) : 0 ≤ p → (inject_Z (2 ^ p) == 2 ^ p)%Q.
Proof. intros Hp. by rewrite Zpower_Qpower. Qed.

Lemma inject_Z_nonneg (z : Z) : 0 ≤ z → (0 <= inject_Z z)%Q.
Proof. intros Hz. change 0%Q with (inject_Z 0). by rewrite <- Zle_Qle. Qed.

Lemma shr_nonpos (mrs : SpecFloat.shr_record) (e n : Z) :
  n ≤ 0 → SpecFloat.shr mrs e n = (mrs, e).
Proof. intros Hn. destruct n; [done | lia | done]. Qed.

(** The rounding of [M * 2 ^ e] to a double: the result is within half a
    unit in the last place of the exact value. *)
Lemma binary_round_aux_value (M : positive) (e : Z) :
  let E := Z.max e (SpecFloat.fexp 53 1024
                      (Z.pos (SpecFloat.digits2_pos M) + e)) in
  E ≤ 970 →
  ∃ v, JS.value (SpecFloat.binary_round_aux 53 1024 false (Z.pos M) e
                   SpecFloat.loc_Exact) = Some v
       ∧ (0 <= v)%Q
       ∧ (E = e → v == inject_Z (Z.pos M) * 2 ^ e)%Q
       ∧ (v - inject_Z (Z.pos M) * 2 ^ e <= 2 ^ (E - 1))%Q
       ∧ (inject_Z (Z.pos M) * 2 ^ e - v <= 2 ^ (E - 1))%Q.
Proof.
  intros E HE.
  pose proof (digits2_pos_bounds M) as [Hdlow Hdhigh].
  set (d := Z.pos (SpecFloat.digits2_pos M)) in *.
  assert (SpecFloat.fexp 53 1024 (d + e) = Z.max (d + e - 53) (-1074)) as Hfexp
    by reflexivity.
  pose proof (inject_Z_nonneg (Z.pos M) ltac:(lia)) as HMQ.
  pose proof (Qpower_2_pos e) as Hpe. pose proof (Qpower_2_pos (E - 1)) as HpE.
  assert (SpecFloat.fexp 53 1024 (d + e) - e ≤ 0 →
          ∃ v, JS.value (SpecFloat.binary_round_aux 53 1024 false (Z.pos M) e
                           SpecFloat.loc_Exact) = Some v
               ∧ (0 <= v)%Q
               ∧ (E = e → v == inject_Z (Z.pos M) * 2 ^ e)%Q
               ∧ (v - inject_Z (Z.pos M) * 2 ^ e <= 2 ^ (E - 1))%Q
               ∧ (inject_Z (Z.pos M) * 2 ^ e - v <= 2 ^ (E - 1))%Q) as Hexact.
  { intros Hn. assert (E = e) as HEe by (unfold E; fold d; lia).
    assert (SpecFloat.binary_round_aux 53 1024 false (Z.pos M) e
              SpecFloat.loc_Exact = SpecFloat.S754_finite false M e) as ->.
    { unfold SpecFloat.binary_round_aux, SpecFloat.shr_fexp.
      change (SpecFloat.Zdigits2 (Z.pos M)) with d.
      rewrite shr_nonpos by done. cbn.
      change (Z.pos (SpecFloat.digits2_pos M)) with d.
      rewrite shr_nonpos by done. cbn.
      by assert ((e <=? 1024 - 53) = true) as -> by lia. }
    eexists. split; [reflexivity|]. split; [nra|]. split; [done|]. split; lra. }
  destruct (decide (SpecFloat.fexp 53 1024 (d + e) - e ≤ 0)) as [Hn|Hn];
    [by apply Hexact|].
  clear Hexact.
  assert (E = SpecFloat.fexp 53 1024 (d + e)) as HEe by (unfold E; fold d; lia).
  set (p := E - e). assert (0 < p) as Hp by lia.
  assert (∃ pp, SpecFloat.fexp 53 1024 (d + e) - e = Z.pos pp ∧ p = Z.pos pp)
    as (pp & Hpp & Hppp).
  { destruct (SpecFloat.fexp 53 1024 (d + e) - e) as [|pp|pp] eqn:Hq; try lia.
    exists pp. split; [done | lia]. }
  unfold SpecFloat.binary_round_aux, SpecFloat.shr_fexp at 1.
  change (SpecFloat.Zdigits2 (Z.pos M)) with d. rewrite Hpp.
  unfold SpecFloat.shr at 1. cbv beta iota.
  pose proof (shifted_iter_pos (Z.pos M) pp ltac:(lia) 0 _ ltac:(lia)
                (shifted_0 (Z.pos M))) as Hshift.
  simpl SpecFloat.shr_record_of_loc.
  set (mrs := SpecFloat.iter_pos SpecFloat.shr_1 pp _) in *.
  replace (0 + Z.pos pp) with p in Hshift by lia.
  destruct (round_shifted (Z.pos M) p mrs ltac:(lia) Hp Hshift)
    as [[Hlow Hhigh] [Herr1 Herr2]].
  set (m' := SpecFloat.round_nearest_even _ _) in *.
  replace (e + Z.pos pp) with E by lia.
  assert (0 < 2 ^ p) as Hpowp by (apply Z.pow_pos_nonneg; lia).
  assert (Z.pos M / 2 ^ p < 2 ^ 53) as Hq.
  { apply Z.div_lt_upper_bound; [lia|]. rewrite <- Z.pow_add_r by lia.
    apply (Z.lt_le_trans _ (2 ^ d)); [done|].
    apply Z.pow_le_mono_r; lia. }
  assert (0 ≤ Z.pos M / 2 ^ p) as Hq0 by (apply Z.div_pos; lia).
  assert (2 ^ (E - 1) == 2 ^ e * (inject_Z (2 ^ p) * (1 # 2)))%Q as HEq.
  { rewrite inject_Z_pow2 by lia.
    replace (E - 1) with (e + (p + -1)) by lia.
    rewrite !Qpower_2_plus. reflexivity. }
  assert (2 ^ E == 2 ^ e * inject_Z (2 ^ p))%Q as HE2.
  { rewrite inject_Z_pow2 by lia. replace E with (e + p) at 1 by lia.
    apply Qpower_2_plus. }
  assert (∀ v, (v == inject_Z m' * 2 ^ E)%Q →
               (0 <= v)%Q
               ∧ (E = e → v == inject_Z (Z.pos M) * 2 ^ e)%Q
               ∧ (v - inject_Z (Z.pos M) * 2 ^ e <= 2 ^ (E - 1))%Q
               ∧ (inject_Z (Z.pos M) * 2 ^ e - v <= 2 ^ (E - 1))%Q) as Hbounds.
  { intros v Hv. rewrite Hv, HEq, HE2.
    rewrite Zle_Qle in Herr1, Herr2.
    unfold Z.sub in Herr1.
    rewrite !inject_Z_plus, !inject_Z_mult in Herr1, Herr2.
    rewrite inject_Z_opp in Herr1.
    change (inject_Z 2) with 2%Q in *.
    pose proof (inject_Z_nonneg m' ltac:(lia)) as Hm'.
    pose proof (inject_Z_nonneg (2 ^ p) ltac:(lia)) as HP.
    set (a := inject_Z (Z.pos M)) in *. set (b := inject_Z m') in *.
    set (P := inject_Z (2 ^ p)) in *. set (T := (2 ^ e)%Q) in *.
    pose proof (Qmult_le_0_compat _ _ Hm' (Qmult_le_0_compat _ _ (Qlt_le_weak _ _ Hpe) HP)).
    assert (0 <= T * (2 * a + P - 2 * (b * P)))%Q
      by (apply Qmult_le_0_compat; lra).
    assert (0 <= T * (2 * (b * P) - (2 * a + - P)))%Q
      by (apply Qmult_le_0_compat; lra).
    split; [done|]. split; [lia|]. split; lra. }
  assert (-1074 ≤ E) as Hemin by lia.
  unfold SpecFloat.shr_fexp.
  change (2 ^ 53) with 9007199254740992 in Hq.
  destruct (decide (m' = 9007199254740992)) as [Hcarry|Hcarry].
  - (* the rounding carries into the next binade *)
    rewrite Hcarry.
    change (SpecFloat.Zdigits2 9007199254740992) with 54.
    assert (SpecFloat.fexp 53 1024 (54 + E) - E = 1) as ->
        by (change (SpecFloat.fexp 53 1024 (54 + E))
              with (Z.max (54 + E - 53) (-1074)); lia).
    cbn. assert ((E + 1 <=? 1024 - 53) = true) as -> by lia.
    eexists. split; [reflexivity|]. apply Hbounds.
    rewrite Hcarry, Qpower_2_plus, Qpower_1_r.
    set (T := (2 ^ E)%Q). unfold inject_Z. ring.
  - assert (m' < 9007199254740992) as Hm' by lia.
    destruct m' as [|m1|m1] eqn:Hm1; [| |lia].
    + change (SpecFloat.Zdigits2 0) with 0.
      assert (SpecFloat.fexp 53 1024 (0 + E) - E ≤ 0) as Hnone
        by (unfold SpecFloat.fexp, SpecFloat.emin; lia).
      rewrite shr_nonpos by exact Hnone.
      cbn. eexists. split; [reflexivity|]. apply Hbounds.
      change (inject_Z 0) with 0%Q. by rewrite Qmult_0_l.
    + pose proof (digits2_pos_bounds m1) as [Hd1 _].
      assert (Z.pos (SpecFloat.digits2_pos m1) ≤ 53) as Hd53.
      { apply Z.nlt_ge. intros Hgt.
        assert (2 ^ 53 ≤ 2 ^ (Z.pos (SpecFloat.digits2_pos m1) - 1)) as Hpow
          by (apply Z.pow_le_mono_r; lia).
        change (2 ^ 53) with 9007199254740992 in Hpow. lia. }
      cbn [SpecFloat.Zdigits2 SpecFloat.shr_record_of_loc].
      assert (SpecFloat.fexp 53 1024 (Z.pos (SpecFloat.digits2_pos m1) + E)
              - E ≤ 0) as Hnone
        by (unfold SpecFloat.fexp, SpecFloat.emin; lia).
      rewrite shr_nonpos by exact Hnone.
      cbn. assert ((E <=? 1024 - 53) = true) as -> by lia.
      eexists. split; [reflexivity|]. apply Hbounds. reflexivity.
Qed.

Lemma Qpower_2_le (a b : Z) : a ≤ b → (2 ^ a <= 2 ^ b)%Q.
Proof. intros Hab. by apply Qpower_le_compat_l. Qed.

(** The product of two positive doubles that stays below [2 ^ k]: it is
    a number, within [2 ^ (k - 54)] of the exact product. *)
Lemma times_error (m mc : positive) (e ec k : Z) :
  let x := (inject_Z (Z.pos m) * 2 ^ e)%Q in
  let c := (inject_Z (Z.pos mc) * 2 ^ ec)%Q in
  (x * c < 2 ^ k)%Q → -1021 ≤ k ≤ 971 →
  ∃ p, JS.value (JS.times (SpecFloat.S754_finite false m e)
                   (SpecFloat.S754_finite false mc ec)) = Some p
       ∧ (0 <= p)%Q
       ∧ (p - x * c <= 2 ^ (k - 54))%Q
       ∧ (x * c - p <= 2 ^ (k - 54))%Q.
Proof.
  intros x c Hk Hrange.
  assert (x * c == inject_Z (Z.pos (m * mc)) * 2 ^ (e + ec))%Q as Hxc.
  { unfold x, c. rewrite Pos2Z.inj_mul, inject_Z_mult, Qpower_2_plus. ring. }
  pose proof (digits2_pos_bounds (m * mc)) as [Hdlow _].
  set (d := Z.pos (SpecFloat.digits2_pos (m * mc))) in *.
  assert (d + (e + ec) ≤ k) as Hd.
  { assert (2 ^ (d - 1 + (e + ec)) < 2 ^ k)%Q as Hlt.
    { eapply Qle_lt_trans; [|exact Hk]. rewrite Hxc, Qpower_2_plus.
      apply Qmult_le_compat_r; [|apply Qlt_le_weak, Qpower_2_pos].
      rewrite <- inject_Z_pow2 by lia. by rewrite <- Zle_Qle. }
    apply Qpower_lt_compat_l_inv in Hlt; [lia | done]. }
  assert (e + ec < k) as He by lia.
  assert (SpecFloat.fexp 53 1024 (d + (e + ec))
          = Z.max (d + (e + ec) - 53) (-1074)) as Hfexp by reflexivity.
  destruct (binary_round_aux_value (m * mc) (e + ec))
    as (p & Hp & H0 & Hexact & Hup & Hdown); [fold d; lia|].
  fold d in Hexact, Hup, Hdown.
  exists p. split; [exact Hp|]. split; [exact H0|]. rewrite Hxc.
  pose proof (Qpower_2_pos (k - 54)) as Hpos.
  destruct (decide (Z.max (e + ec) (SpecFloat.fexp 53 1024 (d + (e + ec)))
                    = e + ec)) as [Hnone|Hround].
  - rewrite (Hexact Hnone). split; lra.
  - assert (2 ^ (Z.max (e + ec) (SpecFloat.fexp 53 1024 (d + (e + ec))) - 1)
            <= 2 ^ (k - 54))%Q by (apply Qpower_2_le; lia).
    split; lra.
Qed.

Lemma literal_100 :
  JS.literal 100 = SpecFloat.S754_finite false 7036874417766400 (-46).
Proof. reflexivity. Qed.

Lemma literal_21 :
  JS.literal 21 = SpecFloat.S754_finite false 5910974510923776 (-48).
Proof. reflexivity. Qed.

Lemma value_positive (m : positive) (e : Z) :
  (0 < inject_Z (Z.pos m) * 2 ^ e)%Q.
Proof.
  apply Qmult_lt_0_compat; [|apply Qpower_2_pos].
  change 0%Q with (inject_Z 0). by rewrite <- Zlt_Qlt.
Qed.

(** A score between 0 and 1 times 100: a number between 0 and 100, up to
    the rounding of the product. *)
Lemma times_100 (score : JS.Number) (q : Q) :
  JS.value score = Some q → (0 <= q)%Q → (q <= 1)%Q →
  ∃ p, JS.value (JS.times score (JS.literal 100)) = Some p
       ∧ (0 <= p)%Q
       ∧ (p - q * 100 <= 2 ^ (-47))%Q
       ∧ (q * 100 - p <= 2 ^ (-47))%Q.
Proof.
  intros Hvalue H0 H1. rewrite literal_100.
  pose proof (Qpower_2_pos (-47)) as Hpos.
  destruct score as [s|s| |s m e]; simpl in Hvalue; [|done|done|].
  - injection Hvalue as <-. exists 0%Q. split; [done|]. split; lra.
  - pose proof (value_positive m e) as Hx.
    destruct s; injection Hvalue as <-; [lra|].
    assert (inject_Z 7036874417766400 * 2 ^ (-46) == 100)%Q as Hc
        by reflexivity.
    destruct (times_error m 7036874417766400 e (-46) 7)
      as (p & Hp & Hp0 & Hup & Hdown); [|lia|].
    { rewrite Hc. change (2 ^ 7)%Q with 128%Q. lra. }
    rewrite Hc in Hup, Hdown. change (7 - 54) with (-47) in Hup, Hdown.
    exists p. done.
Qed.

(** A double that is less than 1 is at most [1 - 2 ^ (-53)]. *)
Lemma double_below_one (m : positive) (e : Z) :
  JS.is_double (SpecFloat.S754_finite false m e) = true →
  (inject_Z (Z.pos m) * 2 ^ e < 1)%Q →
  (inject_Z (Z.pos m) * 2 ^ e <= 1 - 2 ^ (-53))%Q.
Proof.
  intros Hdouble Hlt.
  assert (Z.pos m < 2 ^ 53) as Hm.
  { unfold JS.is_double in Hdouble. simpl in Hdouble.
    apply andb_prop in Hdouble as [Hcanonical _].
    unfold SpecFloat.canonical_mantissa in Hcanonical.
    apply Z.eqb_eq in Hcanonical.
    change (SpecFloat.fexp 53 1024 (Z.pos (SpecFloat.digits2_pos m) + e))
      with (Z.max (Z.pos (SpecFloat.digits2_pos m) + e - 53) (-1074))
      in Hcanonical.
    pose proof (digits2_pos_bounds m) as [_ Hhigh].
    apply (Z.lt_le_trans _ _ _ Hhigh), Z.pow_le_mono_r; lia. }
  pose proof (Qpower_2_pos e) as Hpe.
  destruct (decide (e < -53)) as [Hsmall|Hlarge].
  - (* less than one half *)
    assert (inject_Z (Z.pos m) * 2 ^ e <= 2 ^ 53 * 2 ^ e)%Q as Hle.
    { apply Qmult_le_compat_r; [|lra].
      rewrite <- (inject_Z_pow2 53) by lia. rewrite <- Zle_Qle. lia. }
    rewrite <- Qpower_2_plus in Hle.
    pose proof (Qpower_2_le (53 + e) (-1) ltac:(lia)) as Hhalf.
    change (2 ^ (-1))%Q with (1 # 2) in Hhalf.
    change (2 ^ (-53))%Q with (1 # 9007199254740992). lra.
  - assert (1 == 2 ^ (- e) * 2 ^ e)%Q as Hone.
    { rewrite <- Qpower_2_plus. by replace (- e + e) with 0 by lia. }
    assert (e < 0) as Hneg.
    { apply Z.nle_gt. intros Hpos.
      pose proof (Qpower_2_le 0 e Hpos) as Hge.
      change (2 ^ 0)%Q with 1%Q in Hge.
      assert (1 <= inject_Z (Z.pos m))%Q
        by (change 1%Q with (inject_Z 1); rewrite <- Zle_Qle; lia).
      nra. }
    assert (Z.pos m < 2 ^ (- e)) as Hbound.
    { rewrite Zlt_Qlt, inject_Z_pow2 by lia.
      apply (Qmult_lt_r _ _ (2 ^ e)%Q); [done|]. by rewrite <- Hone. }
    assert (inject_Z (Z.pos m + 1) * 2 ^ e <= 1)%Q as Hnext.
    { rewrite Hone at 1. apply Qmult_le_compat_r; [|lra].
      rewrite <- inject_Z_pow2 by lia. rewrite <- Zle_Qle. lia. }
    rewrite inject_Z_plus in Hnext. change (inject_Z 1) with 1%Q in Hnext.
    pose proof (Qpower_2_le (-53) e ltac:(lia)). lra.
Qed.

(** A double of [0, 1) times 21: a number of [0, 21). *)
Lemma times_21 (random : JS.Number) (r : Q) :
  JS.is_double random = true → JS.value random = Some r →
  (0 <= r)%Q → (r < 1)%Q →
  ∃ p, JS.value (JS.times random (JS.literal 21)) = Some p
       ∧ (0 <= p)%Q ∧ (p < 21)%Q.
Proof.
  intros Hdouble Hvalue H0 H1. rewrite literal_21.
  destruct random as [s|s| |s m e]; simpl in Hvalue; [|done|done|].
  - injection Hvalue as <-. exists 0%Q. split; [done|]. split; lra.
  - pose proof (value_positive m e) as Hx.
    destruct s; injection Hvalue as <-; [lra|].
    pose proof (double_below_one m e Hdouble H1) as Hbelow.
    change (2 ^ (-53))%Q with (1 # 9007199254740992) in Hbelow.
    assert (inject_Z 5910974510923776 * 2 ^ (-48) == 21)%Q as Hc
        by reflexivity.
    destruct (times_error m 5910974510923776 e (-48) 5)
      as (p & Hp & Hp0 & Hup & _); [|lia|].
    { rewrite Hc. change (2 ^ 5)%Q with 32%Q. lra. }
    rewrite Hc in Hup.
    change (2 ^ (5 - 54))%Q with (1 # 562949953421312) in Hup.
    exists p. split; [done|]. split; [done | lra].
Qed.

Lemma Math_round_percent (p : Q) :
  (0 <= p)%Q → (p <= 100 + 2 ^ (-47))%Q → 0 ≤ JS.Math_round p ≤ 100.
Proof.
  intros H0 H1. change (2 ^ (-47))%Q with (1 # 140737488355328) in H1.
  unfold JS.Math_round. split.
  - apply (Z.le_trans _ (Qfloor (1 # 2))); [done|].
    apply Qfloor_resp_le. lra.
  - apply Z.lt_succ_r. rewrite Zlt_Qlt.
    pose proof (Qfloor_le (p + (1 # 2))).
    change (inject_Z (Z.succ 100)) with 101%Q. lra.
Qed.

Lemma mock_score_range (p : Q) :
  (0 <= p)%Q → (p < 21)%Q → 50 ≤ JS.Math_floor p + 50 ≤ 70.
Proof.
  intros H0 H1. unfold JS.Math_floor.
  assert (0 ≤ Qfloor p).
  { apply (Z.le_trans _ (Qfloor 0)); [done|]. by apply Qfloor_resp_le. }
  assert (Qfloor p < 21).
  { rewrite Zlt_Qlt. pose proof (Qfloor_le p).
    change (inject_Z 21) with 21%Q. lra. }
  lia.
Qed.

Lemma analyzeAnswer_failed gateway random question answer c :
  let req :=
    {| Gemini.question := question; Gemini.answer := answer;
       Gemini.jobRole := Some (Session.JobRole_string (Session.jobRole c));
       Gemini.experienceLevel :=
         Some (Session.ExperienceLevel_string (Session.experienceLevel c)) |} in
  (gateway req = Session.AnalyzeThrown
   ∨ ∃ status json, gateway req = Session.AnalyzeResponse status json
                    ∧ Session.ok status = false) →
  fst (Session.analyzeAnswer gateway random question answer c)
  = Session.mockAnalysis random.
Proof.
  intros req Hfail. unfold Session.analyzeAnswer. fold req. simpl.
  destruct Hfail as [-> | (status & json & -> & ->)]; done.
Qed.

(** The answer that [saveAnswer] records carries the score and the
    feedback of the analysis. *)
Lemma saveAnswer_records gateway random answerData s c current :
  Session.config s = Some c →
  Session.questions s !! Session.currentQuestionIndex s = Some current →
  10 < JS.length (JS.trim (Session.ad_text answerData)) →
  let analysis :=
    fst (Session.analyzeAnswer gateway random (Session.q_text current)
           (Session.ad_text answerData) c) in
  ∃ e, Session.findAnswer (Session.ad_questionId answerData)
         (Session.answers
            (fst (Session.saveAnswer gateway random answerData s))) = Some e
       ∧ Session.score e = Session.a_score analysis
       ∧ Session.feedback e = Session.a_feedback analysis
       ∧ Session.weaknesses e
         = Some (default [] (Session.a_weaknesses analysis)).
Proof.
  intros Hc Hq Hlen analysis.
  unfold Session.saveAnswer. rewrite Hc, Hq.
  replace (_ >? 10) with true by lia.
  destruct (JS.truthy (Session.ad_text answerData)) eqn:Ht;
    [|rewrite (trim_falsy _ Ht) in Hlen; lia].
  simpl.
  destruct (upsert_find (Session.analyzedAnswer answerData analysis)
              (Session.answers s)) as (e & He & _ & _ & Hs & Hf & _ & Hw).
  exists e. done.
Qed.

Lemma trim_long_truthy (t : string) :
  10 < JS.length (JS.trim t) → JS.truthy t = true.
Proof.
  intros Hlen. destruct (JS.truthy t) eqn:Ht; [done|].
  rewrite (trim_falsy _ Ht) in Hlen. lia.
Qed.

(** C8. An answer of more than 10 characters after trimming, in a session
    with a configuration and a current question (whose text is not empty
    where the backend is asked), and a value of [Math.random] that is a
    double of [0, 1). When the evaluator service returns a score between 0
    and 1 with a feedback, the backend answers 200 with the double product
    of the score and 100, which is within [2 ^ (-47)] of the exact
    product, rounded to the closest integer, a tie going up; that integer
    is between 0 and 100, and the session records the answer with that
    score and that feedback. When the call of the gateway fails (it
    throws, or the response is not [ok]), the session still records the
    answer, with the score [floor (random * 21) + 50], the product being
    that of doubles, which is between 50 and 70, the feedback "Error
    analyzing your answer with the AI service. This is fallback
    feedback." and the weakness "AI analysis unavailable"; and an
    evaluator service that is down, answers with an error status or with a
    payload that lacks the score or the feedback makes the call fail in
    that way. *)
Theorem scoring_scale_and_fallback
    (random : JS.Number) (r : Q)
    (s : Session.State) (c : Session.InterviewConfig)
    (current : Session.InterviewQuestion) (answerData : Session.AnswerData)
    (Hc : Session.config s = Some c)
    (Hq : Session.questions s !! Session.currentQuestionIndex s = Some current)
    (Hlen : 10 < JS.length (JS.trim (Session.ad_text answerData)))
    (Hdouble : JS.is_double random = true)
    (Hvalue : JS.value random = Some r)
    (Hrandom : (0 <= r)%Q ∧ (r < 1)%Q) :
  let req :=
    {| Gemini.question := Session.q_text current;
       Gemini.answer := Session.ad_text answerData;
       Gemini.jobRole := Some (Session.JobRole_string (Session.jobRole c));
       Gemini.experienceLevel :=
         Some (Session.ExperienceLevel_string (Session.experienceLevel c)) |} in
  let recorded gateway :=
    Session.findAnswer (Session.ad_questionId answerData)
      (Session.answers
         (fst (Session.saveAnswer gateway random answerData s))) in
  (∀ oracle score feedback q,
     Session.q_text current ≠ "" →
     oracle req = Gemini.OracleData (Some score) (Some feedback) →
     JS.value score = Some q →
     (0 <= q)%Q ∧ (q <= 1)%Q →
     ∃ p,
       JS.value (JS.times score (JS.literal 100)) = Some p
       ∧ (p - q * 100 <= 2 ^ (-47))%Q
       ∧ (q * 100 - p <= 2 ^ (-47))%Q
       ∧ let t := JS.Math_round p in
         Gemini.analyze req (oracle req)
         = {| Gemini.code := 200;
              Gemini.body := Gemini.Analysis (Some t) feedback |}
         ∧ 0 ≤ t ≤ 100
         ∧ (inject_Z t - (1 # 2) <= p)%Q
         ∧ (p < inject_Z t + (1 # 2))%Q
         ∧ ∃ e, recorded (Session.viaBackend oracle) = Some e
                ∧ Session.score e = Some t
                ∧ Session.feedback e = Some feedback)
  ∧ (∀ gateway,
       (gateway req = Session.AnalyzeThrown
        ∨ ∃ status json, gateway req = Session.AnalyzeResponse status json
                         ∧ Session.ok status = false) →
       ∃ e k p, recorded gateway = Some e
                ∧ Session.score e = Some k
                ∧ JS.value (JS.times random (JS.literal 21)) = Some p
                ∧ k = JS.Math_floor p + 50
                ∧ 50 ≤ k ≤ 70
                ∧ Session.feedback e
                  = Some "Error analyzing your answer with the AI service. This is fallback feedback."
                ∧ Session.weaknesses e = Some ["AI analysis unavailable"])
  ∧ (∀ oracle,
       Session.q_text current ≠ "" →
       (oracle req = Gemini.OracleDown
        ∨ (∃ score feedback,
             oracle req = Gemini.OracleData score feedback
             ∧ (score = None ∨ feedback = None))
        ∨ (∃ status detail,
             oracle req = Gemini.OracleError status detail
             ∧ Session.ok status = false)) →
       ∃ status json,
         Session.viaBackend oracle req = Session.AnalyzeResponse status json
         ∧ Session.ok status = false).
Proof.
  intros req recorded.
  pose proof (trim_long_truthy _ Hlen) as Hanswer.
  split; [|split].
  - intros oracle score feedback q Hqt%truthy_nonempty Horacle Hscore [H0 H1].
    destruct (times_100 score q Hscore H0 H1) as (p & Hp & Hp0 & Hup & Hdown).
    exists p. split; [done|]. split; [done|]. split; [done|]. intros t.
    assert (Gemini.analyze req (oracle req)
            = {| Gemini.code := 200;
                 Gemini.body := Gemini.Analysis (Some t) feedback |}) as Hbackend.
    { unfold Gemini.analyze. rewrite Horacle.
      change (JS.truthy (Gemini.question req))
        with (JS.truthy (Session.q_text current)).
      change (JS.truthy (Gemini.answer req))
        with (JS.truthy (Session.ad_text answerData)).
      rewrite Hqt, Hanswer. cbn [negb orb]. unfold JS.Math_round_number.
      by rewrite Hp. }
    split; [done|]. split; [apply Math_round_percent; lra|].
    destruct (Math_round_bounds p) as [Hlow Hhigh].
    split; [done|]. split; [done|].
    destruct (saveAnswer_records (Session.viaBackend oracle) random
                answerData s c current Hc Hq Hlen) as (e & He & Hs & Hf & _).
    exists e. split; [done|].
    unfold Session.analyzeAnswer, Session.viaBackend in Hs, Hf.
    fold req in Hs, Hf. rewrite Hbackend in Hs, Hf. done.
  - intros gateway Hfail.
    pose proof (analyzeAnswer_failed gateway random (Session.q_text current)
                  (Session.ad_text answerData) c Hfail) as Hmock.
    destruct (saveAnswer_records gateway random answerData s c current
                Hc Hq Hlen) as (e & He & Hs & Hf & Hw).
    rewrite Hmock in Hs, Hf, Hw.
    destruct Hrandom as [H0 H1].
    destruct (times_21 random r Hdouble Hvalue H0 H1) as (p & Hp & Hp0 & Hp21).
    exists e, (JS.Math_floor p + 50), p.
    split; [done|]. split.
    { rewrite Hs. unfold Session.mockAnalysis, JS.Math_floor_number.
      cbn [Session.a_score]. by rewrite Hp. }
    split; [done|]. split; [done|].
    split; [by apply mock_score_range|]. split; done.
  - intros oracle Hqt%truthy_nonempty Hfail.
    unfold Session.viaBackend, Gemini.analyze.
    change (JS.truthy (Gemini.question req))
      with (JS.truthy (Session.q_text current)).
    change (JS.truthy (Gemini.answer req))
      with (JS.truthy (Session.ad_text answerData)).
    rewrite Hqt, Hanswer. simpl.
    destruct Hfail as [-> | [(score & feedback & -> & Hmissing)
                            | (status & detail & -> & Hstatus)]].
    + eexists _, _. split; [reflexivity | done].
    + destruct Hmissing as [-> | ->]; [|destruct score];
        (eexists _, _; split; [reflexivity | done]).
    + destruct (status =? 0) eqn:H0;
        (eexists _, _; split; [reflexivity | done]).
Qed.

(** The first question of the example session, with [Math.random] at the
    double 4289142502257615 / 2 ^ 52. The evaluator service gives 0.9
    and the recorded score is 90; it gives 0.285, whose double is below
    it, and the recorded score is 28; it gives 0.015, whose product with
    100 is the double 1.5, and the recorded score is 2. With a gateway
    that throws the recorded score is 70, the product with 21 being the
    double 20. *)
Lemma scoring_scale_and_fallback_witness :
  let answerData :=
    Examples.answerTo "Q1" "A function together with its scope." in
  let recorded gateway :=
    Session.findAnswer "Q1"
      (Session.answers
         (fst (Session.saveAnswer gateway Examples.nearOne answerData
                 Examples.started))) in
  (∃ e, recorded (Session.viaBackend Examples.oracle) = Some e
        ∧ Session.score e = Some 90)
  ∧ (∃ e, recorded (Session.viaBackend (Examples.constant Examples.d0_285))
          = Some e
          ∧ Session.score e = Some 28)
  ∧ (∃ e, recorded (Session.viaBackend (Examples.constant Examples.d0_015))
          = Some e
          ∧ Session.score e = Some 2)
  ∧ (∃ e, recorded (λ _, Session.AnalyzeThrown) = Some e
          ∧ Session.score e = Some 70).
Proof.
  intros answerData recorded.
  destruct (scoring_scale_and_fallback Examples.nearOne
              (inject_Z 8578285004515230 * 2 ^ (-53))%Q Examples.started
              Examples.webMid
              {| Session.id := "Q1"; Session.q_text := "What is a closure?" |}
              answerData)
    as (Hok & Hfail & _);
    [reflexivity | reflexivity | reflexivity | reflexivity | reflexivity
    | split; vm_compute; [discriminate | reflexivity] |].
  split; [|split; [|split]].
  - destruct (Hok Examples.oracle Examples.d0_9 "Clear and complete."
                (inject_Z 8106479329266893 * 2 ^ (-53))%Q
                ltac:(discriminate) eq_refl eq_refl)
      as (p & [= <-] & _ & _ & _ & _ & _ & _ & e & He & Hs & _);
      [split; vm_compute; discriminate|].
    exists e. split; [exact He | exact Hs].
  - destruct (Hok (Examples.constant Examples.d0_285) Examples.d0_285
                "Noted." (inject_Z 5134103575202365 * 2 ^ (-54))%Q
                ltac:(discriminate) eq_refl eq_refl)
      as (p & [= <-] & _ & _ & _ & _ & _ & _ & e & He & Hs & _);
      [split; vm_compute; discriminate|].
    exists e. split; [exact He | exact Hs].
  - destruct (Hok (Examples.constant Examples.d0_015) Examples.d0_015
                "Noted." (inject_Z 8646911284551352 * 2 ^ (-59))%Q
                ltac:(discriminate) eq_refl eq_refl)
      as (p & [= <-] & _ & _ & _ & _ & _ & _ & e & He & Hs & _);
      [split; vm_compute; discriminate|].
    exists e. split; [exact He | exact Hs].
  - destruct (Hfail (λ _, Session.AnalyzeThrown))
      as (e & k & p & He & Hs & [= <-] & -> & _);
      [left; reflexivity|].
    exists e. split; [exact He | exact Hs].
Defined.

(** * Further properties of the session *)

(** ** The current question *)

Lemma sessionConfig_None options s :
  Session.sessionConfig options s = None → Session.config s = None.
Proof.
  unfold Session.sessionConfig.
  destruct (options ≫= Session.o_jobRole);
    destruct (options ≫= Session.o_experienceLevel); done.
Qed.

(** A session without a configuration has at most one question and is at
    its first one; in every session the index is 0 or that of a
    question. *)
Lemma step_index s s' :
  Session.step s s' →
  ((Session.config s = None →
    Session.currentQuestionIndex s = 0%nat
    ∧ (length (Session.questions s) ≤ 1)%nat)
   ∧ (Session.currentQuestionIndex s = 0%nat
      ∨ (Session.currentQuestionIndex s < length (Session.questions s))%nat)) →
  (Session.config s' = None →
   Session.currentQuestionIndex s' = 0%nat
   ∧ (length (Session.questions s') ≤ 1)%nat)
  ∧ (Session.currentQuestionIndex s' = 0%nat
     ∨ (Session.currentQuestionIndex s' < length (Session.questions s'))%nat).
Proof.
  intros Hstep [Hnone Hidx].
  destruct Hstep as [c s|env options s|s|s|g rnd ad s|now s].
  - simpl. split; [done | done].
  - unfold Session.startInterview.
    destruct (Session.sessionConfig options s) as [c|] eqn:Hc.
    + destruct (match options ≫= Session.o_mediaStream with
                | Some _ => _ | None => _ end).
      simpl. split; [done | by left].
    + apply sessionConfig_None in Hc. destruct (Hnone Hc) as [H0 _].
      simpl. split; [intros _; split; [done | lia] | by left].
  - unfold Session.nextQuestion.
    destruct (_ <? _) eqn:Hlt; [|done]. simpl. split.
    + intros Hc. destruct (Hnone Hc). lia.
    + right. lia.
  - unfold Session.previousQuestion.
    destruct (_ >? _) eqn:Hgt; [|done]. simpl. split.
    + intros Hc. destruct (Hnone Hc). lia.
    + right. lia.
  - unfold Session.saveAnswer.
    destruct (Session.config s) as [c|] eqn:Hc; [|simpl; by rewrite ?Hc].
    destruct (Session.questions s !! Session.currentQuestionIndex s);
      [|simpl; rewrite Hc; done].
    destruct (JS.truthy _ && _).
    + destruct (Session.analyzeAnswer _ _ _ _ _). simpl. by rewrite Hc.
    + simpl. by rewrite Hc.
  - simpl. split; [|by left].
    intros Hc. destruct (Hnone Hc). done.
Qed.

(** X1. In every session that the operations produce, the index of the
    current question is 0 or the index of a question, so that a session
    with questions always has a current question. *)
Theorem reachable_current_question (s : Session.State)
    (Hreach : Session.reachable s) :
  (Session.currentQuestionIndex s = 0%nat
   ∨ (Session.currentQuestionIndex s < length (Session.questions s))%nat)
  ∧ (Session.questions s ≠ [] →
     is_Some (Session.questions s !! Session.currentQuestionIndex s)).
Proof.
  assert (Session.currentQuestionIndex s = 0%nat
          ∨ (Session.currentQuestionIndex s < length (Session.questions s))%nat)
    as Hidx.
  { unfold Session.reachable in Hreach.
    apply (rtc_ind_r (R := Session.step)
             (λ s, (Session.config s = None →
                    Session.currentQuestionIndex s = 0%nat
                    ∧ (length (Session.questions s) ≤ 1)%nat)
                   ∧ (Session.currentQuestionIndex s = 0%nat
                      ∨ (Session.currentQuestionIndex s
                         < length (Session.questions s))%nat))
             Session.initial); [| |done].
    - simpl. split; [intros _; split; [done | lia] | by left].
    - intros y z _ Hstep IH. by apply (step_index y z). }
  split; [done|]. intros Hne.
  apply lookup_lt_is_Some. destruct Hidx as [-> | ?]; [|done].
  destruct (Session.questions s); [done | simpl; lia].
Qed.

Lemma reachable_current_question_witness :
  Session.currentQuestionIndex Examples.atThird = 2%nat
  ∧ is_Some (Session.questions Examples.atThird
               !! Session.currentQuestionIndex Examples.atThird).
Proof.
  split; [reflexivity|].
  apply (reachable_current_question Examples.atThird); [|discriminate].
  unfold Session.reachable.
  eapply rtc_l;
    [apply (Session.step_startInterview Examples.online
              (Some Examples.scheduledOptions))|].
  eapply rtc_l;
    [apply (Session.step_saveAnswer (Session.viaBackend Examples.oracle) Examples.half
              (Examples.answerTo "Q1" "A function together with its scope."))|].
  eapply rtc_l; [apply Session.step_nextQuestion|].
  eapply rtc_l; [apply Session.step_nextQuestion|].
  apply rtc_refl.
Defined.

(** X2. With the index at a question, [nextQuestion] moves it by one but
    not past the last question and [previousQuestion] moves it back by
    one but not before the first; they touch nothing else, and each
    undoes the other away from the two ends. *)
Theorem navigation_clamped (s : Session.State)
    (Hidx : (Session.currentQuestionIndex s < length (Session.questions s))%nat) :
  Session.currentQuestionIndex (Session.nextQuestion s)
  = Nat.min (Session.currentQuestionIndex s + 1)
            (length (Session.questions s) - 1)
  ∧ Session.currentQuestionIndex (Session.previousQuestion s)
    = (Session.currentQuestionIndex s - 1)%nat
  ∧ Session.nextQuestion s
    = Session.set_currentQuestionIndex
        (Session.currentQuestionIndex (Session.nextQuestion s)) s
  ∧ Session.previousQuestion s
    = Session.set_currentQuestionIndex
        (Session.currentQuestionIndex (Session.previousQuestion s)) s
  ∧ ((Session.currentQuestionIndex s + 1 < length (Session.questions s))%nat →
     Session.previousQuestion (Session.nextQuestion s) = s)
  ∧ ((0 < Session.currentQuestionIndex s)%nat →
     Session.nextQuestion (Session.previousQuestion s) = s).
Proof.
  destruct s as [c qs i ans res inp cmp ms lq mse im hr]. simpl in Hidx.
  unfold Session.nextQuestion, Session.previousQuestion,
    Session.set_currentQuestionIndex. simpl.
  split; [|split; [|split; [|split; [|split]]]].
  - destruct (Z.of_nat i <? Z.of_nat (length qs) - 1) eqn:Hnext; simpl; lia.
  - destruct (Z.of_nat i >? 0) eqn:Hprev; simpl; lia.
  - by destruct (Z.of_nat i <? Z.of_nat (length qs) - 1).
  - by destruct (Z.of_nat i >? 0).
  - intros Hlt.
    replace (Z.of_nat i <? Z.of_nat (length qs) - 1) with true by lia.
    assert ((Z.of_nat (i + 1) >? 0) = true) as Hback
      by (apply Z.gtb_lt; lia).
    simpl. rewrite Hback. f_equal. lia.
  - intros Hpos. replace (Z.of_nat i >? 0) with true by lia.
    assert ((Z.of_nat (i - 1) <? Z.of_nat (length qs) - 1) = true) as Hforth
      by (apply Z.ltb_lt; lia).
    simpl. rewrite Hforth. f_equal. lia.
Qed.

Lemma navigation_clamped_witness :
  Session.currentQuestionIndex (Session.nextQuestion Examples.atThird) = 2%nat
  ∧ Session.nextQuestion (Session.previousQuestion Examples.atThird)
    = Examples.atThird.
Proof.
  destruct (navigation_clamped Examples.atThird) as (Hn & _ & _ & _ & _ & Hb);
    [vm_compute; lia|].
  split; [rewrite Hn; reflexivity|]. apply Hb. vm_compute. lia.
Defined.

(** ** One answer for each question identifier *)

Lemma questionId_upsert (final : Session.InterviewAnswer)
    (prev : list Session.InterviewAnswer) :
  (Session.questionId final ∈ (Session.questionId <$> prev)
   ∧ (Session.questionId <$> Session.upsert final prev)
     = (Session.questionId <$> prev))
  ∨ ((Session.questionId final ∉ (Session.questionId <$> prev))
     ∧ (Session.questionId <$> Session.upsert final prev)
       = ((Session.questionId <$> prev) ++ [Session.questionId final])).
Proof.
  destruct (upsert_shape final prev)
    as [(i & old & Hi & Hq & -> & _) | [Hnone ->]].
  - left. split.
    + rewrite <- Hq. apply list_elem_of_fmap. exists old. split; [done|].
      apply list_elem_of_lookup. eauto.
    + rewrite list_fmap_insert. simpl. apply list_insert_id.
      by rewrite list_lookup_fmap, Hi, <- Hq.
  - right. split.
    + intros (a & Ha & Hin)%list_elem_of_fmap. by apply (Hnone a).
    + by rewrite fmap_app.
Qed.

Lemma NoDup_questionId_upsert final prev :
  NoDup (Session.questionId <$> prev) →
  NoDup (Session.questionId <$> Session.upsert final prev).
Proof.
  intros Hnd. destruct (questionId_upsert final prev) as [[_ ->] | [Hn ->]];
    [done|].
  apply NoDup_app. split; [done|]. split; [|apply NoDup_singleton].
  intros x Hx ->%list_elem_of_singleton. done.
Qed.

Lemma step_answers_unique s s' :
  Session.step s s' →
  NoDup (Session.questionId <$> Session.answers s) →
  NoDup (Session.questionId <$> Session.answers s').
Proof.
  intros Hstep Hnd.
  destruct Hstep as [c s|env options s|s|s|g rnd ad s|now s].
  - done.
  - unfold Session.startInterview.
    destruct (Session.sessionConfig options s); [|simpl; constructor].
    destruct (match options ≫= Session.o_mediaStream with
              | Some _ => _ | None => _ end). simpl. constructor.
  - unfold Session.nextQuestion. by destruct (_ <? _).
  - unfold Session.previousQuestion. by destruct (_ >? _).
  - unfold Session.saveAnswer.
    destruct (Session.config s) as [c|]; [|done].
    destruct (Session.questions s !! Session.currentQuestionIndex s); [|done].
    destruct (JS.truthy _ && _).
    + destruct (Session.analyzeAnswer _ _ _ _ _). simpl.
      by apply NoDup_questionId_upsert.
    + simpl. by apply NoDup_questionId_upsert.
  - done.
Qed.

Lemma NoDup_fmap_eq {A B} (f : A → B) (l : list A) x y :
  NoDup (f <$> l) → x ∈ l → y ∈ l → f x = f y → x = y.
Proof.
  induction l as [|z l IH]; simpl; [by intros _ ?%elem_of_nil|].
  intros [Hz Hnd]%NoDup_cons [->|Hx]%elem_of_cons [->|Hy]%elem_of_cons Hf.
  - done.
  - exfalso. apply Hz. rewrite Hf. by apply list_elem_of_fmap_2.
  - exfalso. apply Hz. rewrite <- Hf. by apply list_elem_of_fmap_2.
  - by apply IH.
Qed.

(** X3. In every session that the operations produce, no two recorded
    answers have the same question identifier, so that the lookup of an
    answer by the identifier of its question finds that very answer. *)
Theorem reachable_answers_unique (s : Session.State)
    (Hreach : Session.reachable s) :
  NoDup (Session.questionId <$> Session.answers s)
  ∧ (∀ a, a ∈ Session.answers s →
          Session.findAnswer (Session.questionId a) (Session.answers s)
          = Some a).
Proof.
  assert (NoDup (Session.questionId <$> Session.answers s)) as Hnd.
  { unfold Session.reachable in Hreach.
    apply (rtc_ind_r (R := Session.step)
             (λ s, NoDup (Session.questionId <$> Session.answers s))
             Session.initial); [constructor | | done].
    intros y z _ Hstep IH. by apply (step_answers_unique y z). }
  split; [done|]. intros a Ha.
  destruct (Session.findAnswer _ _) as [a'|] eqn:Hfind.
  - apply findAnswer_Some in Hfind as [Ha' Hq]. f_equal.
    by apply (NoDup_fmap_eq Session.questionId (Session.answers s)).
  - by destruct (findAnswer_None _ _ Hfind a Ha).
Qed.

Lemma reachable_answers_unique_witness :
  Session.questionId <$> Session.answers Examples.answered13 = ["Q1"; "Q3"]
  ∧ NoDup (Session.questionId <$> Session.answers Examples.answered13).
Proof.
  split; [reflexivity|].
  apply (reachable_answers_unique Examples.answered13).
  unfold Session.reachable.
  eapply rtc_l;
    [apply (Session.step_startInterview Examples.online
              (Some Examples.scheduledOptions))|].
  eapply rtc_l;
    [apply (Session.step_saveAnswer (Session.viaBackend Examples.oracle) Examples.half
              (Examples.answerTo "Q1" "A function together with its scope."))|].
  eapply rtc_l; [apply Session.step_nextQuestion|].
  eapply rtc_l; [apply Session.step_nextQuestion|].
  eapply rtc_l;
    [apply (Session.step_saveAnswer (Session.viaBackend Examples.oracle) Examples.half
              (Examples.answerTo "Q3" "Declarations are moved to the top."))|].
  apply rtc_refl.
Defined.

(** ** The aggregation of a session that can be reached *)

Lemma reachable_answers_NoDup (s : Session.State) :
  Session.reachable s → NoDup (Session.questionId <$> Session.answers s).
Proof.
  intros Hreach. unfold Session.reachable in Hreach.
  apply (rtc_ind_r (R := Session.step)
           (λ s, NoDup (Session.questionId <$> Session.answers s))
           Session.initial); [constructor | | done].
  intros y z _ Hstep IH. by apply (step_answers_unique y z).
Qed.

(** C4. A session that the operations have produced and that has at least
    one recorded answer gets a result when it is finished. The result has
    one entry for each question, in the order of the questions, with the
    identifier and the text of the question. The entry of a question for
    which an answer is recorded keeps the text, the recording, the score,
    the feedback, the strengths and the weaknesses of that answer; the
    entry of a question for which none is recorded has the text
    "Skipped", the score 0, the feedback "This question was skipped." and
    no strength or weakness. The total score is 0 when no recorded
    answer has a score, and otherwise the integer [t] with
    [t - 1/2 ≤ mean < t + 1/2] for the mean of the scores that are
    defined. *)
Theorem finishInterview_aggregates
    (now : Z) (s : Session.State)
    (Hreach : Session.reachable s)
    (Hanswers : Session.answers s ≠ []) :
  ∃ r,
    Session.result (Session.finishInterview now s) = Some r
    ∧ length (Session.r_answers r) = length (Session.questions s)
    ∧ (∀ i q, Session.questions s !! i = Some q →
         ∃ e, Session.r_answers r !! i = Some e
              ∧ Session.questionId e = Session.id q
              ∧ Session.questionText e = Some (Session.q_text q)
              ∧ (∀ a, a ∈ Session.answers s →
                      Session.questionId a = Session.id q →
                      Session.text e = Session.text a
                      ∧ Session.audioUrl e = Session.audioUrl a
                      ∧ Session.score e = Session.score a
                      ∧ Session.feedback e = Session.feedback a
                      ∧ Session.strengths e = Session.strengths a
                      ∧ Session.weaknesses e = Session.weaknesses a)
              ∧ ((∀ a, a ∈ Session.answers s →
                       Session.questionId a ≠ Session.id q) →
                 Session.text e = "Skipped"
                 ∧ Session.audioUrl e = None
                 ∧ Session.score e = Some 0
                 ∧ Session.feedback e = Some "This question was skipped."
                 ∧ Session.strengths e = Some []
                 ∧ Session.weaknesses e = Some []))
    ∧ (let scores := omap Session.score (Session.answers s) in
       let n := Z.of_nat (length scores) in
       (scores = [] → Session.totalScore r = 0)
       ∧ (scores ≠ [] →
          n * (2 * Session.totalScore r - 1) ≤ 2 * Spec.sum scores
          ∧ 2 * Spec.sum scores < n * (2 * Session.totalScore r + 1))).
Proof.
  pose proof (reachable_answers_config s Hreach Hanswers) as Hconfig.
  pose proof (reachable_answers_NoDup s Hreach) as Hnd.
  exists (Session.resultToSave now s). split; [|split; [|split]].
  - simpl. rewrite bool_decide_eq_true_2 by done.
    destruct (Session.answers s); [done|]. done.
  - simpl. unfold Session.finalAnswers. apply length_fmap.
  - intros i q Hq. eexists. split.
    { simpl. unfold Session.finalAnswers. by rewrite list_lookup_fmap, Hq. }
    destruct (Session.findAnswer (Session.id q) (Session.answers s))
      as [found|] eqn:Hfind.
    + apply findAnswer_Some in Hfind as [Hin Hid].
      split; [done|]. split; [done|]. split.
      * intros a Ha Haq.
        assert (a = found) as ->; [|done].
        apply (NoDup_fmap_eq Session.questionId (Session.answers s));
          [done | done | done | congruence].
      * intros Hnone. by destruct (Hnone found Hin).
    + split; [done|]. split; [done|]. split; [|done].
      intros a Ha Haq. by destruct (findAnswer_None _ _ Hfind a Ha).
  - intros scores n. simpl. unfold Session.computeTotalScore.
    rewrite length_answersWithScores. fold scores. fold n.
    unfold Session.sumScores. rewrite sumScores_defined. fold scores.
    split.
    + intros Hnil. unfold n. by rewrite Hnil.
    + intros Hne. assert (0 < n) as Hn.
      { unfold n. destruct scores; [done | simpl; lia]. }
      replace (0 <? n) with true by lia.
      replace (0 + Spec.sum scores) with (Spec.sum scores) by lia.
      apply (Math_round_ratio_bounds (Spec.sum scores) n Hn).
Qed.

(** The session of the questions Q1, Q2 and Q3 in which Q1 was answered
    with score 90 and Q3 with score 70: the total score is 80, Q1 and Q3
    are in the result with their answers and their scores, and Q2 is in
    it as "Skipped" with score 0. *)
Lemma finishInterview_aggregates_witness :
  ∃ r,
    Session.result (Session.finishInterview 0 Examples.answered13) = Some r
    ∧ Session.totalScore r = 80
    ∧ (∃ e, Session.r_answers r !! 0%nat = Some e
            ∧ Session.questionId e = "Q1"
            ∧ Session.text e = "A function together with its scope."
            ∧ Session.score e = Some 90)
    ∧ (∃ e, Session.r_answers r !! 1%nat = Some e
            ∧ Session.questionId e = "Q2"
            ∧ Session.text e = "Skipped"
            ∧ Session.score e = Some 0)
    ∧ (∃ e, Session.r_answers r !! 2%nat = Some e
            ∧ Session.questionId e = "Q3"
            ∧ Session.text e = "Declarations are moved to the top."
            ∧ Session.score e = Some 70).
Proof.
  assert (Session.reachable Examples.answered13) as Hreach.
  { unfold Session.reachable.
    eapply rtc_l;
      [apply (Session.step_startInterview Examples.online
                (Some Examples.scheduledOptions))|].
    eapply rtc_l;
      [apply (Session.step_saveAnswer (Session.viaBackend Examples.oracle)
                Examples.half
                (Examples.answerTo "Q1" "A function together with its scope."))|].
    eapply rtc_l; [apply Session.step_nextQuestion|].
    eapply rtc_l; [apply Session.step_nextQuestion|].
    eapply rtc_l;
      [apply (Session.step_saveAnswer (Session.viaBackend Examples.oracle)
                Examples.half
                (Examples.answerTo "Q3" "Declarations are moved to the top."))|].
    apply rtc_refl. }
  destruct (finishInterview_aggregates 0 Examples.answered13 Hreach)
    as (r & Hres & _ & Hq & Htot); [discriminate|].
  assert (∃ a1 a3, Session.answers Examples.answered13 = [a1; a3]
                   ∧ Session.questionId a1 = "Q1"
                   ∧ Session.text a1 = "A function together with its scope."
                   ∧ Session.score a1 = Some 90
                   ∧ Session.questionId a3 = "Q3"
                   ∧ Session.text a3 = "Declarations are moved to the top."
                   ∧ Session.score a3 = Some 70)
    as (a1 & a3 & Hlist & Hid1 & Htext1 & Hscore1 & Hid3 & Htext3 & Hscore3)
    by (eexists _, _; split; [reflexivity|]; repeat split).
  exists r. split; [exact Hres|]. split; [|split; [|split]].
  - assert (omap Session.score (Session.answers Examples.answered13)
            = [90; 70]) as Hscores by reflexivity.
    rewrite Hscores in Htot.
    destruct Htot as [_ [Hlow Hhigh]]; [discriminate|].
    simpl in Hlow, Hhigh. lia.
  - destruct (Hq 0%nat {| Session.id := "Q1";
                          Session.q_text := "What is a closure?" |})
      as (e & He & Hid & _ & Hkept & _); [reflexivity|].
    destruct (Hkept a1) as (Htext & _ & Hscore & _);
      [rewrite Hlist, elem_of_cons; by left | by rewrite Hid1 |].
    exists e. split; [exact He|]. split; [exact Hid|].
    split; [by rewrite Htext | by rewrite Hscore].
  - destruct (Hq 1%nat {| Session.id := "Q2";
                          Session.q_text := "What is a promise?" |})
      as (e & He & Hid & _ & _ & Hskipped); [reflexivity|].
    destruct Hskipped as (Htext & _ & Hscore & _).
    { intros a. rewrite Hlist.
      intros [->|[->|[]%elem_of_nil]%elem_of_cons]%elem_of_cons;
        [by rewrite Hid1 | by rewrite Hid3]. }
    exists e. split; [exact He|]. split; [exact Hid|]. done.
  - destruct (Hq 2%nat {| Session.id := "Q3";
                          Session.q_text := "What is hoisting?" |})
      as (e & He & Hid & _ & Hkept & _); [reflexivity|].
    destruct (Hkept a3) as (Htext & _ & Hscore & _);
      [rewrite Hlist, !elem_of_cons; right; by left | by rewrite Hid3 |].
    exists e. split; [exact He|]. split; [exact Hid|].
    split; [by rewrite Htext | by rewrite Hscore].
Defined.


(** The same session, evaluated. *)
Example finishInterview_Q1_Q3 :
  (Session.totalScore <$>
     Session.result (Session.finishInterview 0 Examples.answered13)) = Some 80
  ∧ ((λ r, (λ e, (Session.questionId e, Session.text e, Session.score e))
             <$> Session.r_answers r)
       <$> Session.result (Session.finishInterview 0 Examples.answered13))
    = Some [ ("Q1", "A function together with its scope.", Some 90);
             ("Q2", "Skipped", Some 0);
             ("Q3", "Declarations are moved to the top.", Some 70) ].
Proof. split; reflexivity. Qed.

(** ** Saving an answer again *)

Lemma spread_spread old new :
  Session.spread (Session.spread old new) new = Session.spread old new.
Proof.
  unfold Session.spread. simpl.
  by destruct (Session.audioUrl new), (Session.questionText new).
Qed.

Lemma spread_self a : Session.spread a a = a.
Proof.
  destruct a as [q t u sc f st w qt]. unfold Session.spread. simpl.
  by destruct u, qt.
Qed.

Lemma list_find_upsert (final : Session.InterviewAnswer)
    (prev : list Session.InterviewAnswer) :
  ∃ i e, list_find (λ a, Session.questionId a = Session.questionId final)
           (Session.upsert final prev) = Some (i, e)
         ∧ Session.upsert final prev !! i = Some e
         ∧ Session.spread e final = e.
Proof.
  unfold Session.upsert.
  destruct (list_find _ prev) as [[i old]|] eqn:Hfind.
  - apply list_find_Some in Hfind as (Hi & Hq & Hbefore).
    assert (<[i:=Session.spread old final]> prev !! i
            = Some (Session.spread old final)) as Hlook.
    { apply list_lookup_insert_eq. by eapply lookup_lt_Some. }
    exists i, (Session.spread old final).
    split; [|split; [done | apply spread_spread]].
    apply list_find_Some. split; [done|]. split; [done|].
    intros j y Hj Hlt. rewrite list_lookup_insert_ne in Hj by lia.
    by eapply Hbefore.
  - apply list_find_None in Hfind.
    assert ((prev ++ [final]) !! length prev = Some final) as Hlook.
    { by rewrite lookup_app_r, Nat.sub_diag. }
    exists (length prev), final.
    split; [|split; [done | apply spread_self]].
    apply list_find_Some. split; [done|]. split; [done|].
    intros j y Hj Hlt. rewrite lookup_app_l in Hj by done.
    apply (proj1 (Forall_forall _ _) Hfind). apply list_elem_of_lookup. eauto.
Qed.

Lemma upsert_idempotent final prev :
  Session.upsert final (Session.upsert final prev) = Session.upsert final prev.
Proof.
  destruct (list_find_upsert final prev) as (i & e & Hfind & Hi & Hspread).
  unfold Session.upsert at 1. rewrite Hfind, Hspread.
  by apply list_insert_id.
Qed.

(** In a session with a configuration and a current question, what is
    recorded and what is sent depend on the answer, the configuration and
    the question alone. *)
Lemma saveAnswer_shape gateway random answerData c current :
  ∃ final calls,
    Session.questionId final = Session.ad_questionId answerData
    ∧ ∀ s, Session.config s = Some c →
           Session.questions s !! Session.currentQuestionIndex s
           = Some current →
           Session.saveAnswer gateway random answerData s
           = (Session.set_answers
                (Session.upsert final (Session.answers s)) s, calls).
Proof.
  destruct (JS.truthy (Session.ad_text answerData)
            && (JS.length (JS.trim (Session.ad_text answerData)) >? 10))
    eqn:Hgate.
  - destruct (Session.analyzeAnswer gateway random (Session.q_text current)
                (Session.ad_text answerData) c) as [analysis calls] eqn:Ha.
    exists (Session.analyzedAnswer answerData analysis), calls.
    split; [done|]. intros s Hc Hq.
    unfold Session.saveAnswer. by rewrite Hc, Hq, Hgate, Ha.
  - exists (Session.unanalyzedAnswer answerData), [].
    split; [done|]. intros s Hc Hq.
    unfold Session.saveAnswer. by rewrite Hc, Hq, Hgate.
Qed.

(** X4. Saving the same answer a second time, with the same analysis,
    leaves the session as the first saving left it: the entry of the
    question is written over itself and no entry is added. *)
Theorem saveAnswer_idempotent
    (gateway : Gemini.AnalyzeRequest → Session.AnalyzeOutcome)
    (random : JS.Number)
    (answerData : Session.AnswerData) (s : Session.State) :
  let once := Session.saveAnswer gateway random answerData s in
  Session.saveAnswer gateway random answerData (fst once)
  = (fst once, snd once).
Proof.
  intros once.
  destruct (Session.config s) as [c|] eqn:Hc.
  - destruct (Session.questions s !! Session.currentQuestionIndex s)
      as [current|] eqn:Hq.
    + destruct (saveAnswer_shape gateway random answerData c current)
        as (final & calls & _ & Hshape).
      unfold once. rewrite (Hshape s Hc Hq). simpl.
      rewrite Hshape by done. unfold Session.set_answers. simpl.
      by rewrite upsert_idempotent.
    + assert (once = (s, [])) as ->
          by (apply saveAnswer_guard; by right).
      simpl. apply saveAnswer_guard. by right.
  - assert (once = (s, [])) as -> by (apply saveAnswer_guard; by left).
    simpl. apply saveAnswer_guard. by left.
Qed.

(** X5. Saving an answer never removes or reorders the recorded answers
    of other questions: the list keeps its length or grows by one, and
    every recorded answer to another question is still recorded. *)
Theorem saveAnswer_keeps_others
    (gateway : Gemini.AnalyzeRequest → Session.AnalyzeOutcome)
    (random : JS.Number)
    (answerData : Session.AnswerData) (s : Session.State) :
  let after := fst (Session.saveAnswer gateway random answerData s) in
  (length (Session.answers after) = length (Session.answers s)
   ∨ length (Session.answers after) = S (length (Session.answers s)))
  ∧ (∀ i a, Session.answers s !! i = Some a →
            Session.questionId a ≠ Session.ad_questionId answerData →
            Session.answers after !! i = Some a)
  ∧ Session.questions after = Session.questions s
  ∧ Session.currentQuestionIndex after = Session.currentQuestionIndex s
  ∧ Session.result after = Session.result s.
Proof.
  intros after.
  assert (after = s
          ∨ ∃ final, Session.questionId final = Session.ad_questionId answerData
                     ∧ after = Session.set_answers
                                 (Session.upsert final (Session.answers s)) s)
    as [-> | (final & Hid & ->)].
  { unfold after, Session.saveAnswer.
    destruct (Session.config s) as [c|]; [|by left].
    destruct (Session.questions s !! Session.currentQuestionIndex s);
      [|by left].
    right. destruct (JS.truthy _ && _).
    - destruct (Session.analyzeAnswer _ _ _ _ _) as [analysis calls].
      by exists (Session.analyzedAnswer answerData analysis).
    - by exists (Session.unanalyzedAnswer answerData). }
  - split; [by left|]. done.
  - simpl. split; [|split; [|done]].
    + destruct (upsert_shape final (Session.answers s))
        as [(i & old & _ & _ & _ & Hlen) | [_ ->]]; [by left|].
      right. rewrite length_app. simpl. lia.
    + intros i a Hi Hne.
      destruct (upsert_shape final (Session.answers s))
        as [(j & old & Hj & Hq & -> & _) | [_ ->]].
      * rewrite list_lookup_insert_ne; [done|].
        intros ->. rewrite Hi in Hj. injection Hj as ->. congruence.
      * rewrite lookup_app_l; [done|]. by eapply lookup_lt_Some.
Qed.

Lemma saveAnswer_keeps_others_witness :
  let after :=
    fst (Session.saveAnswer (Session.viaBackend Examples.oracle) Examples.half
           (Examples.answerTo "Q3" "Hoisting, I think.") Examples.answered13) in
  length (Session.answers after) = 2%nat
  ∧ Session.answers after !! 0%nat
    = Session.answers Examples.answered13 !! 0%nat.
Proof.
  intros after.
  destruct (saveAnswer_keeps_others (Session.viaBackend Examples.oracle) Examples.half
              (Examples.answerTo "Q3" "Hoisting, I think.")
              Examples.answered13) as (_ & Hkeep & _).
  split; [reflexivity|]. unfold after.
  rewrite (Hkeep 0%nat
             {| Session.questionId := "Q1";
                Session.text := "A function together with its scope.";
                Session.audioUrl := None; Session.score := Some 90;
                Session.feedback := Some "Clear and complete.";
                Session.strengths := Some []; Session.weaknesses := Some [];
                Session.questionText := None |});
    [reflexivity | reflexivity | discriminate].
Defined.

(** ** A gateway that returns no question *)

Lemma mockQuestions_nonempty ids c : Session.mockQuestions ids c ≠ [].
Proof.
  unfold Session.mockQuestions. rewrite length_formatQuestions.
  rewrite length_MOCK_QUESTIONS. simpl.
  intros H. apply (f_equal length) in H.
  rewrite length_formatQuestions, length_MOCK_QUESTIONS in H. done.
Qed.

(** X6. A started session has no question exactly when it has a
    configuration and the gateway answered [ok] with an empty array: the
    fallback is not used then. Such a session is in progress, but no
    answer can be recorded in it and finishing it gives no result. *)
Theorem startInterview_without_questions
    (env : Session.Environment)
    (options : option Session.InterviewStartOptions) (s : Session.State) :
  let started := Session.startInterview env options s in
  (Session.questions started = [] ↔
   ∃ c status,
     Session.sessionConfig options s = Some c
     ∧ Session.fetchQuestions env
         {| Session.rq_jobRole := Session.jobRole c;
            Session.rq_experienceLevel := Session.experienceLevel c;
            Session.count := Session.questionCount options |}
       = Session.QuestionsResponse status (Some [])
     ∧ Session.ok status = true)
  ∧ (Session.questions started = [] →
     Session.isInterviewInProgress started = true
     ∧ (∀ gateway random answerData,
          Session.saveAnswer gateway random answerData started = (started, []))
     ∧ (∀ now, Session.result (Session.finishInterview now started) = None)).
Proof.
  intros started.
  assert (Session.answers started = []
          ∧ Session.isInterviewInProgress started = true) as [Hans Hprog].
  { unfold started, Session.startInterview.
    destruct (Session.sessionConfig options s); [|done].
    by destruct (match options ≫= Session.o_mediaStream with
                 | Some _ => _ | None => _ end). }
  split.
  - unfold started, Session.startInterview.
    destruct (Session.sessionConfig options s) as [c|] eqn:Hc.
    + destruct (match options ≫= Session.o_mediaStream with
                | Some _ => _ | None => _ end). simpl.
      unfold Session.loadQuestions.
      pose proof (mockQuestions_nonempty (Session.getRandomId env) c) as Hmock.
      destruct (Session.fetchQuestions env _) as [|status data] eqn:Hfetch.
      * split; [done|].
        intros (c' & status & [= <-] & Hf & _). congruence.
      * destruct (Session.ok status) eqn:Hok; simpl.
        -- destruct data as [texts|].
           ++ split.
              ** intros Hnil. exists c, status.
                 apply (f_equal length) in Hnil.
                 rewrite length_formatQuestions in Hnil.
                 destruct texts; [done | done].
              ** intros (c' & status' & [= <-] & Hf & _).
                 rewrite Hfetch in Hf. by injection Hf as _ ->.
           ++ split; [done|].
              intros (c' & status' & [= <-] & Hf & _). congruence.
        -- split; [done|].
           intros (c' & status' & [= <-] & Hf & Hok').
           rewrite Hfetch in Hf. injection Hf as -> _. congruence.
    + simpl. split; [done|]. by intros (c & status & ? & _).
  - intros Hnil. split; [done|]. split.
    + intros gateway random answerData. apply saveAnswer_guard. right.
      rewrite Hnil. apply lookup_nil.
    + intros now. simpl. by rewrite Hans.
Qed.

Lemma startInterview_without_questions_witness :
  let started :=
    Session.startInterview Cases.silent (Some Examples.scheduledOptions)
      Session.initial in
  Session.questions started = []
  ∧ Session.saveAnswer (Session.viaBackend Examples.oracle) Examples.half
      (Examples.answerTo "Q1" "A function together with its scope.") started
    = (started, []).
Proof.
  intros started.
  destruct (startInterview_without_questions Cases.silent
              (Some Examples.scheduledOptions) Session.initial)
    as [_ Hempty].
  split; [reflexivity|].
  destruct Hempty as (_ & Hsave & _); [reflexivity|].
  apply Hsave.
Defined.

(** ** The result of a finished session *)

(** X7. The answers of a result carry, in the order of the questions, the
    identifiers and the texts of the questions; an answer that was
    recorded under an identifier that no question has is not among
    them. *)
Theorem result_answers_follow_questions
    (now : Z) (s : Session.State) (r : Session.InterviewResult)
    (Hr : Session.result (Session.finishInterview now s) = Some r) :
  (Session.questionId <$> Session.r_answers r)
  = (Session.id <$> Session.questions s)
  ∧ (Session.questionText <$> Session.r_answers r)
    = ((λ q, Some (Session.q_text q)) <$> Session.questions s)
  ∧ (∀ a, a ∈ Session.answers s →
          Session.questionId a ∉ (Session.id <$> Session.questions s) →
          ∀ e, e ∈ Session.r_answers r →
               Session.questionId e ≠ Session.questionId a).
Proof.
  assert (r = Session.resultToSave now s) as ->.
  { simpl in Hr. destruct (_ && _); [by injection Hr | done]. }
  simpl. unfold Session.finalAnswers.
  assert ((Session.questionId <$>
             ((λ question,
                 match Session.findAnswer (Session.id question)
                         (Session.answers s) with
                 | Some existingAnswer =>
                     Session.withQuestionText (Session.q_text question)
                       existingAnswer
                 | None => Session.skippedAnswer question
                 end) <$> Session.questions s))
          = (Session.id <$> Session.questions s)) as Hids.
  { rewrite <- list_fmap_compose. apply list_fmap_ext. intros i q _. simpl.
    destruct (Session.findAnswer _ _) as [a|] eqn:Hfind; [|done].
    by apply findAnswer_Some in Hfind as [_ ?]. }
  split; [done|]. split.
  - rewrite <- list_fmap_compose. apply list_fmap_ext. intros i q _. simpl.
    by destruct (Session.findAnswer _ _).
  - intros a Ha Hnot e He Heq. apply Hnot. rewrite <- Heq, <- Hids.
    by apply list_elem_of_fmap_2.
Qed.

Lemma result_answers_follow_questions_witness :
  ∃ r,
    Session.result (Session.finishInterview 0 Examples.answered13) = Some r
    ∧ (Session.questionId <$> Session.r_answers r) = ["Q1"; "Q2"; "Q3"].
Proof.
  eexists. split; [reflexivity|].
  destruct (result_answers_follow_questions 0 Examples.answered13 _ eq_refl)
    as [Hids _].
  exact Hids.
Defined.

(** X8. Finishing a session that is finished, at the instant at which it
    was finished, changes nothing: the result is computed anew from the
    questions and the answers, which stay for the result page; the
    session is complete and not in progress, at its first question and
    without its stream. *)
Theorem finishInterview_idempotent (now : Z) (s : Session.State) :
  let finished := Session.finishInterview now s in
  Session.finishInterview now finished = finished
  ∧ Session.questions finished = Session.questions s
  ∧ Session.answers finished = Session.answers s
  ∧ Session.isInterviewComplete finished = true
  ∧ Session.isInterviewInProgress finished = false
  ∧ Session.currentQuestionIndex finished = 0%nat
  ∧ Session.mediaStream finished = None
  ∧ (Session.answers s = [] → Session.result finished = None).
Proof.
  intros finished. unfold finished.
  split; [|repeat split].
  - unfold Session.finishInterview. simpl. f_equal.
  - intros Hnil. simpl. by rewrite Hnil.
Qed.

Lemma sum_scores_range (l : list Z) :
  Forall (λ z, 0 ≤ z ≤ 100) l →
  0 ≤ Spec.sum l ≤ 100 * Z.of_nat (length l).
Proof.
  unfold Spec.sum. induction 1 as [|z l Hz _ IH]; simpl; lia.
Qed.

(** X9. When every score of the recorded answers is between 0 and 100,
    so is the total score of the result. *)
Theorem totalScore_range
    (now : Z) (s : Session.State) (r : Session.InterviewResult)
    (Hr : Session.result (Session.finishInterview now s) = Some r)
    (Hscores : ∀ a z, a ∈ Session.answers s → Session.score a = Some z →
                      0 ≤ z ≤ 100) :
  0 ≤ Session.totalScore r ≤ 100.
Proof.
  assert (r = Session.resultToSave now s) as ->.
  { simpl in Hr. destruct (_ && _); [by injection Hr | done]. }
  simpl. unfold Session.computeTotalScore.
  rewrite length_answersWithScores.
  unfold Session.sumScores. rewrite sumScores_defined.
  set (scores := omap Session.score (Session.answers s)).
  assert (Forall (λ z, 0 ≤ z ≤ 100) scores) as Hall.
  { apply Forall_forall. intros z Hz.
    apply list_elem_of_omap in Hz as (a & Ha & Hz). by eapply Hscores. }
  apply sum_scores_range in Hall.
  destruct (0 <? Z.of_nat (length scores)) eqn:Hn; [|lia].
  assert (0 < Z.of_nat (length scores)) as Hpos by lia.
  pose proof (Math_round_ratio_bounds (0 + Spec.sum scores)
                (Z.of_nat (length scores)) Hpos) as Hround.
  simpl in Hround. nia.
Qed.

Lemma totalScore_range_witness :
  ∃ r,
    Session.result (Session.finishInterview 0 Examples.withTags) = Some r
    ∧ 0 ≤ Session.totalScore r ≤ 100.
Proof.
  eexists. split; [reflexivity|].
  apply (totalScore_range 0 Examples.withTags _ eq_refl).
  intros a z Ha Hz.
  assert (a = Examples.tagged "Q1" 72 ["clear"; ""; "concise"] ["pace"]
          ∨ a = Examples.tagged "Q2" 64
                  ["clear"; "examples"; "depth"; "structure"; "tone"]
                  ["pace"; "filler words"]) as [-> | ->].
  { change (Session.answers Examples.withTags)
      with [ Examples.tagged "Q1" 72 ["clear"; ""; "concise"] ["pace"];
             Examples.tagged "Q2" 64
               ["clear"; "examples"; "depth"; "structure"; "tone"]
               ["pace"; "filler words"] ] in Ha.
    apply elem_of_cons in Ha as [-> | Ha]; [by left|].
    apply list_elem_of_singleton in Ha. by right. }
  - injection Hz as <-. lia.
  - injection Hz as <-. lia.
Defined.

(** * Further properties of the backend *)

(** ** Who may cancel and complete *)

(** X15. Cancel succeeds only for a user with the role of HR who is the
    HR of the room, complete only for the HR or the candidate of the
    room, and only on a scheduled room with the requested identifier,
    which is then stored as cancelled (completed); a request that does
    not succeed leaves the collection as it is. *)
Theorem cancel_complete_authorized
    (a : Rooms.Authorization) (id : string) (db : list Rooms.InterviewRoom) :
  (Rooms.code (fst (Rooms.cancel a id db)) = 200 →
   ∃ user r,
     a = Rooms.Token user ∧ Rooms.role user = "hr"
     ∧ r ∈ db ∧ Rooms.hr r = Rooms.userId user
     ∧ Rooms.castObjectId id = Some (Rooms._id r)
     ∧ Rooms.status r = Rooms.scheduled
     ∧ snd (Rooms.cancel a id db)
       = Rooms.save (Rooms.set_status Rooms.cancelled r) db)
  ∧ (Rooms.code (fst (Rooms.cancel a id db)) ≠ 200 →
     snd (Rooms.cancel a id db) = db)
  ∧ (Rooms.code (fst (Rooms.complete a id db)) = 200 →
     ∃ user r,
       a = Rooms.Token user
       ∧ r ∈ db
       ∧ (Rooms.hr r = Rooms.userId user
          ∨ Rooms.candidate r = Rooms.userId user)
       ∧ Rooms.castObjectId id = Some (Rooms._id r)
       ∧ Rooms.status r = Rooms.scheduled
       ∧ snd (Rooms.complete a id db)
         = Rooms.save (Rooms.set_status Rooms.completed r) db)
  ∧ (Rooms.code (fst (Rooms.complete a id db)) ≠ 200 →
     snd (Rooms.complete a id db) = db).
Proof.
  split; [|split; [|split]].
  - unfold Rooms.cancel, Rooms.authenticateToken, Rooms.requireHR,
      Rooms.reply, Rooms.findOne_id_hr.
    destruct a as [| |user]; simpl; [done | done |].
    case_bool_decide as Hrole; simpl; [|done].
    destruct (Rooms.castObjectId id) as [oid|] eqn:Hcast; simpl; [|done].
    destruct (Rooms.find_first _ _) as [r|] eqn:Hfind; simpl; [|done].
    apply find_first_Some in Hfind as [Hin Hp].
    apply andb_true_iff in Hp as [Hid Hhr].
    apply bool_decide_eq_true in Hid, Hhr.
    case_bool_decide as Hst; simpl; [done|].
    intros _. exists user, r. repeat split; try done. by rewrite Hid.
  - unfold Rooms.cancel, Rooms.authenticateToken, Rooms.requireHR,
      Rooms.reply.
    destruct a as [| |user]; simpl; [done | done |].
    case_bool_decide; simpl; [|done].
    destruct (Rooms.findOne_id_hr _ _ _) as [[r|]|]; simpl; [|done|done].
    case_bool_decide; simpl; done.
  - unfold Rooms.complete, Rooms.authenticateToken, Rooms.reply,
      Rooms.findOne_id_party.
    destruct a as [| |user]; simpl; [done | done |].
    destruct (Rooms.castObjectId id) as [oid|] eqn:Hcast; simpl; [|done].
    destruct (Rooms.find_first _ _) as [r|] eqn:Hfind; simpl; [|done].
    apply find_first_Some in Hfind as [Hin Hp].
    apply andb_true_iff in Hp as [Hid Hparty].
    apply bool_decide_eq_true in Hid.
    assert (Rooms.hr r = Rooms.userId user
            ∨ Rooms.candidate r = Rooms.userId user) as Hwho.
    { apply orb_true_iff in Hparty as [H|H];
        apply bool_decide_eq_true in H; [by left | by right]. }
    clear Hparty.
    case_bool_decide as Hst; simpl; [done|].
    intros _. exists user, r. repeat split; try done. by rewrite Hid.
  - unfold Rooms.complete, Rooms.authenticateToken, Rooms.reply.
    destruct a as [| |user]; simpl; [done | done |].
    destruct (Rooms.findOne_id_party _ _ _) as [[r|]|]; simpl; [|done|done].
    case_bool_decide; simpl; done.
Qed.

(** The candidate of the example room cancels it: refused, nothing
    written; the candidate completes it: accepted. *)
Lemma cancel_complete_authorized_witness :
  Rooms.code (fst (Rooms.cancel (Rooms.Token Cases.candidateUser)
                     Examples.roomId [Examples.room Rooms.scheduled])) = 403
  ∧ snd (Rooms.cancel (Rooms.Token Cases.candidateUser)
           Examples.roomId [Examples.room Rooms.scheduled])
    = [Examples.room Rooms.scheduled]
  ∧ ∃ user r,
      Rooms.Token Cases.candidateUser = Rooms.Token user
      ∧ r ∈ [Examples.room Rooms.scheduled]
      ∧ (Rooms.hr r = Rooms.userId user
         ∨ Rooms.candidate r = Rooms.userId user).
Proof.
  destruct (cancel_complete_authorized (Rooms.Token Cases.candidateUser)
              Examples.roomId [Examples.room Rooms.scheduled])
    as (_ & Hrefused & Hdone & _).
  split; [reflexivity|]. split; [apply Hrefused; discriminate|].
  destruct Hdone as (user & r & Ha & Hin & Hparty & _); [reflexivity|].
  exists user, r. split; [exact Ha|]. split; [exact Hin | exact Hparty].
Defined.

(** ** What the transitions leave alone *)

Lemma same_room_refl r : Interviews.same_room r r.
Proof. by repeat split. Qed.

Lemma same_room_trans r1 r2 r3 :
  Interviews.same_room r1 r2 → Interviews.same_room r2 r3 →
  Interviews.same_room r1 r3.
Proof.
  unfold Interviews.same_room. intros H12 H23.
  destruct_and!. repeat split; congruence.
Qed.

Lemma same_room_set_status st r : Interviews.same_room r (Rooms.set_status st r).
Proof. by repeat split. Qed.

Lemma same_room_add_note n r : Interviews.same_room r (Results.add_note n r).
Proof.
  unfold Results.add_note. destruct (Rooms.notes r); [|by repeat split].
  destruct (0 <? _); by repeat split.
Qed.

Lemma Forall2_same_room_ids db db' :
  Forall2 Interviews.same_room db db' →
  (Rooms._id <$> db') = (Rooms._id <$> db).
Proof.
  induction 1 as [|r r' db db' Hr _ IH]; simpl; [done|].
  f_equal; [by destruct Hr | exact IH].
Qed.

(** Saving a changed copy of a stored room changes that room alone when
    the identifiers are unique. *)
Lemma save_same_room doc db x :
  NoDup (Rooms._id <$> db) → x ∈ db → Interviews.same_room x doc →
  Forall2 Interviews.same_room db (Rooms.save doc db).
Proof.
  intros Hnd Hx Hsame. unfold Rooms.save.
  apply Forall2_fmap_r, Forall_Forall2_diag, Forall_forall.
  intros r Hr. simpl. case_bool_decide as Hid; [|apply same_room_refl].
  assert (r = x) as ->; [|done].
  apply (NoDup_fmap_eq Rooms._id db); [done | done | done |].
  destruct Hsame as [Hdoc _]. congruence.
Qed.

Lemma save_elem_of_self doc db x :
  x ∈ db → Rooms._id x = Rooms._id doc → doc ∈ Rooms.save doc db.
Proof.
  intros Hx Hid. unfold Rooms.save.
  apply list_elem_of_fmap. exists x. split; [|done].
  by rewrite bool_decide_eq_true_2.
Qed.

Create HintDb same_room.

#[local] Hint Resolve same_room_refl same_room_set_status : same_room.

Lemma Forall2_same_room_refl db : Forall2 Interviews.same_room db db.
Proof. apply Forall_Forall2_diag, Forall_forall. auto with same_room. Qed.

Lemma Forall2_same_room_trans db1 db2 db3 :
  Forall2 Interviews.same_room db1 db2 →
  Forall2 Interviews.same_room db2 db3 →
  Forall2 Interviews.same_room db1 db3.
Proof.
  intros H12. revert db3.
  induction H12 as [|r1 r2 db1 db2 Hr _ IH]; intros db3 H23;
    inversion H23; subst; constructor;
    [by eapply same_room_trans | by apply IH].
Qed.

Lemma handler_same_room_cancel a id db :
  NoDup (Rooms._id <$> db) →
  Forall2 Interviews.same_room db (snd (Rooms.cancel a id db)).
Proof.
  intros Hnd.
  destruct (cancel_complete_authorized a id db) as (Hok & Hfail & _).
  destruct (decide (Rooms.code (fst (Rooms.cancel a id db)) = 200)) as [H|H].
  - destruct (Hok H) as (user & r & _ & _ & Hin & _ & _ & _ & ->).
    eapply save_same_room; eauto with same_room.
  - rewrite (Hfail H). apply Forall2_same_room_refl.
Qed.

Lemma handler_same_room_complete a id db :
  NoDup (Rooms._id <$> db) →
  Forall2 Interviews.same_room db (snd (Rooms.complete a id db)).
Proof.
  intros Hnd.
  destruct (cancel_complete_authorized a id db) as (_ & _ & Hok & Hfail).
  destruct (decide (Rooms.code (fst (Rooms.complete a id db)) = 200)) as [H|H].
  - destruct (Hok H) as (user & r & _ & Hin & _ & _ & _ & ->).
    eapply save_same_room; eauto with same_room.
  - rewrite (Hfail H). apply Forall2_same_room_refl.
Qed.

Lemma findById_elem_of id db r :
  Rooms.findById id db = Some (Some r) → r ∈ db.
Proof.
  unfold Rooms.findById. destruct (Rooms.castObjectId id); simpl; [|done].
  intros [= H]. by apply find_first_Some in H as [? _].
Qed.

Lemma handler_same_room_others now req db :
  NoDup (Rooms._id <$> db) →
  Forall2 Interviews.same_room db (snd (Rooms.autoCompleteTimed now req db))
  ∧ Forall2 Interviews.same_room db (snd (Rooms.autoComplete req db))
  ∧ Forall2 Interviews.same_room db (snd (Rooms.completeByRoom req db)).
Proof.
  intros Hnd. split; [|split].
  - unfold Rooms.autoCompleteTimed, Rooms.reply.
    destruct (Rooms.findById _ _) as [[r|]|] eqn:Hfind; simpl;
      try apply Forall2_same_room_refl.
    apply findById_elem_of in Hfind.
    repeat (case_bool_decide; simpl); try apply Forall2_same_room_refl.
    eapply save_same_room; eauto with same_room.
  - unfold Rooms.autoComplete, Rooms.reply.
    destruct (Rooms.resolve _ _) as [[r|]|] eqn:Hfind; simpl;
      try apply Forall2_same_room_refl.
    apply resolve_elem_of in Hfind.
    case_bool_decide; simpl; try apply Forall2_same_room_refl.
    eapply save_same_room; eauto with same_room.
  - unfold Rooms.completeByRoom, Rooms.reply.
    destruct (Rooms.findOne_roomLink _ _) as [r|] eqn:Hlink; simpl.
    + apply find_first_Some in Hlink as [Hin _].
      case_bool_decide; simpl; try apply Forall2_same_room_refl.
      eapply save_same_room; eauto with same_room.
    + destruct (Rooms.findById _ _) as [[r|]|] eqn:Hfind; simpl;
        try apply Forall2_same_room_refl.
      apply findById_elem_of in Hfind.
      case_bool_decide; simpl; try apply Forall2_same_room_refl.
      eapply save_same_room; eauto with same_room.
Qed.

Lemma store_result_same_room rid now user p doc db :
  NoDup (Rooms._id <$> Results.rooms db) →
  (∀ d, doc = Some d →
        ∃ x, x ∈ Results.rooms db ∧ Interviews.same_room x d) →
  Forall2 Interviews.same_room (Results.rooms db)
    (Results.rooms (snd (Results.store_result rid now user p doc db))).
Proof.
  intros Hnd Hdoc. unfold Results.store_result.
  destruct (Results.validate _ _ _ _ _); simpl;
    [|apply Forall2_same_room_refl].
  destruct doc as [d|]; simpl; [|apply Forall2_same_room_refl].
  destruct (Hdoc d eq_refl) as (x & Hx & Hsame).
  eapply save_same_room; [done | done |].
  eapply same_room_trans; [done | apply same_room_add_note].
Qed.

Lemma create_same_room rid now a p db :
  NoDup (Rooms._id <$> Results.rooms db) →
  Forall2 Interviews.same_room (Results.rooms db)
    (Results.rooms (snd (Results.create rid now a p db))).
Proof.
  intros Hnd. unfold Results.create.
  destruct a as [| |user]; simpl; try apply Forall2_same_room_refl.
  destruct (JS.truthy_opt _).
  - destruct (Rooms.findOne_roomLink _ _) as [d|] eqn:Hlink; simpl;
      [|apply Forall2_same_room_refl].
    apply find_first_Some in Hlink as [Hin _].
    case_bool_decide.
    + pose proof (save_same_room (Rooms.set_status Rooms.completed d)
                    (Results.rooms db) d Hnd Hin
                    (same_room_set_status _ _)) as Hfirst.
      eapply Forall2_same_room_trans; [exact Hfirst|].
      apply (store_result_same_room rid now user p _
               {| Results.rooms :=
                    Rooms.save (Rooms.set_status Rooms.completed d)
                      (Results.rooms db);
                  Results.results := Results.results db |}).
      * simpl. by rewrite (Forall2_same_room_ids _ _ Hfirst).
      * intros d' [= <-]. simpl.
        exists (Rooms.set_status Rooms.completed d).
        split; [|apply same_room_refl].
        by apply (save_elem_of_self _ _ d).
    + apply store_result_same_room; [done|].
      intros d' [= <-]. exists d. split; [done | apply same_room_refl].
  - apply store_result_same_room; [done | done].
Qed.

(** X16. With unique identifiers in the collection, a request of the
    room routes changes nothing in a room but its status and its notes:
    every room keeps its place, its identifier, title, HR, candidate,
    date, duration, role, level and link; no room is added or removed
    and the identifiers stay unique. *)
Theorem transitions_keep_rooms
    (now : Z) (req : Api.Request) (db : Results.Db)
    (Hunique : NoDup (Rooms._id <$> Results.rooms db)) :
  length (Api.rooms_after now req db) = length (Results.rooms db)
  ∧ (∀ i r, Results.rooms db !! i = Some r →
            ∃ r', Api.rooms_after now req db !! i = Some r'
                  ∧ Interviews.same_room r r')
  ∧ NoDup (Rooms._id <$> Api.rooms_after now req db).
Proof.
  assert (Forall2 Interviews.same_room (Results.rooms db)
            (Api.rooms_after now req db)) as Hsame.
  { destruct req; simpl.
    - by apply handler_same_room_cancel.
    - by apply handler_same_room_complete.
    - by apply handler_same_room_others.
    - by apply (handler_same_room_others now).
    - by apply (handler_same_room_others now).
    - by apply create_same_room. }
  split; [symmetry; by eapply Forall2_length|]. split.
  - intros i r Hi. by eapply Forall2_lookup_l.
  - by rewrite (Forall2_same_room_ids _ _ Hsame).
Qed.

Lemma transitions_keep_rooms_witness :
  ∃ r', Api.rooms_after 1700000000000 (Api.AutoComplete Examples.roomToken)
          (Examples.db Rooms.scheduled) !! 0%nat = Some r'
        ∧ Interviews.same_room (Examples.room Rooms.scheduled) r'.
Proof.
  destruct (transitions_keep_rooms 1700000000000
              (Api.AutoComplete Examples.roomToken)
              (Examples.db Rooms.scheduled)) as (_ & Hkeep & _).
  - apply NoDup_singleton.
  - apply (Hkeep 0%nat). reflexivity.
Defined.

(** ** The two requests of a finished session *)

Lemma not_an_identifier roomId :
  String.length roomId ≠ 12%nat → String.length roomId ≠ 24%nat →
  Rooms.castObjectId roomId = None.
Proof.
  intros H12 H24. unfold Rooms.castObjectId.
  rewrite (proj2 (Nat.eqb_neq _ _) H24), (proj2 (Nat.eqb_neq _ _) H12). done.
Qed.

(** X17. When PUT /room/:id/complete does not succeed, the request PUT
    /auto-complete/:id that [finishInterview] sends next with the same
    parameter does not succeed either and writes nothing, as long as the
    parameter has not the length of an identifier (a room token has 36
    characters) or is no room link of the collection: the two requests
    together do what the first one does. *)
Theorem autoComplete_fallback_futile
    (roomId : string) (db : list Rooms.InterviewRoom)
    (Hparam : (String.length roomId ≠ 12%nat ∧ String.length roomId ≠ 24%nat)
              ∨ Rooms.findOne_roomLink (Rooms.room_link_of roomId) db = None) :
  (Rooms.code (fst (Rooms.completeByRoom roomId db)) ≠ 200 →
   snd (Rooms.completeByRoom roomId db) = db
   ∧ Rooms.code (fst (Rooms.autoComplete roomId db)) ≠ 200
   ∧ snd (Rooms.autoComplete roomId db) = db)
  ∧ Upload.markCompleted roomId db = snd (Rooms.completeByRoom roomId db).
Proof.
  assert (Rooms.code (fst (Rooms.completeByRoom roomId db)) ≠ 200 →
          snd (Rooms.completeByRoom roomId db) = db
          ∧ Rooms.code (fst (Rooms.autoComplete roomId db)) ≠ 200
          ∧ snd (Rooms.autoComplete roomId db) = db) as Hfutile.
  { unfold Rooms.completeByRoom, Rooms.autoComplete, Rooms.resolve,
      Rooms.ObjectId_isValid, Rooms.reply.
    destruct (Rooms.findOne_roomLink _ db) as [r|] eqn:Hlink.
    - destruct Hparam as [[H12 H24] | Hnone]; [|done].
      rewrite (not_an_identifier roomId H12 H24). simpl.
      case_bool_decide; simpl; done.
    - unfold Rooms.findById.
      destruct (Rooms.castObjectId roomId) as [oid|]; simpl.
      + destruct (Rooms.find_first _ db) as [r|]; simpl.
        * case_bool_decide; simpl; done.
        * done.
      + done. }
  split; [done|].
  unfold Upload.markCompleted.
  destruct (Session.ok _) eqn:Hok; [done|].
  destruct Hfutile as (Hsame & _ & Hauto).
  { intros H. rewrite H in Hok. done. }
  by rewrite Hsame.
Qed.

(** The token of a room that is completed already: both requests are
    refused and the collection stays as it is. *)
Lemma autoComplete_fallback_futile_witness :
  Rooms.code (fst (Rooms.completeByRoom Examples.roomToken
                     [Examples.room Rooms.completed])) = 400
  ∧ Rooms.code (fst (Rooms.autoComplete Examples.roomToken
                       [Examples.room Rooms.completed])) ≠ 200
  ∧ Upload.markCompleted Examples.roomToken [Examples.room Rooms.completed]
    = [Examples.room Rooms.completed].
Proof.
  destruct (autoComplete_fallback_futile Examples.roomToken
              [Examples.room Rooms.completed]) as [Hfutile Hmark].
  { left. split; discriminate. }
  split; [reflexivity|].
  destruct Hfutile as (Hsame & Hcode & _); [discriminate|].
  split; [exact Hcode|]. rewrite Hmark. exact Hsame.
Defined.

(** ** The stored results *)

(** X18. POST /api/interview-results never changes or removes a stored
    result: when it answers 201 the collection has grown by the new
    result, which belongs to the caller and carries the identifier of the
    room that the token resolved, and otherwise the collection is as it
    was. It answers 404 exactly for an authenticated request whose
    [interviewId] is no room token of the collection, even when it is
    the identifier of a room. *)
Theorem results_append_only
    (rid : Rooms.ObjectId) (now : Z) (a : Rooms.Authorization)
    (p : Results.Payload) (db : Results.Db) :
  let out := Results.create rid now a p db in
  ((Results.code (fst out) = 201
    ∧ ∃ user result,
        a = Rooms.Token user
        ∧ Results.results (snd out) = Results.results db ++ [result]
        ∧ Results._id result = rid
        ∧ Results.candidateId result = Rooms.userId user
        ∧ Results.interviewId result
          = (Rooms._id <$>
               (if JS.truthy_opt (Results.p_interviewId p)
                then Rooms.findOne_roomLink
                       (Rooms.room_link_of
                          (default "" (Results.p_interviewId p)))
                       (Results.rooms db)
                else None)))
   ∨ (Results.code (fst out) ≠ 201
      ∧ Results.results (snd out) = Results.results db))
  ∧ (Results.code (fst out) = 404 ↔
     ∃ user token,
       a = Rooms.Token user
       ∧ Results.p_interviewId p = Some token ∧ token ≠ ""
       ∧ Rooms.findOne_roomLink (Rooms.room_link_of token) (Results.rooms db)
         = None).
Proof.
  intros out.
  assert (∀ user doc db',
            Results.results db' = Results.results db →
            let stored := Results.store_result rid now user p doc db' in
            (Results.code (fst stored) = 201
             ∧ ∃ result,
                 Results.results (snd stored) = Results.results db ++ [result]
                 ∧ Results._id result = rid
                 ∧ Results.candidateId result = Rooms.userId user
                 ∧ Results.interviewId result = (Rooms._id <$> doc))
            ∨ (Results.code (fst stored) = 500
               ∧ Results.results (snd stored) = Results.results db))
    as Hstore.
  { intros user doc db' Hsame stored. unfold stored, Results.store_result.
    destruct (Results.validate _ _ _ _ _) as [result|] eqn:Hval; simpl.
    - left. split; [done|]. exists result.
      unfold Results.validate in Hval.
      destruct (Results.p_jobRole p), (Results.p_experienceLevel p),
        (Results.p_totalScore p), (Results.p_feedback p); simpl in Hval;
        try done.
      destruct (_ && _); [|done]. injection Hval as <-.
      split; [|done]. destruct doc; simpl; by rewrite Hsame.
    - right. done. }
  unfold out, Results.create.
  destruct a as [| |user]; simpl.
  - split; [right; done|]. split; [done|]. by intros (? & ? & ? & _).
  - split; [right; done|]. split; [done|]. by intros (? & ? & ? & _).
  - destruct (Results.p_interviewId p) as [token|] eqn:Htoken; simpl.
    + unfold JS.truthy. destruct (bool_decide (token = "")) eqn:Hempty; simpl.
      * apply bool_decide_eq_true in Hempty.
        destruct (Hstore user None db eq_refl) as [(Hc & r & Hr) | [Hc Hr]].
        -- split; [left; split; [done|]; exists user, r; by split|].
           rewrite Hc. split; [done|].
           intros (u & t & _ & [= <-] & Hne & _). done.
        -- split; [right; rewrite Hc; done|].
           rewrite Hc. split; [done|].
           intros (u & t & _ & [= <-] & Hne & _). done.
      * apply bool_decide_eq_false in Hempty.
        destruct (Rooms.findOne_roomLink _ _) as [d|] eqn:Hlink; simpl.
        -- case_bool_decide.
           ++ destruct (Hstore user
                          (Some (Rooms.set_status Rooms.completed d))
                          {| Results.rooms :=
                               Rooms.save (Rooms.set_status Rooms.completed d)
                                 (Results.rooms db);
                             Results.results := Results.results db |} eq_refl)
                as [(Hc & r & Hr) | [Hc Hr]].
              ** split; [left; split; [done|]; exists user, r; by split|].
                 rewrite Hc. split; [done|].
                 intros (u & t & _ & [= <-] & _ & Hnone). congruence.
              ** split; [right; rewrite Hc; done|].
                 rewrite Hc. split; [done|].
                 intros (u & t & _ & [= <-] & _ & Hnone). congruence.
           ++ destruct (Hstore user (Some d) db eq_refl)
                as [(Hc & r & Hr) | [Hc Hr]].
              ** split; [left; split; [done|]; exists user, r; by split|].
                 rewrite Hc. split; [done|].
                 intros (u & t & _ & [= <-] & _ & Hnone). congruence.
              ** split; [right; rewrite Hc; done|].
                 rewrite Hc. split; [done|].
                 intros (u & t & _ & [= <-] & _ & Hnone). congruence.
        -- split; [right; done|]. split; [|done].
           intros _. exists user, token. done.
    + destruct (Hstore user None db eq_refl) as [(Hc & r & Hr) | [Hc Hr]].
      * split; [left; split; [done|]; exists user, r; by split|].
        rewrite Hc. split; [done|]. by intros (u & t & _ & ? & _).
      * split; [right; rewrite Hc; done|].
        rewrite Hc. split; [done|]. by intros (u & t & _ & ? & _).
Qed.

(** A result that is sent with the identifier of the example room instead
    of its token is refused with 404. *)
Lemma results_append_only_witness :
  Results.code
    (fst (Results.create "64b7f0c2a1d3e4f5a6b7c8f0" 1700003700000
            (Rooms.Token Cases.candidateUser)
            {| Results.p_interviewId := Some Examples.roomId;
               Results.p_jobRole := Some "web-developer";
               Results.p_experienceLevel := Some "mid-level";
               Results.p_totalScore := Some 80;
               Results.p_feedback := Some "Good job!";
               Results.p_strengths := [];
               Results.p_improvements := [];
               Results.p_answers := [] |}
            (Examples.db Rooms.scheduled))) = 404.
Proof.
  apply (results_append_only "64b7f0c2a1d3e4f5a6b7c8f0" 1700003700000
           (Rooms.Token Cases.candidateUser)).
  exists Cases.candidateUser, Examples.roomId.
  split; [reflexivity|]. split; [reflexivity|].
  split; [discriminate | reflexivity].
Defined.

(** X19. A result that resolves a scheduled room but does not pass the
    validation of the schema is refused with 500 and is not stored, yet
    the room has been stored as completed before: the status of the room
    is written before the result is validated. *)
Theorem rejected_result_completes_room
    (rid : Rooms.ObjectId) (now : Z) (user : Rooms.AuthUser)
    (p : Results.Payload) (db : Results.Db)
    (token : string) (room : Rooms.InterviewRoom)
    (Htoken : Results.p_interviewId p = Some token)
    (Hnonempty : token ≠ "")
    (Hroom : Rooms.findOne_roomLink (Rooms.room_link_of token)
               (Results.rooms db) = Some room)
    (Hscheduled : Rooms.status room = Rooms.scheduled)
    (Hinvalid : Results.p_jobRole p = None ∨ Results.p_jobRole p = Some ""
                ∨ Results.p_experienceLevel p = None
                ∨ Results.p_experienceLevel p = Some ""
                ∨ Results.p_totalScore p = None
                ∨ Results.p_feedback p = None
                ∨ Results.p_feedback p = Some "") :
  let out := Results.create rid now (Rooms.Token user) p db in
  Results.code (fst out) = 500
  ∧ Results.results (snd out) = Results.results db
  ∧ Results.rooms (snd out)
    = Rooms.save (Rooms.set_status Rooms.completed room) (Results.rooms db)
  ∧ ∃ i, Results.rooms db !! i = Some room
         ∧ Results.rooms (snd out) !! i
           = Some (Rooms.set_status Rooms.completed room).
Proof.
  intros out.
  assert (∀ oid, Results.validate rid now user oid p = None) as Hval.
  { intros oid. unfold Results.validate.
    destruct (Results.p_jobRole p) as [role|]; [|done].
    destruct (Results.p_experienceLevel p) as [level|]; [|done].
    destruct (Results.p_totalScore p) as [total|];
      [|simpl; by destruct Hinvalid as [?|[?|[?|[?|[?|[?|?]]]]]]].
    destruct (Results.p_feedback p) as [fb|]; simpl;
      [|by destruct Hinvalid as [?|[?|[?|[?|[?|[?|?]]]]]]].
    destruct Hinvalid as [?|[[= ->]|[?|[[= ->]|[?|[?|[= ->]]]]]]];
      try done; simpl; by rewrite ?andb_false_r. }
  assert (out
          = ({| Results.code := 500;
                Results.body := Results.Message "Error creating interview result" |},
             {| Results.rooms :=
                  Rooms.save (Rooms.set_status Rooms.completed room)
                    (Results.rooms db);
                Results.results := Results.results db |})) as ->.
  { unfold out, Results.create. rewrite Htoken. simpl.
    unfold JS.truthy. rewrite bool_decide_eq_false_2 by done. simpl.
    rewrite Hroom, bool_decide_eq_true_2 by done.
    unfold Results.store_result. by rewrite Hval. }
  simpl. split; [done|]. split; [done|]. split; [done|].
  apply find_first_Some in Hroom as [Hin _].
  apply list_elem_of_lookup in Hin as [i Hi].
  exists i. split; [done|]. rewrite save_lookup, Hi. simpl.
  by rewrite bool_decide_eq_true_2.
Qed.

Lemma rejected_result_completes_room_witness :
  let out := Results.create "64b7f0c2a1d3e4f5a6b7c8f0" 1700003700000
               (Rooms.Token Cases.candidateUser) Cases.noFeedback
               (Examples.db Rooms.scheduled) in
  Results.code (fst out) = 500
  ∧ Results.results (snd out) = []
  ∧ Results.rooms (snd out) = [Examples.room Rooms.completed].
Proof.
  intros out.
  destruct (rejected_result_completes_room "64b7f0c2a1d3e4f5a6b7c8f0"
              1700003700000 Cases.candidateUser Cases.noFeedback
              (Examples.db Rooms.scheduled) Examples.roomToken
              (Examples.room Rooms.scheduled))
    as (Hcode & Hresults & Hrooms & _);
    [reflexivity | discriminate | reflexivity | reflexivity
    | do 5 right; left; reflexivity |].
  split; [exact Hcode|]. split; [exact Hresults | exact Hrooms].
Defined.

(** ** Creating a room *)

Lemma find_first_app p db db' :
  Rooms.find_first p (db ++ db')
  = match Rooms.find_first p db with
    | Some r => Some r
    | None => Rooms.find_first p db'
    end.
Proof.
  induction db as [|x db IH]; simpl; [by destruct (Rooms.find_first p db')|].
  by destruct (p x).
Qed.

Lemma find_first_fresh p db :
  (∀ r, r ∈ db → p r = false) → Rooms.find_first p db = None.
Proof.
  induction db as [|x db IH]; simpl; [done|]. intros Hall.
  rewrite (Hall x) by left. apply IH. intros r Hr. apply Hall. by right.
Qed.

(** X20. POST /api/interviews stores a room only for a user with the role
    of HR, a candidate of the given e-mail address and a body that passes
    the validation; otherwise the collection is as it was. The room is
    appended as scheduled, with the caller as its HR, the given identifier
    and the link of the given token. It is then the room that GET
    /room/:roomId returns for the token when the link is new to the
    collection, and the room that its identifier finds when the
    identifier is new. *)
Theorem create_round_trip
    (oid : Rooms.ObjectId) (uuid : string) (users : list Interviews.User)
    (a : Rooms.Authorization) (b : Interviews.CreateBody)
    (db : list Rooms.InterviewRoom) :
  let out := Interviews.create oid uuid users a b db in
  (Rooms.code (fst out) = 201 →
   ∃ user candidate room,
     a = Rooms.Token user ∧ Rooms.role user = "hr"
     ∧ candidate ∈ users
     ∧ Some (Interviews.email candidate) = Interviews.candidateEmail b
     ∧ Interviews.role candidate = "candidate"
     ∧ snd out = db ++ [room]
     ∧ Rooms.body (fst out) = Rooms.Document room
     ∧ Rooms.status room = Rooms.scheduled
     ∧ Rooms._id room = oid
     ∧ Rooms.hr room = Rooms.userId user
     ∧ Rooms.candidate room = Interviews.u_id candidate
     ∧ Rooms.roomLink room = Rooms.room_link_of uuid
     ∧ Rooms.duration room = default 60 (Interviews.duration b)
     ∧ Rooms.title room ≠ ""
     ∧ Rooms.jobRole room ∈ Interviews.jobRoles
     ∧ Rooms.experienceLevel room ∈ Interviews.experienceLevels
     ∧ (Rooms.findOne_roomLink (Rooms.room_link_of uuid) db = None →
        Interviews.getByRoom uuid (snd out)
        = {| Rooms.code := 200; Rooms.body := Rooms.Document room |})
     ∧ ((∀ x, x ∈ db → Rooms._id x ≠ oid) →
        Rooms.castObjectId oid = Some oid →
        Rooms.findById oid (snd out) = Some (Some room)))
  ∧ (Rooms.code (fst out) ≠ 201 → snd out = db).
Proof.
  intros out. unfold out, Interviews.create, Rooms.authenticateToken,
    Rooms.requireHR, Rooms.reply.
  destruct a as [| |user]; simpl; [done | done |].
  case_bool_decide as Hrole; simpl; [|done].
  destruct (Interviews.findCandidate _ users) as [candidate|] eqn:Hcand;
    simpl; [|done].
  destruct (Interviews.validate _ _ _ _ _) as [room|] eqn:Hval; simpl;
    [|done].
  split; [|done]. intros _.
  unfold Interviews.findCandidate in Hcand.
  destruct (Interviews.candidateEmail b) as [e|] eqn:He; simpl in Hcand;
    [|done].
  destruct (list_find _ users) as [[i u]|] eqn:Hfind; simpl in Hcand; [|done].
  injection Hcand as ->.
  apply list_find_Some in Hfind as (Hi & [Hemail Hcrole] & _).
  unfold Interviews.validate in Hval.
  destruct (Interviews.title b) as [t|]; simpl in Hval; [|done].
  destruct (Interviews.scheduledFor b) as [at_|]; simpl in Hval; [|done].
  destruct (JS.truthy t) eqn:Ht; simpl in Hval; [|done].
  case_bool_decide as Hr; simpl in Hval; [|done].
  case_bool_decide as Hl; simpl in Hval; [|done].
  injection Hval as <-.
  exists user, candidate, {| Rooms._id := oid; Rooms.title := t;
    Rooms.hr := Rooms.userId user;
    Rooms.candidate := Interviews.u_id candidate;
    Rooms.scheduledFor := at_;
    Rooms.duration := default 60 (Interviews.duration b);
    Rooms.jobRole := default "web-developer" (Interviews.jobRole b);
    Rooms.experienceLevel := default "mid-level" (Interviews.experienceLevel b);
    Rooms.roomLink := Rooms.room_link_of uuid;
    Rooms.status := Rooms.scheduled; Rooms.notes := None |}.
  simpl. split_and!; try done.
  - apply list_elem_of_lookup. eauto.
  - by rewrite Hemail.
  - by apply truthy_nonempty.
  - intros Hfresh. unfold Interviews.getByRoom, Rooms.findOne_roomLink in *.
    rewrite find_first_app, Hfresh. simpl.
    by rewrite bool_decide_eq_true_2.
  - intros Hfresh Hcast. unfold Rooms.findById. rewrite Hcast. simpl.
    rewrite find_first_app, find_first_fresh.
    + simpl. by rewrite bool_decide_eq_true_2.
    + intros r Hin. apply bool_decide_eq_false. by apply Hfresh.
Qed.

(** The HR of the example creates a room for Ada: it is the second room
    of the collection, scheduled for 60 minutes, and its token finds
    it. *)
Lemma create_round_trip_witness :
  let out := Interviews.create Cases.newId Cases.newToken [Cases.candidate]
               (Rooms.Token Examples.hrUser) Cases.body
               [Examples.room Rooms.completed] in
  Rooms.code (fst out) = 201
  ∧ length (snd out) = 2%nat
  ∧ Rooms.code (Interviews.getByRoom Cases.newToken (snd out)) = 200
  ∧ ∃ room, snd out !! 1%nat = Some room
            ∧ Rooms.status room = Rooms.scheduled
            ∧ Rooms.duration room = 60.
Proof.
  intros out.
  destruct (create_round_trip Cases.newId Cases.newToken [Cases.candidate]
              (Rooms.Token Examples.hrUser) Cases.body
              [Examples.room Rooms.completed]) as [Hcreated _].
  destruct Hcreated
    as (user & candidate & room & _ & _ & _ & _ & _ & Hdb & _ & Hst & _ & _
        & _ & _ & Hd & _ & _ & _ & Hget & _); [reflexivity|].
  split; [reflexivity|]. split; [reflexivity|].
  split; [unfold out; rewrite Hget; reflexivity|].
  exists room. split; [unfold out; rewrite Hdb; reflexivity|].
  split; [exact Hst | exact Hd].
Defined.

(** ** The questions from the evaluator service *)

Lemma JobRole_string_truthy r : JS.truthy (Session.JobRole_string r) = true.
Proof. by destruct r. Qed.

Lemma ExperienceLevel_string_truthy l :
  JS.truthy (Session.ExperienceLevel_string l) = true.
Proof. by destruct l. Qed.

(** X10. A session whose gateway is the backend asks the evaluator service
    for the role of its configuration and for the number of questions
    that was derived from the options. It takes the texts that the
    service returns as its questions, in their order and however many
    they are; when the service is down, answers with an error status or
    with a payload that is no array, it takes the four questions of the
    table. *)
Theorem questions_via_backend
    (oracle : Questions.OracleRequest → Questions.Oracle)
    (env : Session.Environment)
    (options : option Session.InterviewStartOptions)
    (s : Session.State) (c : Session.InterviewConfig)
    (Henv : Session.fetchQuestions env = Questions.viaBackend oracle)
    (Hc : Session.sessionConfig options s = Some c) :
  let asked :=
    {| Questions.role := Session.JobRole_string (Session.jobRole c);
       Questions.num_questions := Session.questionCount options |} in
  let texts :=
    Session.q_text <$> Session.questions (Session.startInterview env options s) in
  (∀ data, oracle asked = Questions.OracleData (Some data) →
           texts = (Questions.oq_text <$> data))
  ∧ ((oracle asked = Questions.OracleDown
      ∨ oracle asked = Questions.OracleData None
      ∨ ∃ status detail, oracle asked = Questions.OracleError status detail
                         ∧ Session.ok status = false) →
     texts = Session.MOCK_QUESTIONS (Session.jobRole c)
               (Session.experienceLevel c)).
Proof.
  intros asked texts.
  assert (Session.questions (Session.startInterview env options s)
          = Session.loadQuestions env c (Session.questionCount options))
    as Hload.
  { unfold Session.startInterview. rewrite Hc.
    by destruct (match options ≫= Session.o_mediaStream with
                 | Some _ => _ | None => _ end). }
  assert (Session.fetchQuestions env
            {| Session.rq_jobRole := Session.jobRole c;
               Session.rq_experienceLevel := Session.experienceLevel c;
               Session.count := Session.questionCount options |}
          = let response :=
              match oracle asked with
              | Questions.OracleData (Some data) =>
                  {| Questions.code := 200;
                     Questions.body :=
                       Questions.Questions (Questions.oq_text <$> data) |}
              | Questions.OracleData None =>
                  {| Questions.code := 500;
                     Questions.body := Questions.Message
                       "Error fetching questions: Unexpected response from evaluator service" |}
              | Questions.OracleError status detail =>
                  {| Questions.code := if status =? 0 then 500 else status;
                     Questions.body := Questions.Message
                       (match detail with
                        | Some d => if JS.truthy d then d
                                    else "Error fetching questions from evaluator service"
                        | None => "Error fetching questions from evaluator service"
                        end) |}
              | Questions.OracleDown =>
                  {| Questions.code := 500;
                     Questions.body := Questions.Message
                       "Error fetching questions from evaluator service" |}
              end in
            Session.QuestionsResponse (Questions.code response)
              (match Questions.body response with
               | Questions.Questions l => Some l
               | Questions.Message _ => None
               end)) as Hfetch.
  { rewrite Henv. unfold Questions.viaBackend, Questions.questions. simpl.
    by rewrite JobRole_string_truthy. }
  unfold texts. rewrite Hload. unfold Session.loadQuestions. rewrite Hfetch.
  assert (Session.q_text <$> Session.mockQuestions (Session.getRandomId env) c
          = Session.MOCK_QUESTIONS (Session.jobRole c)
              (Session.experienceLevel c)) as Hmock.
  { unfold Session.mockQuestions. rewrite length_formatQuestions.
    rewrite length_MOCK_QUESTIONS. simpl. apply q_text_formatQuestions. }
  split.
  - intros data ->. simpl. apply q_text_formatQuestions.
  - intros [-> | [-> | (status & detail & -> & Hok)]]; simpl; [done | done |].
    destruct (status =? 0); simpl; [done|]. by rewrite Hok.
Qed.

(** The service returns two questions to a session that asks for ten:
    the session has those two. *)
Lemma questions_via_backend_witness :
  Session.questionCount (Some Examples.scheduledOptions) = 10
  ∧ (Session.q_text <$>
       Session.questions
         (Session.startInterview (Cases.viaBackendEnv Cases.twoQuestions)
            (Some Examples.scheduledOptions) Session.initial))
    = ["What is a closure?"; "What is a promise?"].
Proof.
  split; [reflexivity|].
  destruct (questions_via_backend Cases.twoQuestions
              (Cases.viaBackendEnv Cases.twoQuestions)
              (Some Examples.scheduledOptions) Session.initial Examples.webMid)
    as [Hdata _]; [reflexivity | reflexivity |].
  rewrite (Hdata [ {| Questions.oq_id := 1;
                      Questions.oq_text := "What is a closure?" |};
                   {| Questions.oq_id := 2;
                      Questions.oq_text := "What is a promise?" |} ]);
    reflexivity.
Defined.

(** ** The result that a session sends *)

Lemma feedbackFor_truthy t : JS.truthy (Session.feedbackFor t) = true.
Proof.
  unfold Session.feedbackFor.
  destruct (t >=? 80); [done|]. destruct (t >=? 70); [done|].
  by destruct (t >=? 60).
Qed.

(** X11. The result of a finished session always passes the validation of
    POST /api/interview-results: sent by an authenticated user, it is
    answered with 201 and stored with its total score and one entry for
    each question, unless it carries a room identifier that is no room
    token of the collection, in which case it is answered with 404; it is
    never answered with 500. *)
Theorem finished_payload_accepted
    (now : Z) (s : Session.State) (c : Session.InterviewConfig)
    (r : Session.InterviewResult)
    (rid : Rooms.ObjectId) (at_ : Z) (user : Rooms.AuthUser)
    (interviewRoomId : option string) (db : Results.Db)
    (Hc : Session.config s = Some c)
    (Hr : Session.result (Session.finishInterview now s) = Some r) :
  let p := Upload.backendPayload interviewRoomId c r in
  let out := Results.create rid at_ (Rooms.Token user) p db in
  (Results.code (fst out) = 201
   ∧ ∃ stored,
       Results.results (snd out) = Results.results db ++ [stored]
       ∧ Results.totalScore stored = Session.totalScore r
       ∧ length (Results.answers stored) = length (Session.questions s)
       ∧ Results.candidateId stored = Rooms.userId user)
  ∨ (Results.code (fst out) = 404
     ∧ snd out = db
     ∧ ∃ token, interviewRoomId = Some token ∧ token ≠ ""
                ∧ Rooms.findOne_roomLink (Rooms.room_link_of token)
                    (Results.rooms db) = None).
Proof.
  intros p out.
  assert (r = Session.resultToSave now s) as ->.
  { simpl in Hr. destruct (_ && _); [by injection Hr | done]. }
  assert (∀ doc db',
            Results.results db' = Results.results db →
            let stored_ := Results.store_result rid at_ user p doc db' in
            Results.code (fst stored_) = 201
            ∧ ∃ stored,
                Results.results (snd stored_) = Results.results db ++ [stored]
                ∧ Results.totalScore stored
                  = Session.totalScore (Session.resultToSave now s)
                ∧ length (Results.answers stored)
                  = length (Session.questions s)
                ∧ Results.candidateId stored = Rooms.userId user) as Hstore.
  { intros doc db' Hsame. unfold Results.store_result, Results.validate, p.
    simpl. rewrite JobRole_string_truthy, ExperienceLevel_string_truthy,
      feedbackFor_truthy. simpl.
    split; [done|].
    destruct doc as [d|]; simpl; rewrite Hsame;
      (eexists; split; [reflexivity|]; simpl;
       split; [done|]; split; [|done];
       unfold Session.finalAnswers; by rewrite !length_fmap). }
  unfold out, Results.create.
  change (Results.p_interviewId p)
    with (if JS.truthy_opt interviewRoomId then interviewRoomId else None).
  destruct interviewRoomId as [token|]; simpl;
    [|left; by apply (Hstore None db)].
  destruct (JS.truthy token) eqn:Htruthy; simpl;
    [|left; by apply (Hstore None db)].
  rewrite Htruthy. apply truthy_nonempty in Htruthy.
  destruct (Rooms.findOne_roomLink _ _) as [d|] eqn:Hlink.
  - left. case_bool_decide; by apply Hstore.
  - right. split; [done|]. split; [done|]. by exists token.
Qed.

(** The result of the example session, sent with the token of the example
    room: accepted. *)
Lemma finished_payload_accepted_witness :
  ∃ r,
    Session.result (Session.finishInterview 0 Examples.answered13) = Some r
    ∧ Results.code
        (fst (Results.create "64b7f0c2a1d3e4f5a6b7c8f0" 1700003700000
                (Rooms.Token Cases.candidateUser)
                (Upload.backendPayload (Some Examples.roomToken)
                   Examples.webMid r)
                (Examples.db Rooms.scheduled))) = 201.
Proof.
  eexists. split; [reflexivity|].
  destruct (finished_payload_accepted 0 Examples.answered13 Examples.webMid _
              "64b7f0c2a1d3e4f5a6b7c8f0" 1700003700000 Cases.candidateUser
              (Some Examples.roomToken) (Examples.db Rooms.scheduled)
              eq_refl eq_refl) as [[Hcode _] | (_ & _ & token & Ht & _ & Hnone)].
  - exact Hcode.
  - injection Ht as <-. discriminate Hnone.
Defined.

(** * Further properties of the room page *)

(** ** The countdown *)

Lemma tick_expired p : Page.tick (Page.expire p) = Page.expire p.
Proof. done. Qed.

Lemma iter_tick_running (p : RoomPage.PageState) (n : Z) (k : nat) :
  RoomPage.timerStarted p = true →
  RoomPage.remainingTime p = Some n →
  Z.of_nat k < n →
  Nat.iter k Page.tick p
  = {| RoomPage.error := RoomPage.error p;
       RoomPage.canStart := RoomPage.canStart p;
       RoomPage.roomExpired := RoomPage.roomExpired p;
       RoomPage.remainingTime := Some (n - Z.of_nat k);
       RoomPage.timerStarted := true;
       RoomPage.autoCompleteRequested := RoomPage.autoCompleteRequested p |}.
Proof.
  intros Hrun Hrem. induction k as [|k IH]; intros Hk.
  - destruct p as [e cs re rt ts acr]. simpl in *. subst.
    by rewrite Z.sub_0_r.
  - simpl. rewrite IH by lia. unfold Page.tick. simpl.
    assert ((n - Z.of_nat k <=? 1) = false) as -> by (apply Z.leb_gt; lia).
    do 2 f_equal. lia.
Qed.

(** X12. A page whose countdown runs with [n] seconds left, [n] at least
    1: after [k] firings of the interval, [k] less than [n], there are
    [n - k] seconds left and nothing else has changed; from the [n]-th
    firing on the page is expired for good, with 0 seconds left, the
    error "Interview time has expired" and the interval cleared, and the
    start button is ignored. *)
Theorem countdown_expires
    (p : RoomPage.PageState) (n : Z)
    (Hrun : RoomPage.timerStarted p = true)
    (Hrem : RoomPage.remainingTime p = Some n)
    (Hn : 1 ≤ n) :
  (∀ k : nat, Z.of_nat k < n →
     let q := Nat.iter k Page.tick p in
     RoomPage.remainingTime q = Some (n - Z.of_nat k)
     ∧ RoomPage.timerStarted q = true
     ∧ RoomPage.canStart q = RoomPage.canStart p
     ∧ RoomPage.roomExpired q = RoomPage.roomExpired p
     ∧ RoomPage.error q = RoomPage.error p)
  ∧ (∀ k : nat, n ≤ Z.of_nat k →
       let q := Nat.iter k Page.tick p in
       q = Page.expire p
       ∧ RoomPage.remainingTime q = Some 0
       ∧ RoomPage.roomExpired q = true
       ∧ RoomPage.canStart q = false
       ∧ RoomPage.timerStarted q = false
       ∧ RoomPage.error q = Some "Interview time has expired"
       ∧ ∀ interview name email stream,
           Page.handleStart interview q name email stream = Page.Ignored).
Proof.
  split.
  - intros k Hk q. unfold q. by rewrite (iter_tick_running p n k).
  - intros k Hk q.
    assert (q = Page.expire p) as ->.
    { unfold q. induction k as [|k IH]; [lia|]. simpl.
      destruct (decide (Z.of_nat k < n)) as [Hlt|Hge].
      - rewrite (iter_tick_running p n k) by done.
        unfold Page.tick. simpl.
        by replace (n - Z.of_nat k <=? 1) with true by lia.
      - rewrite IH by lia. apply tick_expired. }
    split; [done|]. repeat split.
    intros interview name email stream. unfold Page.handleStart.
    by destruct interview.
Qed.

(** The page of the example room five minutes after the start: 3300
    seconds are left; after 3299 firings one second is left, after 3300
    the page is expired. *)
Lemma countdown_expires_witness :
  RoomPage.remainingTime Cases.page = Some 3300
  ∧ RoomPage.remainingTime (Nat.iter 3299 Page.tick Cases.page) = Some 1
  ∧ Nat.iter 3300 Page.tick Cases.page = Page.expire Cases.page.
Proof.
  destruct (countdown_expires Cases.page 3300) as [Hrunning Hexpired];
    [reflexivity | reflexivity | lia |].
  split; [reflexivity|]. split.
  - destruct (Hrunning 3299%nat) as [Hleft _]; [lia|]. exact Hleft.
  - destruct (Hexpired 3300%nat) as [Hq _]; [lia|]. exact Hq.
Defined.

(** ** The display of the remaining time *)

Lemma length_append (s1 s2 : string) :
  String.length (s1 +:+ s2) = (String.length s1 + String.length s2)%nat.
Proof. induction s1 as [|c s1 IH]; simpl; [done | by rewrite IH]. Qed.

Lemma length_padStart2 (s : string) :
  (2 ≤ String.length (Page.padStart2 s))%nat.
Proof.
  unfold Page.padStart2. destruct s as [|c [|c' s]]; simpl; lia.
Qed.

Lemma length_pad_two_digits (n : Z) :
  0 ≤ n < 100 → String.length (Page.padStart2 (pretty n)) = 2%nat.
Proof.
  intros Hn.
  assert (forallb (λ k, Nat.eqb (String.length
                                   (Page.padStart2 (pretty (Z.of_nat k)))) 2)
            (seq 0 100) = true) as Hall by (vm_compute; reflexivity).
  rewrite forallb_forall in Hall.
  specialize (Hall (Z.to_nat n)). rewrite Z2Nat.id in Hall by lia.
  apply Nat.eqb_eq, Hall, in_seq. lia.
Qed.

(** X13. For a number of seconds that is not negative, the display is
    made of the hours, the minutes below 60 and the seconds below 60 that
    add up to it, each written with two digits at least and separated by
    colons; below 100 hours it has 8 characters. *)
Theorem formatRemainingTime_fields (seconds : Z) (Hpos : 0 ≤ seconds) :
  let hours := seconds / 3600 in
  let minutes := (seconds mod 3600) / 60 in
  let secs := seconds mod 60 in
  Page.formatRemainingTime seconds
  = Page.padStart2 (pretty hours) +:+ ":" +:+ Page.padStart2 (pretty minutes)
    +:+ ":" +:+ Page.padStart2 (pretty secs)
  ∧ hours * 3600 + minutes * 60 + secs = seconds
  ∧ 0 ≤ hours ∧ 0 ≤ minutes < 60 ∧ 0 ≤ secs < 60
  ∧ (8 ≤ String.length (Page.formatRemainingTime seconds))%nat
  ∧ (seconds < 360000 →
     String.length (Page.formatRemainingTime seconds) = 8%nat).
Proof.
  intros hours minutes secs.
  assert (Page.formatRemainingTime seconds
          = Page.padStart2 (pretty hours) +:+ ":"
            +:+ Page.padStart2 (pretty minutes)
            +:+ ":" +:+ Page.padStart2 (pretty secs)) as Hformat.
  { unfold Page.formatRemainingTime.
    change 3600%Q with (inject_Z 3600). change 60%Q with (inject_Z 60).
    rewrite !Math_floor_ratio by lia.
    by rewrite !Z.rem_mod_nonneg by lia. }
  assert (hours * 3600 + minutes * 60 + secs = seconds) as Hsum.
  { unfold hours, minutes, secs.
    pose proof (Z.div_mod seconds 3600).
    pose proof (Z.div_mod (seconds mod 3600) 60).
    assert ((seconds mod 3600) mod 60 = seconds mod 60) as Hmod.
    { apply Z.mod_mod_divide. exists 60. lia. }
    lia. }
  assert (0 ≤ hours) by (apply Z.div_pos; lia).
  assert (0 ≤ minutes < 60).
  { unfold minutes. pose proof (Z.mod_pos_bound seconds 3600).
    split; [apply Z.div_pos; lia | apply Z.div_lt_upper_bound; lia]. }
  assert (0 ≤ secs < 60) by (apply Z.mod_pos_bound; lia).
  split; [done|]. split; [done|]. split; [done|]. split; [done|].
  split; [done|]. rewrite Hformat, !length_append. simpl.
  pose proof (length_padStart2 (pretty hours)).
  rewrite (length_pad_two_digits minutes), (length_pad_two_digits secs) by lia.
  split; [lia|]. intros Hlt.
  rewrite (length_pad_two_digits hours); [done|].
  split; [done|]. apply Z.div_lt_upper_bound; lia.
Qed.

Lemma formatRemainingTime_fields_witness :
  Page.formatRemainingTime 3725 = "01:02:05"
  ∧ String.length (Page.formatRemainingTime 3725) = 8%nat.
Proof.
  destruct (formatRemainingTime_fields 3725) as (_ & _ & _ & _ & _ & _ & Hlen);
    [lia|].
  split; [vm_compute; reflexivity | apply Hlen; lia].
Defined.

(** ** The start button *)

(** X14. When the start button starts a session, the page is open and
    not expired, the name and the email typed in are not blank, the email
    is that of the invited candidate up to case, and the page holds a
    camera stream; the session gets that stream and the identifier of the
    room and no duration, so that, the identifier not being empty, it
    counts as scheduled by HR and asks for 5 questions. *)
Theorem handleStart_gate
    (interview : option Page.Room) (p : RoomPage.PageState)
    (name email : string) (stream : option Session.MediaStream)
    (options : Session.InterviewStartOptions)
    (Hstart : Page.handleStart interview p name email stream
              = Page.Started options) :
  ∃ room st,
    interview = Some room ∧ stream = Some st
    ∧ RoomPage.canStart p = true ∧ RoomPage.roomExpired p = false
    ∧ JS.trim name ≠ "" ∧ JS.trim email ≠ ""
    ∧ Page.toLowerCase email = Page.toLowerCase (Page.candidateEmail room)
    ∧ Session.o_mediaStream options = Some st
    ∧ Session.interviewId options = Some (RoomPage._id (Page.data room))
    ∧ Session.durationInSeconds options = None
    ∧ (RoomPage._id (Page.data room) ≠ "" →
       Session.hrScheduledCheck (Some options) = true
       ∧ Session.questionCount (Some options) = 5).
Proof.
  unfold Page.handleStart in Hstart.
  destruct interview as [room|]; [|done].
  destruct (RoomPage.canStart p) eqn:Hcan; [|done].
  destruct (RoomPage.roomExpired p) eqn:Hexpired; [done|]. simpl in Hstart.
  destruct (JS.truthy (JS.trim name)) eqn:Hname; [|done].
  destruct (JS.truthy (JS.trim email)) eqn:Hemail; [|done]. simpl in Hstart.
  case_bool_decide as Hsame; [|done]. simpl in Hstart.
  destruct stream as [st|]; [|done].
  injection Hstart as <-.
  exists room, st. simpl.
  apply truthy_nonempty in Hname, Hemail.
  repeat (split; [done|]).
  intros Hid.
  assert (Session.hrScheduledCheck
            (Some {| Session.o_mediaStream := Some st;
                     Session.o_jobRole := Page.parseJobRole (Page.jobRole room);
                     Session.o_experienceLevel :=
                       Page.parseExperienceLevel (Page.experienceLevel room);
                     Session.interviewId :=
                       Some (RoomPage._id (Page.data room));
                     Session.durationInSeconds := None;
                     Session.isHrScheduled := None |}) = true) as Hhr.
  { unfold Session.hrScheduledCheck. simpl. unfold JS.truthy.
    by rewrite bool_decide_eq_false_2. }
  split; [done|]. unfold Session.questionCount. by rewrite Hhr.
Qed.

(** The candidate of the example room starts the session from its page
    five minutes after the start, the email typed in capitals. *)
Lemma handleStart_gate_witness :
  ∃ options,
    Page.handleStart (Some Cases.pageRoom) Cases.page "Ada" "ADA@example.org"
      (Some 1%nat) = Page.Started options
    ∧ Session.questionCount (Some options) = 5.
Proof.
  eexists. split; [reflexivity|].
  destruct (handleStart_gate (Some Cases.pageRoom) Cases.page "Ada"
              "ADA@example.org" (Some 1%nat) _ eq_refl)
    as (room & st & [= <-] & _ & _ & _ & _ & _ & _ & _ & _ & _ & Hfive).
  apply Hfive. discriminate.
Defined.

(** X21. On the page as [fetchInterview] leaves it, the start button is
    enabled exactly when the room is scheduled, its end has not passed,
    its start is at most five minutes ahead and the page holds a camera
    stream. With the button enabled, [handleStart] starts a session or
    refuses for a blank field or for another email, never for a missing
    camera; outside the window [handleStart] returns at once. *)
Theorem start_needs_open_window
    (now : Z) (room : Page.Room) (name email : string)
    (stream : option Session.MediaStream) :
  let data := Page.data room in
  let p := RoomPage.fetchInterview now data in
  let open :=
    RoomPage.status data = Rooms.scheduled
    ∧ now ≤ RoomPage.addMinutes (RoomPage.scheduledFor data)
              (RoomPage.effectiveDuration data)
    ∧ RoomPage.scheduledFor data - now ≤ 300000 in
  (Page.startDisabled p stream = false ↔ open ∧ is_Some stream)
  ∧ (Page.startDisabled p stream = false →
     (∃ options,
        Page.handleStart (Some room) p name email stream
        = Page.Started options)
     ∨ Page.handleStart (Some room) p name email stream
       = Page.Refused "Please fill in all fields"
     ∨ Page.handleStart (Some room) p name email stream
       = Page.Refused "Email does not match the scheduled interview")
  ∧ (¬ open →
     Page.handleStart (Some room) p name email stream = Page.Ignored).
Proof.
  intros data p open.
  assert (RoomPage.canStart p = true ∧ RoomPage.roomExpired p = false ↔ open)
    as Hopen.
  { unfold p, open, RoomPage.fetchInterview.
    destruct (RoomPage.status data); simpl;
      [|split; [by intros [? _] | by intros [? _]]
       |split; [by intros [? _] | by intros [? _]]].
    destruct (now >? _) eqn:Hend; simpl.
    { apply Z.gtb_lt in Hend. split; [by intros [? _] | lia]. }
    destruct (_ >? 300000) eqn:Hearly; simpl.
    { apply Z.gtb_lt in Hearly. split; [by intros [? _] | lia]. }
    assert (¬ RoomPage.addMinutes (RoomPage.scheduledFor data)
                (RoomPage.effectiveDuration data) < now)
      by (intros Hlt; apply Z.gtb_lt in Hlt; congruence).
    assert (¬ 300000 < RoomPage.scheduledFor data - now)
      by (intros Hlt; apply Z.gtb_lt in Hlt; congruence).
    split; [intros _; split; [done | lia] | done]. }
  assert (Page.startDisabled p stream = false
          ↔ (RoomPage.canStart p = true ∧ RoomPage.roomExpired p = false)
            ∧ is_Some stream) as Hdisabled.
  { unfold Page.startDisabled.
    destruct (RoomPage.canStart p), (RoomPage.roomExpired p),
      stream as [st|]; simpl; split; try done;
      try (by intros [[? ?] _]); try (by intros [_ [? [=]]]). }
  split; [by rewrite Hdisabled, Hopen|]. split.
  - intros [[Hcan Hexpired] [st ->]]%Hdisabled.
    unfold Page.handleStart. rewrite Hcan, Hexpired. simpl.
    destruct (negb _ || negb _); [by right; left|].
    destruct (negb _); [by right; right|]. left. eauto.
  - intros Hclosed. unfold Page.handleStart.
    destruct (RoomPage.canStart p) eqn:Hcan; [|done].
    destruct (RoomPage.roomExpired p) eqn:Hexpired; [done|].
    destruct Hclosed. by apply Hopen.
Qed.

(** ** The room identifier of a finished session *)

Lemma substring_all (s : string) (m : nat) :
  (String.length s ≤ m)%nat → String.substring 0 m s = s.
Proof.
  revert m. induction s as [|c s IH]; intros [|m] Hm; simpl in *;
    [done | done | lia |].
  by rewrite IH by lia.
Qed.

Lemma prefix_append (s t : string) : String.prefix s (s +:+ t) = true.
Proof.
  induction s as [|c s IH]; simpl; [by destruct t|].
  by destruct (ascii_dec c c).
Qed.

Lemma index_0_prefix (s1 s2 : string) :
  s1 ≠ "" → String.prefix s1 s2 = true → String.index 0 s1 s2 = Some 0%nat.
Proof.
  intros Hs1 Hprefix. destruct s2 as [|c s2].
  - by destruct s1.
  - cbn [String.index]. by rewrite Hprefix.
Qed.

(** X22. On the path of a room link, the room identifier that
    [finishInterview] sends is the token of the link, whatever the
    storage of the browser holds, the token not containing the prefix
    of room links itself. *)
Theorem room_link_path_round_trip
    (token : string) (b : Upload.Browser)
    (Htoken : String.index 0 "/interview-room/" token = None)
    (Hpath : Upload.pathname b = Rooms.room_link_of token) :
  Upload.afterRoomPrefix (Rooms.room_link_of token) = Some token
  ∧ Upload.interviewRoomId b = Some token.
Proof.
  assert (Upload.afterRoomPrefix (Rooms.room_link_of token) = Some token)
    as Hafter.
  { unfold Upload.afterRoomPrefix, Rooms.room_link_of. cbv zeta.
    rewrite index_0_prefix by (done || apply prefix_append). simpl.
    change ("" +:+ token) with token.
    rewrite substring_all by lia. by rewrite Htoken. }
  split; [done|]. unfold Upload.interviewRoomId. by rewrite Hpath, Hafter.
Qed.

Lemma room_link_path_round_trip_witness :
  Upload.interviewRoomId
    {| Upload.pathname := Rooms.room_link_of Cases.newToken;
       Upload.storedRoomId := Some Examples.roomToken;
       Upload.sessionInterviewId := None |}
  = Some Cases.newToken.
Proof.
  apply (room_link_path_round_trip Cases.newToken); reflexivity.
Defined.
